(** * ZombieRun game server: the geospatial simulation core

    A shallow embedding of [models/game.py] (entities, great-circle
    distance, pursuer movement, the game aggregate and its advance step)
    and of [controllers/api.py]: the population generator
    ([StartHandler.PopulateZombies] and its helpers) and the request
    handlers ([Authorize], [GetAndAdvance], [Start] and [Put]).

    Conventions of the embedding.
    - Python floats are real numbers: arithmetic is exact, [math.sin],
      [math.cos], [math.sqrt] are the functions of the Reals library and
      [math.atan2] is its mathematical definition.  Rounding, overflow and
      NaN are outside the model.
    - The program is Python 2: [None] compares smaller than every number,
      every string compares greater than every number, and a loop variable
      that was never bound raises [UnboundLocalError] when read.
    - An exception is a value of [exn]; code that can raise returns a
      [result].  Methods of the datastore model [Game] run in a state and
      exception monad, so that the state at the moment of a raise is
      visible.
    - [json.dumps] and [json.loads] belong to the JSON library.  An encoded
      entity is represented by the dictionary its text denotes, so both
      are the identity on dictionaries.
    - [random.random()] reads the head of a stream of reals held in the
      state; the wall-clock delta of [Game.Advance] is an argument. *)

From Stdlib Require Import Reals Lra Lia ZArith Sorted.
From stdpp Require Import gmap strings list.

Local Open Scope R_scope.

(** ** Exceptions and results *)

Inductive exn : Type :=
| ModelStateError
| InvalidLocationError
| GameStateError
| AttributeError
| UnboundLocalError
| TypeError
| KeyError
| ValueError
| IndexError
| ZeroDivisionError.

Inductive result (A : Type) : Type :=
| Ok (a : A)
| Raise (e : exn).

Arguments Ok {A} a.
Arguments Raise {A} e.

Definition rbind {A B : Type} (m : result A) (k : A -> result B) : result B :=
  match m with
  | Ok a => k a
  | Raise e => Raise e
  end.

Notation "x <- m ;; k" := (rbind m (fun x => k))
  (at level 100, m at next level, right associativity).

(** Running an iterator to its end, as a list comprehension does: the
    elements are computed in order, and the first one that raises ends
    the run. *)
Fixpoint collect {A : Type} (it : list (result A)) : result (list A) :=
  match it with
  | [] => Ok []
  | r :: rest =>
      a <- r ;;
      l <- collect rest ;;
      Ok (a :: l)
  end.

(** ** Python values stored in a JSON dictionary *)

Inductive pyval : Type :=
| PyNone
| PyFloat (x : R)
| PyStr (s : string).

Abbreviation encoded := (gmap string pyval).

#[global] Instance Req_decision (x y : R) : Decision (x = y) := Req_dec_T x y.
#[global] Instance Rlt_decision (x y : R) : Decision (x < y) := Rlt_dec x y.
#[global] Instance Rle_decision (x y : R) : Decision (x <= y) := Rle_dec x y.

(** Truth value of an object in a condition. *)
Definition truthy (v : pyval) : bool :=
  match v with
  | PyNone => false
  | PyFloat x => bool_decide (x <> 0)
  | PyStr s => bool_decide (s <> EmptyString)
  end.

Definition of_float (o : option R) : pyval :=
  match o with
  | Some x => PyFloat x
  | None => PyNone
  end.

(** [obj[key]]. *)
Definition getitem (obj : gmap string pyval) (key : string) : result pyval :=
  match obj !! key with
  | Some v => Ok v
  | None => Raise KeyError
  end.

(** [float(v)].  The text of a string is not parsed: a string is taken as
    one that spells no number. *)
Definition float (v : pyval) : result R :=
  match v with
  | PyFloat x => Ok x
  | PyNone => Raise TypeError
  | PyStr _ => Raise ValueError
  end.

(** [int(x)]: truncation towards zero. *)
Definition int (x : R) : Z :=
  if decide (0 <= x) then Int_part x else (- Int_part (- x))%Z.

Definition json_dumps (d : gmap string pyval) : encoded := d.
Definition json_loads (s : encoded) : gmap string pyval := s.

(** ** Module constants *)

Definition RADIUS_OF_EARTH_METERS : R := 6378100.
Definition TRIGGER_DISTANCE_METERS : R := 10.
Definition ZOMBIE_VISION_DISTANCE_METERS : R := 200.
Definition MAX_TIME_INTERVAL_SECS : R := 60 * 10.
Definition ZOMBIE_SPEED_VARIANCE : R := 0.2.
Definition MIN_NUM_ZOMBIES : R := 20.
Definition MAX_ZOMBIE_CLUSTER_SIZE : Z := 4.
Definition MAX_ZOMBIE_CLUSTER_RADIUS : R := 30.

(** ** The math library *)

Definition radians (x : R) : R := x * (PI / 180).

Definition atan2 (y x : R) : R :=
  if decide (0 < x) then atan (y / x)
  else if decide (x < 0) then
    (if decide (0 <= y) then atan (y / x) + PI else atan (y / x) - PI)
  else if decide (0 < y) then PI / 2
  else if decide (y < 0) then - (PI / 2)
  else 0.

(** The body of [Entity.DistanceFromLatLon] on four floats. *)
Definition haversine_a (slat slon lat lon : R) : R :=
  let dlon := lon - slon in
  let dlat := lat - slat in
  sin (radians (dlat / 2)) ^ 2 +
  cos (radians slat) * cos (radians lat) * sin (radians (dlon / 2)) ^ 2.

Definition great_circle (slat slon lat lon : R) : R :=
  let a := haversine_a slat slon lat lon in
  let greatCircleDistance := 2 * atan2 (sqrt a) (sqrt (1 - a)) in
  RADIUS_OF_EARTH_METERS * greatCircleDistance.

(** ** Entities *)

(** [self.location]: [(None, None)] or a pair of floats. *)
Definition location_t : Type := option R * option R.

Class IsEntity (A : Type) : Type := {
  location : A -> location_t;
  with_location : location_t -> A -> A
}.

Module Entity.
Section Methods.
Context {A : Type} `{IsEntity A}.

Definition Lat (self : A) : option R := fst (location self).
Definition Lon (self : A) : option R := snd (location self).

(** A string argument fails the range test, a number being smaller than
    any string. *)
Definition SetLocation (lat lon : pyval) (self : A) : result A :=
  match lat, lon with
  | PyFloat la, PyFloat lo =>
      if decide (90 < la) then Raise InvalidLocationError
      else if decide (la < -90) then Raise InvalidLocationError
      else if decide (180 < lo) then Raise InvalidLocationError
      else if decide (lo < -180) then Raise InvalidLocationError
      else Ok (with_location (Some la, Some lo) self)
  | _, _ => Raise InvalidLocationError
  end.

Definition DistanceFromLatLon (self : A) (lat lon : option R) : result R :=
  match Lat self, Lon self, lat, lon with
  | Some slat, Some slon, Some la, Some lo => Ok (great_circle slat slon la lo)
  | _, _, _, _ => Raise TypeError
  end.

Definition DictForJson (self : A) : gmap string pyval :=
  <["lon" := of_float (Lon self)]> (<["lat" := of_float (Lat self)]> ∅).

Definition ToString (self : A) : encoded := json_dumps (DictForJson self).

Definition FromString (self : A) (enc : encoded) : result (A * gmap string pyval) :=
  let obj := json_loads enc in
  lat <- getitem obj "lat" ;;
  if truthy lat then
    lon <- getitem obj "lon" ;;
    if truthy lon then
      self' <- SetLocation lat lon self ;;
      Ok (self', obj)
    else Ok (self, obj)
  else Ok (self, obj).
End Methods.

Definition DistanceFrom {A B : Type} `{IsEntity A} `{IsEntity B}
    (self : A) (other : B) : result R :=
  DistanceFromLatLon self (Lat other) (Lon other).

(** A plain [Entity()]. *)
Record t : Type := mk { loc : location_t }.

#[global] Instance entity : IsEntity t := {
  location := loc;
  with_location l _ := mk l
}.
End Entity.

Module Player.
(** [email] is [None] while the attribute does not exist. *)
Record t : Type := mk {
  loc : location_t;
  email : option pyval
}.

#[global] Instance entity : IsEntity t := {
  location := loc;
  with_location l self := mk l (email self)
}.

Definition Email (self : t) : result pyval :=
  match email self with
  | Some e => Ok e
  | None => Raise AttributeError
  end.

Definition DictForJson (self : t) : result (gmap string pyval) :=
  e <- Email self ;;
  match e with
  | PyNone => Raise ModelStateError
  | _ => Ok (<["email" := e]> (Entity.DictForJson self))
  end.

Definition ToString (self : t) : result encoded :=
  d <- DictForJson self ;; Ok (json_dumps d).

Definition FromString (self : t) (enc : encoded) : result t :=
  r <- Entity.FromString self enc ;;
  e <- getitem (snd r) "email" ;;
  Ok (mk (loc (fst r)) (Some e)).

(** [Player(encoded, user)]; [user] is the user's email. *)
Definition init (enc : option encoded) (user : option pyval) : result t :=
  let self := mk (None, None) None in
  self <- match enc with
          | Some s => FromString self s
          | None => Ok self
          end ;;
  match user with
  | Some u => Ok (mk (loc self) (Some u))
  | None => Ok self
  end.
End Player.

Module Destination.
Record t : Type := mk { loc : location_t }.

#[global] Instance entity : IsEntity t := {
  location := loc;
  with_location l _ := mk l
}.

Definition init (enc : option encoded) : result t :=
  let self := mk (None, None) in
  match enc with
  | Some s => r <- Entity.FromString self s ;; Ok (fst r)
  | None => Ok self
  end.
End Destination.

(** What [Zombie.chasing] holds: a player object, or a plain value
    ([None], or whatever the "chasing" key of a decoded dictionary had). *)
Inductive chasing_t : Type :=
| ChasePlayer (p : Player.t)
| ChaseVal (v : pyval).

Definition chasing_truthy (c : chasing_t) : bool :=
  match c with
  | ChasePlayer _ => true
  | ChaseVal v => truthy v
  end.

(** ** The random number generator *)

Definition stream : Type := nat -> R.

(** [random.random()]: the next draw and the rest of the stream. *)
Definition random (rng : stream) : R * stream :=
  (rng O, fun n => rng (S n)).

Module Zombie.
(** [speed] is [None] while the attribute does not exist. *)
Record t : Type := mk {
  loc : location_t;
  speed : option R;
  chasing : chasing_t
}.

#[global] Instance entity : IsEntity t := {
  location := loc;
  with_location l self := mk l (speed self) (chasing self)
}.

Definition Speed (self : t) : result R :=
  match speed self with
  | Some s => Ok s
  | None => Raise AttributeError
  end.

Definition FromString (self : t) (enc : encoded) : result t :=
  r <- Entity.FromString self enc ;;
  let self := fst r in
  let obj := snd r in
  v <- getitem obj "speed" ;;
  s <- float v ;;
  let self := mk (loc self) (Some s) (chasing self) in
  match obj !! "chasing" with
  | Some c => Ok (mk (loc self) (speed self) (ChaseVal c))
  | None => Ok self
  end.

(** [Zombie(encoded, speed, chasing)].  The last assignment of the
    constructor replaces whatever [FromString] stored in [chasing]. *)
Definition init (enc : option encoded) (speed_arg : option R)
    (chasing_arg : chasing_t) : result t :=
  let self := mk (None, None) None (ChaseVal PyNone) in
  self <- match enc with
          | Some s => FromString self s
          | None => Ok self
          end ;;
  let self := if truthy (of_float speed_arg)
              then mk (loc self) speed_arg (chasing self)
              else self in
  Ok (mk (loc self) (speed self) chasing_arg).

(** The [for] loop of [ComputeChasing]; [player] is the loop variable,
    [None] while it is unbound. *)
Fixpoint ComputeChasing_loop (self : t) (player_iter : list Player.t)
    (min_distance : option R) (min_player player : option Player.t)
    : result (option R * option Player.t * option Player.t) :=
  match player_iter with
  | [] => Ok (min_distance, min_player, player)
  | p :: rest =>
      distance <- Entity.DistanceFrom self p ;;
      if match min_distance with
         | None => true
         | Some m => bool_decide (distance < m)
         end
      then ComputeChasing_loop self rest (Some distance) (Some p) (Some p)
      else ComputeChasing_loop self rest min_distance min_player (Some p)
  end.

(** [min_distance < ZOMBIE_VISION_DISTANCE_METERS], where [None] is
    smaller than any number. *)
Definition in_vision (min_distance : option R) : bool :=
  match min_distance with
  | None => true
  | Some d => bool_decide (d < ZOMBIE_VISION_DISTANCE_METERS)
  end.

Definition ComputeChasing (self : t) (player_iter : list Player.t) : result t :=
  r <- ComputeChasing_loop self player_iter None None None ;;
  let '(min_distance, min_player, player) := r in
  if in_vision min_distance then
    match player with
    | Some p => Ok (mk (loc self) (speed self) (ChasePlayer p))
    | None => Raise UnboundLocalError
    end
  else Ok (mk (loc self) (speed self) (ChaseVal PyNone)).

Definition MoveTowardsLatLon (self : t) (lat lon : option R) (distance : R)
    : result t :=
  dstToLatLon <- Entity.DistanceFromLatLon self lat lon ;;
  let magnitude := if decide (0 < dstToLatLon) then distance / dstToLatLon else 0 in
  match lat, lon, Entity.Lat self, Entity.Lon self with
  | Some la, Some lo, Some slat, Some slon =>
      let dLat := (la - slat) * magnitude in
      let dLon := (lo - slon) * magnitude in
      Entity.SetLocation (PyFloat (slat + dLat)) (PyFloat (slon + dLon)) self
  | _, _, _, _ => Raise TypeError
  end.

(** One pass through the body of the [while] loop of [Advance]. *)
Definition Advance_body (seconds : R) (players : list Player.t) (self : t)
    (rng : stream) : result (t * stream) :=
  sp <- Speed self ;;
  let distance_to_move := seconds * sp in
  self <- ComputeChasing self players ;;
  if chasing_truthy (chasing self) then
    match chasing self with
    | ChasePlayer target =>
        distance <- Entity.DistanceFrom self target ;;
        self <- MoveTowardsLatLon self (Entity.Lat target) (Entity.Lon target)
                  (Rmin distance distance_to_move) ;;
        Ok (self, rng)
    | ChaseVal _ => Raise AttributeError
    end
  else
    let (u1, rng) := random rng in
    match Entity.Lat self with
    | None => Raise TypeError
    | Some slat =>
        let random_lat := slat + u1 - 0.5 in
        let (u2, rng) := random rng in
        match Entity.Lon self with
        | None => Raise TypeError
        | Some slon =>
            let random_lon := slon + u2 - 0.5 in
            self <- MoveTowardsLatLon self (Some random_lat) (Some random_lon)
                      distance_to_move ;;
            Ok (self, rng)
        end
    end.

(** [while seconds > 0: ...; seconds = seconds - 1], at most [fuel] passes. *)
Fixpoint Advance_loop (fuel : nat) (seconds : R) (players : list Player.t)
    (self : t) (rng : stream) : result (t * stream) :=
  if decide (0 < seconds) then
    match fuel with
    | O => Ok (self, rng)
    | S fuel' =>
        r <- Advance_body seconds players self rng ;;
        Advance_loop fuel' (seconds - 1) players (fst r) (snd r)
    end
  else Ok (self, rng).

(** [up seconds] passes are enough: see [Advance_loop_fuel]. *)
Definition Advance (seconds : R) (player_iter : list (result Player.t))
    (self : t) (rng : stream) : result (t * stream) :=
  players <- collect player_iter ;;
  Advance_loop (Z.to_nat (up seconds)) seconds players self rng.

Definition DictForJson (self : t) : result (gmap string pyval) :=
  let dict := Entity.DictForJson self in
  sp <- Speed self ;;
  let dict := <["speed" := PyFloat sp]> dict in
  if chasing_truthy (chasing self) then
    match chasing self with
    | ChasePlayer p => e <- Player.Email p ;; Ok (<["chasing" := e]> dict)
    | ChaseVal _ => Raise AttributeError
    end
  else Ok dict.

Definition ToString (self : t) : result encoded :=
  d <- DictForJson self ;; Ok (json_dumps d).
End Zombie.

(** ** State and exception monad *)

Definition M (S A : Type) : Type := S -> result A * S.

Definition mret {S A : Type} (a : A) : M S A := fun s => (Ok a, s).

Definition mraise {S A : Type} (e : exn) : M S A := fun s => (Raise e, s).

Definition mbind {S A B : Type} (m : M S A) (k : A -> M S B) : M S B :=
  fun s =>
    match m s with
    | (Ok a, s') => k a s'
    | (Raise e, s') => (Raise e, s')
    end.

Definition lift {S A : Type} (r : result A) : M S A := fun s => (r, s).

Definition gets {S A : Type} (f : S -> A) : M S A := fun s => (Ok (f s), s).

Definition modify {S : Type} (f : S -> S) : M S unit := fun s => (Ok tt, f s).

Notation "x <~ m ;; k" := (mbind m (fun x => k))
  (at level 100, m at next level, right associativity).
Notation "m ;;; k" := (mbind m (fun _ => k))
  (at level 100, right associativity).

(** A computation on the first component of a pair of states. *)
Definition on_fst {S T A : Type} (m : M S A) : M (S * T) A :=
  fun st =>
    match m (fst st) with
    | (r, s') => (r, (s', snd st))
    end.

(** [l[index] = x] on a list: a negative index counts from the end. *)
Definition list_setitem {A : Type} (l : list A) (index : Z) (x : A)
    : result (list A) :=
  let n := Z.of_nat (length l) in
  if decide (0 <= index < n)%Z then Ok (<[Z.to_nat index := x]> l)
  else if decide (- n <= index < 0)%Z then Ok (<[Z.to_nat (n + index) := x]> l)
  else Raise IndexError.

Module Game.
(** [owner] is [owner.email()]. *)
Record t : Type := mk {
  owner : string;
  player_emails : list pyval;
  players : list encoded;
  zombies : list encoded;
  destination : option encoded;
  average_zombie_speed : R;
  zombie_density : R;
  started : bool;
  done : bool;
  humans_won : option bool
}.

Definition set_players (l : list encoded) (g : t) : t :=
  mk (owner g) (player_emails g) l (zombies g) (destination g)
     (average_zombie_speed g) (zombie_density g) (started g) (done g)
     (humans_won g).

Definition set_player_emails (l : list pyval) (g : t) : t :=
  mk (owner g) l (players g) (zombies g) (destination g)
     (average_zombie_speed g) (zombie_density g) (started g) (done g)
     (humans_won g).

Definition set_zombies (l : list encoded) (g : t) : t :=
  mk (owner g) (player_emails g) (players g) l (destination g)
     (average_zombie_speed g) (zombie_density g) (started g) (done g)
     (humans_won g).

Definition set_destination (d : option encoded) (g : t) : t :=
  mk (owner g) (player_emails g) (players g) (zombies g) d
     (average_zombie_speed g) (zombie_density g) (started g) (done g)
     (humans_won g).

Definition set_started (b : bool) (g : t) : t :=
  mk (owner g) (player_emails g) (players g) (zombies g) (destination g)
     (average_zombie_speed g) (zombie_density g) b (done g) (humans_won g).

Definition set_over (hw : bool) (g : t) : t :=
  mk (owner g) (player_emails g) (players g) (zombies g) (destination g)
     (average_zombie_speed g) (zombie_density g) (started g) true (Some hw).

(** The generator [Players]: each element is decoded when it is reached. *)
Definition Players (self : t) : list (result Player.t) :=
  map (fun enc => Player.init (Some enc) None) (players self).

Definition located (player : Player.t) : bool :=
  truthy (of_float (Entity.Lat player)) && truthy (of_float (Entity.Lon player)).

(** The generator [LocatedPlayers]: a player that fails to decode raises
    when the iteration reaches it. *)
Definition LocatedPlayers (self : t) : list (result Player.t) :=
  List.filter (fun r => match r with
                        | Ok player => located player
                        | Raise _ => true
                        end) (Players self).

Definition AddPlayer (player : Player.t) : M t unit :=
  s <~ lift (Player.ToString player) ;;
  modify (fun g => set_players (players g ++ [s]) g) ;;;
  e <~ lift (Player.Email player) ;;
  modify (fun g => set_player_emails (player_emails g ++ [e]) g).

Definition SetPlayer (index : Z) (player : Player.t) : M t unit :=
  n <~ gets (fun g => Z.of_nat (length (players g))) ;;
  if decide (n - 1 < index)%Z then mraise ModelStateError
  else
    s <~ lift (Player.ToString player) ;;
    ps <~ gets players ;;
    ps' <~ lift (list_setitem ps index s) ;;
    modify (set_players ps') ;;;
    e <~ lift (Player.Email player) ;;
    es <~ gets player_emails ;;
    es' <~ lift (list_setitem es index e) ;;
    modify (set_player_emails es').

Definition Zombies (self : t) : list (result Zombie.t) :=
  map (fun enc => Zombie.init (Some enc) None (ChaseVal PyNone)) (zombies self).

Definition AddZombie (zombie : Zombie.t) : M t unit :=
  s <~ lift (Zombie.ToString zombie) ;;
  modify (fun g => set_zombies (zombies g ++ [s]) g).

Definition SetZombie (index : Z) (zombie : Zombie.t) : M t unit :=
  n <~ gets (fun g => Z.of_nat (length (zombies g))) ;;
  if decide (n - 1 < index)%Z then mraise ModelStateError
  else
    s <~ lift (Zombie.ToString zombie) ;;
    zs <~ gets zombies ;;
    zs' <~ lift (list_setitem zs index s) ;;
    modify (set_zombies zs').

Definition Destination (self : t) : result Destination.t :=
  Destination.init (destination self).

Definition SetDestination (destination : Destination.t) : M t unit :=
  modify (set_destination (Some (Entity.ToString destination))).

Definition Start : M t unit := modify (set_started true).

Definition GameOver (humans_won : bool) : M t unit := modify (set_over humans_won).

(** [Zombie.Trigger] and [Destination.Trigger]. *)
Definition Zombie_Trigger (zombie : Zombie.t) (user : Player.t) : M t unit :=
  GameOver false.

Definition Destination_Trigger (destination : Destination.t) (user : Player.t)
    : M t unit :=
  GameOver true.

(** [self.destination.Trigger(player, self)]: [self.destination] is the
    stored text of the destination (or [None]), which has no attribute
    [Trigger]. *)
Definition destination_attr_Trigger (user : Player.t) : M t unit :=
  mraise AttributeError.

(** The first loop of [Advance], from index [i] on. *)
Fixpoint Advance_zombies (seconds_to_move : R) (i : nat)
    (zombie_iter : list (result Zombie.t)) : M (t * stream) unit :=
  match zombie_iter with
  | [] => mret tt
  | z :: rest =>
      zombie <~ lift z ;;
      zombie <~ (fun st =>
                   match Zombie.Advance seconds_to_move (LocatedPlayers (fst st))
                           zombie (snd st) with
                   | Ok (zombie', rng') => (Ok zombie', (fst st, rng'))
                   | Raise e => (Raise e, st)
                   end) ;;
      on_fst (SetZombie (Z.of_nat i) zombie) ;;;
      Advance_zombies seconds_to_move (S i) rest
  end.

Fixpoint Trigger_zombies (player : Player.t)
    (zombie_iter : list (result Zombie.t)) : M t unit :=
  match zombie_iter with
  | [] => mret tt
  | z :: rest =>
      zombie <~ lift z ;;
      d <~ lift (Entity.DistanceFrom player zombie) ;;
      (if decide (d < TRIGGER_DISTANCE_METERS)
       then Zombie_Trigger zombie player
       else mret tt) ;;;
      Trigger_zombies player rest
  end.

Fixpoint Trigger_players (player_iter : list (result Player.t)) : M t unit :=
  match player_iter with
  | [] => mret tt
  | p :: rest =>
      player <~ lift p ;;
      dest <~ (fun g => (Destination g, g)) ;;
      d <~ lift (Entity.DistanceFrom player dest) ;;
      (if decide (d < TRIGGER_DISTANCE_METERS)
       then destination_attr_Trigger player
       else mret tt) ;;;
      zs <~ gets Zombies ;;
      Trigger_zombies player zs ;;;
      Trigger_players rest
  end.

(** [Advance], given the seconds since [last_update_time].  The closing
    [if self.done: pass] of the source does nothing. *)
Definition Advance (seconds : R) : M (t * stream) unit :=
  let seconds_to_move := Rmin seconds MAX_TIME_INTERVAL_SECS in
  zs <~ gets (fun st => Zombies (fst st)) ;;
  Advance_zombies seconds_to_move O zs ;;;
  on_fst (ps <~ gets LocatedPlayers ;; Trigger_players ps).
End Game.

(** ** The request handlers of [controllers/api.py]

    Loading the game ([GetGame]'s memcache and datastore reads) and storing
    it ([PutGame]) are outside the model: a handler runs on the loaded game
    and leaves the game it would store.  [user] is the email of
    [users.get_current_user()], [None] when nobody is logged in; the
    latitude and longitude of a request are the floats already parsed. *)

Inductive api_exn : Type :=
| AuthorizationError
| MalformedRequestError
| GameNotFoundError
| Raised (e : exn).

Inductive response (A : Type) : Type :=
| Returned (a : A)
| Failed (e : api_exn).

Arguments Returned {A} a.
Arguments Failed {A} e.

(** A computation of the model, run inside a handler. *)
Definition run {S A : Type} (m : M S A) : S -> response A * S :=
  fun s =>
    match m s with
    | (Ok a, s') => (Returned a, s')
    | (Raise e, s') => (Failed (Raised e), s')
    end.

(** [player.Email() == user.email()]. *)
Definition email_is (e : pyval) (email : string) : bool :=
  match e with
  | PyStr s => bool_decide (s = email)
  | _ => false
  end.

(** [x != y] for a coordinate [x] of an entity, [None] being different from
    every float. *)
Definition ne_float (x : option R) (y : R) : bool :=
  match x with
  | Some x' => negb (bool_decide (x' = y))
  | None => true
  end.

Module GameHandler.
(** The loop of [Authorize]: [authorized] at its end. *)
Fixpoint Authorize_loop (email : string) (player_iter : list (result Player.t))
    : result bool :=
  match player_iter with
  | [] => Ok false
  | p :: rest =>
      player <- p ;;
      e <- Player.Email player ;;
      if email_is e email then Ok true
      else Authorize_loop email rest
  end.

Definition Authorize (user : option string) (game : Game.t) : response unit :=
  match user with
  | None => Failed AuthorizationError
  | Some email =>
      match Authorize_loop email (Game.Players game) with
      | Ok true => Returned tt
      | Ok false => Failed AuthorizationError
      | Raise e => Failed (Raised e)
      end
  end.
End GameHandler.

Module GetHandler.
(** [GetAndAdvance], given the seconds since the last update. *)
Definition GetAndAdvance (user : option string) (seconds : R)
    : Game.t * stream -> response unit * (Game.t * stream) :=
  fun st =>
    match GameHandler.Authorize user (fst st) with
    | Failed e => (Failed e, st)
    | Returned _ =>
        if Game.started (fst st) then run (Game.Advance seconds) st
        else (Returned tt, st)
    end.
End GetHandler.

(** ** The population generator of the start handler *)

Module StartHandler.

(** [random.random()] on the stream of the state. *)
Definition draw : M (Game.t * stream) R :=
  fun st =>
    let (u, rng) := random (snd st) in
    (Ok u, (fst st, rng)).

(** [random.randint(a, b)], which is [a + int(random() * (b + 1 - a))]. *)
Definition randint (a b : Z) : M (Game.t * stream) Z :=
  if decide (b < a)%Z then mraise ValueError
  else
    u <~ draw ;;
    mret (a + int (u * IZR (b + 1 - a)))%Z.

Definition RandomPointNear (lat lon distance : R) : M (Game.t * stream) (R * R) :=
  u <~ draw ;;
  let radians' := PI * 2 * u in
  let to_lat := lat + sin radians' in
  let to_lon := lon + cos radians' in
  base <~ lift (Entity.SetLocation (PyFloat lat) (PyFloat lon)
                  (Entity.mk (None, None))) ;;
  to <~ lift (Entity.SetLocation (PyFloat to_lat) (PyFloat to_lon)
                (Entity.mk (None, None))) ;;
  base_to_distance <~ lift (Entity.DistanceFrom base to) ;;
  if decide (base_to_distance = 0) then mraise ZeroDivisionError
  else
    let magnitude := distance / base_to_distance in
    let dLat := (to_lat - lat) * magnitude in
    let dLon := (to_lon - lon) * magnitude in
    mret (lat + dLat, lon + dLon).

Definition AddZombie (center_lat center_lon : R) : M (Game.t * stream) unit :=
  average_zombie_speed <~ gets (fun st => Game.average_zombie_speed (fst st)) ;;
  u <~ draw ;;
  let speed := average_zombie_speed * ((u - 0.5) * ZOMBIE_SPEED_VARIANCE + 1) in
  u' <~ draw ;;
  let distance_from_center := u' * MAX_ZOMBIE_CLUSTER_RADIUS in
  p <~ RandomPointNear center_lat center_lon distance_from_center ;;
  zombie <~ lift (Zombie.init None (Some speed) (ChaseVal PyNone)) ;;
  zombie <~ lift (Entity.SetLocation (PyFloat (fst p)) (PyFloat (snd p)) zombie) ;;
  on_fst (Game.AddZombie zombie).

(** [for i in xrange(num_zombies): self.AddZombie(game, lat, lon)]. *)
Fixpoint AddZombie_times (n : nat) (cluster_lat cluster_lon : R)
    : M (Game.t * stream) unit :=
  match n with
  | O => mret tt
  | S n' =>
      AddZombie cluster_lat cluster_lon ;;;
      AddZombie_times n' cluster_lat cluster_lon
  end.

Definition AddZombieCluster (epicenter_lat epicenter_lon max_radius : R)
    (num_zombies : Z) : M (Game.t * stream) unit :=
  u <~ draw ;;
  let cluster_distance_from_epicenter := u * max_radius in
  c <~ RandomPointNear epicenter_lat epicenter_lon
         cluster_distance_from_epicenter ;;
  AddZombie_times (Z.to_nat num_zombies) (fst c) (snd c).

Definition GetZombieEpicenter (game : Game.t) (owner : Player.t) : result (R * R) :=
  destination <- Game.Destination game ;;
  match Entity.Lat destination, Entity.Lat owner,
        Entity.Lon destination, Entity.Lon owner with
  | Some dlat, Some olat, Some dlon, Some olon =>
      let dLat := dlat - olat in
      let dLon := dlon - olon in
      let mid_lat := olat + dLat / 2 in
      let mid_lon := olon + dLon / 2 in
      Ok (mid_lat, mid_lon)
  | _, _, _, _ => Raise TypeError
  end.

(** The search for the owner among the players; [owner] is the player
    found so far. *)
Fixpoint find_owner (owner_email : string) (player_iter : list (result Player.t))
    (owner : option Player.t) : result (option Player.t) :=
  match player_iter with
  | [] => Ok owner
  | p :: rest =>
      player <- p ;;
      e <- Player.Email player ;;
      match e with
      | PyStr s =>
          if decide (s = owner_email) then find_owner owner_email rest (Some player)
          else find_owner owner_email rest owner
      | _ => find_owner owner_email rest owner
      end
  end.

(** The [while] loop of [PopulateZombies], at most [fuel] passes. *)
Fixpoint PopulateZombies_loop (fuel : nat) (num_zombies : Z)
    (epicenter_lat epicenter_lon radius_m : R) : M (Game.t * stream) unit :=
  n <~ gets (fun st => Z.of_nat (length (Game.zombies (fst st)))) ;;
  if decide (n < num_zombies)%Z then
    match fuel with
    | O => mret tt
    | S fuel' =>
        let max_zombie_cluster_size :=
          Z.min MAX_ZOMBIE_CLUSTER_SIZE (num_zombies - n) in
        zombie_cluster_size <~ randint 1 max_zombie_cluster_size ;;
        AddZombieCluster epicenter_lat epicenter_lon radius_m
          zombie_cluster_size ;;;
        PopulateZombies_loop fuel' num_zombies epicenter_lat epicenter_lon
          radius_m
    end
  else mret tt.

(** Every pass that returns adds at least one zombie, so [num_zombies]
    passes are enough. *)
Definition PopulateZombies : M (Game.t * stream) unit :=
  game <~ gets fst ;;
  found <~ lift (find_owner (Game.owner game) (Game.Players game) None) ;;
  match found with
  | None => mraise AttributeError
  | Some owner =>
      if negb (truthy (of_float (Entity.Lat owner)))
         || negb (truthy (of_float (Entity.Lon owner)))
      then mraise GameStateError
      else
        epicenter <~ lift (GetZombieEpicenter game owner) ;;
        destination <~ lift (Game.Destination game) ;;
        radius_m <~ lift (Entity.DistanceFrom owner destination) ;;
        let radius_km := radius_m / 1000 in
        let area_kmsq := PI * radius_km * radius_km in
        let num_zombies :=
          int (Rmax (Game.zombie_density game * area_kmsq) MIN_NUM_ZOMBIES) in
        PopulateZombies_loop (Z.to_nat num_zombies) num_zombies
          (fst epicenter) (snd epicenter) radius_m
  end.

(** [Start] of [StartHandler.get]. *)
Definition Start (user : option string) (lat lon : R)
    : Game.t * stream -> response unit * (Game.t * stream) :=
  fun st =>
    match GameHandler.Authorize user (fst st) with
    | Failed e => (Failed e, st)
    | Returned _ =>
        if negb (bool_decide (user = Some (Game.owner (fst st))))
        then (Failed AuthorizationError, st)
        else
          run (destination <~ lift (Entity.SetLocation (PyFloat lat) (PyFloat lon)
                                      (Destination.mk (None, None))) ;;
               on_fst (modify (Game.set_started true)) ;;;
               on_fst (Game.SetDestination destination) ;;;
               PopulateZombies) st
    end.
End StartHandler.

Module PutHandler.
(** The loop of [Put] over the players, from index [i] on; it ends at the
    first player of the user. *)
Fixpoint Put_loop (email : string) (lat lon : R) (i : nat)
    (player_iter : list (result Player.t)) : M Game.t unit :=
  match player_iter with
  | [] => mret tt
  | p :: rest =>
      player <~ lift p ;;
      e <~ lift (Player.Email player) ;;
      if email_is e email then
        if ne_float (Entity.Lat player) lat || ne_float (Entity.Lon player) lon
        then
          player <~ lift (Entity.SetLocation (PyFloat lat) (PyFloat lon) player) ;;
          Game.SetPlayer (Z.of_nat i) player
        else mret tt
      else Put_loop email lat lon (S i) rest
  end.

(** [Put], for a logged-in user and the seconds since the last update. *)
Definition Put (user : string) (lat lon seconds : R)
    : Game.t * stream -> response unit * (Game.t * stream) :=
  fun st =>
    match GameHandler.Authorize (Some user) (fst st) with
    | Failed e => (Failed e, st)
    | Returned _ =>
        run (on_fst (ps <~ gets Game.Players ;; Put_loop user lat lon O ps) ;;;
             started <~ gets (fun st => Game.started (fst st)) ;;
             if started then Game.Advance seconds else mret tt) st
    end.
End PutHandler.

(** * Specification predicates and sample states *)

(** The range that [SetLocation] accepts. *)
Definition valid_coordinate (lat lon : R) : Prop :=
  -90 <= lat <= 90 /\ -180 <= lon <= 180.

(** A player and a pursuer built the way the handlers build them: the
    constructor, then [SetLocation]. *)
Definition construct_player (lat lon : R) (e : string) : result Player.t :=
  p <- Player.init None (Some (PyStr e)) ;;
  Entity.SetLocation (PyFloat lat) (PyFloat lon) p.




(** The text of a player and of a pursuer without a target. *)
Definition player_text (lat lon : pyval) (e : string) : encoded :=
  <["email" := PyStr e]> (<["lon" := lon]> (<["lat" := lat]> ∅)).

Definition zombie_text (lat lon : pyval) (speed : R) : encoded :=
  <["speed" := PyFloat speed]> (<["lon" := lon]> (<["lat" := lat]> ∅)).

(** A located pursuer without a target, and a located player. *)
Definition zombie_at (lat lon speed : R) : Zombie.t :=
  Zombie.mk (Some lat, Some lon) (Some speed) (ChaseVal PyNone).

Definition player_at (lat lon : R) (e : string) : Player.t :=
  Player.mk (Some lat, Some lon) (Some (PyStr e)).

(** Meters along a meridian per degree of latitude. *)
Definition earth_degree : R := RADIUS_OF_EARTH_METERS * (PI / 180).

(** The text of a destination. *)
Definition destination_text (lat lon : pyval) : encoded :=
  <["lon" := lon]> (<["lat" := lat]> ∅).

(** The pursuer [z] is within trigger distance of [player]. *)
Definition fires (player : Player.t) (z : result Zombie.t) : bool :=
  match z with
  | Ok zombie =>
      match Entity.DistanceFrom player zombie with
      | Ok d => bool_decide (d < TRIGGER_DISTANCE_METERS)
      | Raise _ => false
      end
  | Raise _ => false
  end.

(** Some located player of [g] is within trigger distance of some pursuer
    of [g]. *)
Definition pursuer_trigger_fires (g : Game.t) : bool :=
  existsb (fun p => match p with
                    | Ok player => existsb (fires player) (Game.Zombies g)
                    | Raise _ => false
                    end) (Game.LocatedPlayers g).

(** A started game: one player, standing on the destination, no pursuer. *)
Definition game_at_destination : Game.t :=
  Game.mk "p" [PyStr "p"] [player_text (PyFloat 1) (PyFloat 1) "p"] []
    (Some (destination_text (PyFloat 1) (PyFloat 1)))
    1 20 true false None.

(** A finished game that the players won, with a pursuer standing on the
    only player and the destination one degree to the north. *)
Definition game_won : Game.t :=
  Game.mk "p" [PyStr "p"] [player_text (PyFloat 1) (PyFloat 1) "p"]
    [zombie_text (PyFloat 1) (PyFloat 1) 1]
    (Some (destination_text (PyFloat 2) (PyFloat 1)))
    1 20 true true (Some true).

(** The fields that only [GameOver] writes, and those nothing in [Advance]
    writes. *)
Definition same_status (g g' : Game.t) : Prop :=
  Game.done g' = Game.done g /\ Game.humans_won g' = Game.humans_won g /\
  Game.players g' = Game.players g /\ Game.destination g' = Game.destination g.

(** Some pursuer of [g] is within trigger distance of the player [p]. *)
Definition player_fires (g : Game.t) (p : result Player.t) : bool :=
  match p with
  | Ok player => existsb (fires player) (Game.Zombies g)
  | Raise _ => false
  end.

(** The text of a pursuer chasing the player with email [e]. *)
Definition zombie_chasing_text (lat lon : pyval) (speed : R) (e : string)
    : encoded :=
  <["chasing" := PyStr e]> (zombie_text lat lon speed).

(** [game_won] after one second: the pursuer chases the player, and the
    pursuers have won. *)
Definition game_caught : Game.t :=
  Game.mk "p" [PyStr "p"] [player_text (PyFloat 1) (PyFloat 1) "p"]
    [zombie_chasing_text (PyFloat 1) (PyFloat 1) 1 "p"]
    (Some (destination_text (PyFloat 2) (PyFloat 1)))
    1 20 true true (Some false).

(** Every draw of the generator lies in [[0, 1)]. *)
Definition in_unit (rng : stream) : Prop := forall n, 0 <= rng n < 1.

(** The speed of a generated pursuer, for the average speed [s]. *)
Definition jittered_speed (s : R) (enc : encoded) : Prop :=
  exists u speed,
    0 <= u < 1 /\
    speed = s * (1 + (u - 0.5) * ZOMBIE_SPEED_VARIANCE) /\
    enc !! "speed" = Some (PyFloat speed) /\
    0.9 * s <= speed <= 1.1 * s.

(** [g'] is [g] with the pursuers [added] appended, each with a jittered
    speed. *)
Definition adds (g g' : Game.t) (added : list encoded) : Prop :=
  Game.average_zombie_speed g' = Game.average_zombie_speed g /\
  Game.zombies g' = Game.zombies g ++ added /\
  Forall (jittered_speed (Game.average_zombie_speed g)) added.

(** A game about to be populated: the owner 111 m south of the
    destination. *)
Definition game_ready : Game.t :=
  Game.mk "p" [PyStr "p"] [player_text (PyFloat 1) (PyFloat 1) "p"] []
    (Some (destination_text (PyFloat 1.001) (PyFloat 1)))
    1 20 true false None.

(** Two games that differ at most in the stored players, and have the same
    located players. *)
Definition same_located (g1 g2 : Game.t) : Prop :=
  Game.set_players [] g1 = Game.set_players [] g2 /\
  Game.LocatedPlayers g1 = Game.LocatedPlayers g2.

(** The same, with equal generators. *)
Definition same_located_w (s1 s2 : Game.t * stream) : Prop :=
  same_located (fst s1) (fst s2) /\ snd s1 = snd s2.

(** [m] maps related states to equal results and related states. *)
Definition respects {S A : Type} (rel : S -> S -> Prop) (m : M S A) : Prop :=
  forall s1 s2, rel s1 s2 ->
    fst (m s1) = fst (m s2) /\ rel (snd (m s1)) (snd (m s2)).


(** [rng] is the stream [rng0] after [lo] draws. *)
Definition at_offset (rng0 : stream) (lo : nat) (rng : stream) : Prop :=
  forall n, rng n = rng0 (lo + n)%nat.



(** ** Predicates and sample states of the further properties *)

(** The location of a decoded entity: unset, or valid with both
    coordinates different from 0. *)
Definition decoded_location (l : location_t) : Prop :=
  l = (None, None) \/
  exists la lo, l = (Some la, Some lo) /\ valid_coordinate la lo /\
                la <> 0 /\ lo <> 0.

(** What a call of [Advance] can change: the texts of the pursuers (not
    their number), and the outcome, which it leaves alone or sets to a win
    of the pursuers. *)
Definition advances (g g' : Game.t) : Prop :=
  Game.owner g' = Game.owner g /\
  Game.player_emails g' = Game.player_emails g /\
  Game.players g' = Game.players g /\
  Game.destination g' = Game.destination g /\
  Game.average_zombie_speed g' = Game.average_zombie_speed g /\
  Game.zombie_density g' = Game.zombie_density g /\
  Game.started g' = Game.started g /\
  length (Game.zombies g') = length (Game.zombies g) /\
  ((Game.done g' = Game.done g /\ Game.humans_won g' = Game.humans_won g) \/
   (Game.done g' = true /\ Game.humans_won g' = Some false)).

(** "Done" comes with a recorded winner. *)
Definition outcome_recorded (g : Game.t) : Prop :=
  Game.done g = true -> Game.humans_won g <> None.

(** [player_emails] lists the emails of [players], in order. *)
Definition emails_in_step (g : Game.t) : Prop :=
  Forall2 (fun (enc : encoded) (e : pyval) => enc !! "email" = Some e)
    (Game.players g) (Game.player_emails g).

(** The position that [l[index] = x] writes in a list of length [n]. *)
Definition position (n : nat) (index : Z) : option nat :=
  if decide (0 <= index < Z.of_nat n)%Z then Some (Z.to_nat index)
  else if decide (- Z.of_nat n <= index < 0)%Z
       then Some (Z.to_nat (Z.of_nat n + index))
       else None.

(** The generator whose draws are all 0. *)
Definition zeros : stream := fun _ => 0.

(** The speed of a pursuer generated on the draw 0. *)
Definition slowest (g : Game.t) : R :=
  Game.average_zombie_speed g * ((0 - 0.5) * ZOMBIE_SPEED_VARIANCE + 1).

(** The player has the email [email]. *)
Definition has_email (email : string) (p : Player.t) : bool :=
  match Player.email p with
  | Some e => email_is e email
  | None => false
  end.

(** The texts before the player of [user]: they decode, to players of
    others. *)
Definition others (user : string) (pre : list encoded) : Prop :=
  Forall (fun enc => exists p,
            Player.init (Some enc) None = Ok p /\ has_email user p = false) pre.

(** A game before its start: one located player, the owner. *)
Definition game_lobby : Game.t :=
  Game.mk "p" [PyStr "p"] [player_text (PyFloat 1) (PyFloat 1) "p"] []
    None 1 20 false false None.

(** [g'] differs from [g] at most in its pursuers. *)
Definition only_zombies (g g' : Game.t) : Prop :=
  Game.set_zombies [] g' = Game.set_zombies [] g.

(** The pursuer at (1, 1) after a step of 5 m towards (2, 1). *)
Definition stepped_north : Zombie.t :=
  Zombie.mk (Some (1 + (2 - 1) * (Rmin (great_circle 1 1 2 1) 5
                                  / great_circle 1 1 2 1)),
             Some (1 + (1 - 1) * (Rmin (great_circle 1 1 2 1) 5
                                  / great_circle 1 1 2 1)))
    (Some 1) (ChaseVal PyNone).

(** * Properties *)

Lemma radians_0 : radians 0 = 0.
Proof. unfold radians; lra. Qed.

Lemma atan2_0_pos (x : R) : 0 < x -> atan2 0 x = 0.
Proof.
  intros Hx. unfold atan2. rewrite decide_True by exact Hx.
  replace (0 / x) with 0 by (field; lra). apply atan_0.
Qed.

Lemma great_circle_a0 (slat slon lat lon : R) :
  haversine_a slat slon lat lon = 0 -> great_circle slat slon lat lon = 0.
Proof.
  intros Ha. unfold great_circle. rewrite Ha.
  rewrite sqrt_0, Rminus_0_r, sqrt_1, atan2_0_pos by lra. lra.
Qed.

Lemma great_circle_same (lat lon : R) : great_circle lat lon lat lon = 0.
Proof.
  apply great_circle_a0. unfold haversine_a.
  replace ((lat - lat) / 2) with 0 by lra.
  replace ((lon - lon) / 2) with 0 by lra.
  rewrite radians_0, sin_0. ring.
Qed.

(* cos(m-h)cos(m+h) + sin^2 h = cos^2 m *)
Lemma cos_cos_mid (p q : R) :
  cos p * cos q + sin ((q - p) / 2) ^ 2 = cos ((p + q) / 2) ^ 2.
Proof.
  set (m := (p + q) / 2). set (h := (q - p) / 2).
  replace p with (m - h) at 1 by (unfold m, h; lra).
  replace q with (m + h) at 1 by (unfold m, h; lra).
  rewrite cos_minus, cos_plus.
  pose proof (sin2_cos2 m) as Hm. pose proof (sin2_cos2 h) as Hh.
  unfold Rsqr in *. nra.
Qed.

Lemma radians_half_diff (p q : R) :
  radians ((q - p) / 2) = (radians q - radians p) / 2.
Proof. unfold radians. lra. Qed.

Lemma sin_sq_le1 x : 0 <= sin x ^ 2 <= 1.
Proof.
  pose proof (sin2_cos2 x) as H. unfold Rsqr in H.
  pose proof (pow2_ge_0 (sin x)). pose proof (pow2_ge_0 (cos x)).
  simpl in *. nra.
Qed.

Lemma haversine_a_range (slat slon lat lon : R) :
  0 <= haversine_a slat slon lat lon <= 1.
Proof.
  unfold haversine_a.
  pose proof (cos_cos_mid (radians slat) (radians lat)) as Hc.
  rewrite <- radians_half_diff in Hc.
  set (s := sin (radians ((lat - slat) / 2))) in *.
  set (t := sin (radians ((lon - slon) / 2))).
  set (c := cos (radians slat) * cos (radians lat)) in *.
  assert (Hs : 0 <= s ^ 2 <= 1) by apply sin_sq_le1.
  assert (Ht : 0 <= t ^ 2 <= 1) by apply sin_sq_le1.
  set (m := cos ((radians slat + radians lat) / 2)) in *.
  assert (Hm : 0 <= m ^ 2 <= 1).
  { pose proof (sin2_cos2 ((radians slat + radians lat) / 2)) as H. unfold Rsqr in H.
    fold m in H. pose proof (pow2_ge_0 m).
    pose proof (pow2_ge_0 (sin ((radians slat + radians lat) / 2))). simpl in *. nra. }
  replace (cos (radians slat) * cos (radians lat) * t ^ 2) with (c * t ^ 2) by reflexivity.
  nra.
Qed.

Lemma atan_pos (x : R) : 0 < x -> 0 < atan x.
Proof. intros Hx. rewrite <- atan_0. apply atan_increasing. exact Hx. Qed.

Lemma atan2_nonneg (y x : R) : 0 <= y -> 0 <= x -> 0 <= atan2 y x.
Proof.
  intros Hy Hx. unfold atan2. pose proof PI_RGT_0.
  repeat case_decide; try lra.
  destruct (Req_dec_T y 0) as [->|Hne].
  - replace (0 / x) with 0 by (field; lra). rewrite atan_0. lra.
  - left. apply atan_pos. apply Rdiv_lt_0_compat; lra.
Qed.

Lemma atan2_eq0 (y x : R) : 0 <= y -> 0 <= x -> atan2 y x = 0 -> y = 0.
Proof.
  intros Hy Hx. unfold atan2. pose proof PI_RGT_0.
  repeat case_decide; try lra.
  intros Ha. apply atan_eq0 in Ha.
  apply (Rmult_eq_compat_r x) in Ha. field_simplify in Ha; lra.
Qed.

Lemma great_circle_nonneg (slat slon lat lon : R) :
  0 <= great_circle slat slon lat lon.
Proof.
  unfold great_circle.
  pose proof (atan2_nonneg (sqrt (haversine_a slat slon lat lon))
                (sqrt (1 - haversine_a slat slon lat lon))
                (sqrt_pos _) (sqrt_pos _)).
  unfold RADIUS_OF_EARTH_METERS. nra.
Qed.

Lemma great_circle_eq0 (slat slon lat lon : R) :
  great_circle slat slon lat lon = 0 <-> haversine_a slat slon lat lon = 0.
Proof.
  split; [|apply great_circle_a0].
  unfold great_circle. intros H0.
  pose proof (haversine_a_range slat slon lat lon) as [Ha0 Ha1].
  assert (Hat : atan2 (sqrt (haversine_a slat slon lat lon))
                  (sqrt (1 - haversine_a slat slon lat lon)) = 0).
  { unfold RADIUS_OF_EARTH_METERS in H0. lra. }
  apply atan2_eq0 in Hat; try apply sqrt_pos.
  apply sqrt_eq_0 in Hat; lra.
Qed.

Lemma atan2_abs_sin_cos (x : R) :
  - (PI / 2) <= x <= PI / 2 -> atan2 (Rabs (sin x)) (cos x) = Rabs x.
Proof.
  intros Hx. unfold atan2. pose proof PI_RGT_0.
  destruct (Rle_lt_or_eq_dec _ _ (proj2 Hx)) as [Hlt|Heq].
  - destruct (Rle_lt_or_eq_dec _ _ (proj1 Hx)) as [Hgt|Heq].
    + assert (Hc : 0 < cos x) by (apply cos_gt_0; lra).
      rewrite decide_True by exact Hc.
      destruct (Rle_dec 0 x) as [Hpos|Hneg].
      * rewrite (Rabs_pos_eq x) by lra.
        rewrite Rabs_pos_eq.
        { change (sin x / cos x) with (tan x). apply atan_tan. lra. }
        destruct (Req_dec_T x 0) as [->|]; [rewrite sin_0; lra|].
        left. apply sin_gt_0; lra.
      * rewrite (Rabs_left x) by lra.
        rewrite Rabs_left by (apply sin_lt_0_var; lra).
        replace (- sin x / cos x) with (tan (- x)).
        { apply atan_tan. lra. }
        unfold tan. rewrite sin_neg, cos_neg. reflexivity.
    + subst x. rewrite cos_neg, sin_neg, cos_PI2, sin_PI2.
      rewrite decide_False by lra. rewrite decide_False by lra.
      rewrite Rabs_Ropp, Rabs_R1. rewrite decide_True by lra.
      rewrite Rabs_left by lra. lra.
  - subst x. rewrite cos_PI2, sin_PI2.
    rewrite decide_False by lra. rewrite decide_False by lra.
    rewrite Rabs_R1. rewrite decide_True by lra.
    rewrite Rabs_pos_eq by lra. reflexivity.
Qed.

Lemma great_circle_meridian (lat1 lat2 lon : R) :
  Rabs (lat2 - lat1) <= 180 ->
  great_circle lat1 lon lat2 lon =
  RADIUS_OF_EARTH_METERS * (PI / 180) * Rabs (lat2 - lat1).
Proof.
  intros Hd. unfold great_circle, haversine_a.
  replace ((lon - lon) / 2) with 0 by lra.
  rewrite radians_0, sin_0.
  set (x := radians ((lat2 - lat1) / 2)).
  assert (Hx : - (PI / 2) <= x <= PI / 2).
  { unfold x, radians. pose proof PI_RGT_0.
    unfold Rabs in Hd. destruct (Rcase_abs (lat2 - lat1)); split; nra. }
  replace (sin x ^ 2 + cos (radians lat1) * cos (radians lat2) * 0 ^ 2)
    with (Rsqr (sin x)) by (unfold Rsqr; ring).
  rewrite sqrt_Rsqr_abs.
  replace (1 - Rsqr (sin x)) with (Rsqr (cos x))
    by (pose proof (sin2_cos2 x); lra).
  rewrite sqrt_Rsqr_abs.
  assert (Hc : 0 <= cos x) by (apply cos_ge_0; lra).
  rewrite (Rabs_pos_eq (cos x)) by exact Hc.
  rewrite atan2_abs_sin_cos by exact Hx.
  unfold x, radians. pose proof PI_RGT_0.
  replace ((lat2 - lat1) / 2 * (PI / 180)) with ((lat2 - lat1) * (PI / 360)) by lra.
  rewrite Rabs_mult. rewrite (Rabs_pos_eq (PI / 360)) by lra. lra.
Qed.

Lemma tiny_ne0 : 0 <> 1e-200.
Proof. lra. Qed.
Lemma tiny_rng : -180 <= 1e-200 <= 180.
Proof. lra. Qed.

Lemma sin_eq0_pi (x : R) :
  - PI <= x <= PI -> sin x = 0 -> x = 0 \/ x = PI \/ x = - PI.
Proof.
  intros Hx Hs. pose proof PI_RGT_0.
  destruct (Rle_dec 0 x) as [Hpos|Hneg].
  - destruct (sin_eq_O_2PI_0 x) as [?|[?|?]]; auto; lra.
  - destruct (sin_eq_O_2PI_0 (- x)) as [?|[?|?]]; try lra.
    rewrite sin_neg; lra.
Qed.

Lemma sin_eq0_half (x : R) :
  - (PI / 2) <= x <= PI / 2 -> sin x = 0 -> x = 0.
Proof.
  intros Hx Hs. pose proof PI_RGT_0.
  destruct (sin_eq0_pi x) as [?|[?|?]]; auto; lra.
Qed.

Lemma cos_eq0_half (x : R) :
  - (PI / 2) <= x <= PI / 2 -> cos x = 0 -> x = PI / 2 \/ x = - (PI / 2).
Proof.
  intros Hx Hc.
  destruct (Rle_lt_or_eq_dec _ _ (proj2 Hx)) as [Hlt|Heq]; [|auto].
  destruct (Rle_lt_or_eq_dec _ _ (proj1 Hx)) as [Hgt|Heq]; [|auto].
  pose proof (cos_gt_0 x Hgt Hlt). lra.
Qed.

Lemma haversine_a_eq0 (la1 lo1 la2 lo2 : R) :
  valid_coordinate la1 lo1 -> valid_coordinate la2 lo2 ->
  haversine_a la1 lo1 la2 lo2 = 0 <->
  la1 = la2 /\ (lo1 = lo2 \/ Rabs la1 = 90 \/ Rabs (lo2 - lo1) = 360).
Proof.
  intros [Hla1 Hlo1] [Hla2 Hlo2]. unfold haversine_a. pose proof PI_RGT_0 as Hpi.
  assert (Hc1 : 0 <= cos (radians la1)) by (apply cos_ge_0; unfold radians; nra).
  assert (Hc2 : 0 <= cos (radians la2)) by (apply cos_ge_0; unfold radians; nra).
  set (s := sin (radians ((la2 - la1) / 2))).
  set (u := sin (radians ((lo2 - lo1) / 2))).
  pose proof (pow2_ge_0 s) as Hs. pose proof (pow2_ge_0 u) as Hu.
  split.
  - intros Ha.
    assert (Hcu : 0 <= cos (radians la1) * cos (radians la2) * u ^ 2).
    { apply Rmult_le_pos; [apply Rmult_le_pos|]; assumption. }
    assert (Hs0 : s = 0).
    { assert (s ^ 2 = 0) by lra. nra. }
    assert (Hlat : la1 = la2).
    { apply sin_eq0_half in Hs0; unfold radians in *; nra. }
    split; [exact Hlat|]. subst la2.
    assert (Hprod : cos (radians la1) * cos (radians la1) * u ^ 2 = 0) by lra.
    apply Rmult_integral in Hprod as [Hcc|Hu0].
    + right; left. apply Rmult_integral in Hcc.
      assert (Hc0 : cos (radians la1) = 0) by (destruct Hcc; assumption).
      apply cos_eq0_half in Hc0; [|unfold radians; nra].
      unfold radians in Hc0.
      destruct Hc0 as [Hc0|Hc0].
      * assert (la1 = 90) by nra. subst. apply Rabs_pos_eq. lra.
      * assert (la1 = -90) by nra. subst. rewrite Rabs_left; lra.
    + assert (Hu1 : u = 0) by nra.
      apply sin_eq0_pi in Hu1; [|unfold radians; nra].
      unfold radians in Hu1. destruct Hu1 as [Hu1|[Hu1|Hu1]].
      * left. nra.
      * right; right. assert (lo2 - lo1 = 360) by nra.
        rewrite Rabs_pos_eq; lra.
      * right; right. assert (lo2 - lo1 = -360) by nra.
        rewrite Rabs_left; lra.
  - intros [Hlat Hcase]. subst la2.
    assert (Hs0 : s = 0).
    { unfold s. replace ((la1 - la1) / 2) with 0 by lra.
      rewrite radians_0. apply sin_0. }
    rewrite Hs0.
    destruct Hcase as [Hlo|[Hpole|Hanti]].
    + subst lo2. unfold u. replace ((lo1 - lo1) / 2) with 0 by lra.
      rewrite radians_0, sin_0. ring.
    + assert (Hc0 : cos (radians la1) = 0).
      { unfold Rabs in Hpole. destruct (Rcase_abs la1).
        - replace la1 with (-90) by lra. unfold radians.
          replace (-90 * (PI / 180)) with (- (PI / 2)) by lra.
          rewrite cos_neg. apply cos_PI2.
        - replace la1 with 90 by lra. unfold radians.
          replace (90 * (PI / 180)) with (PI / 2) by lra. apply cos_PI2. }
      rewrite Hc0. ring.
    + assert (Hu0 : u = 0).
      { unfold u, radians. unfold Rabs in Hanti. destruct (Rcase_abs (lo2 - lo1)).
        - replace ((lo2 - lo1) / 2 * (PI / 180)) with (- PI) by nra.
          rewrite sin_neg, sin_PI. lra.
        - replace ((lo2 - lo1) / 2 * (PI / 180)) with PI by nra. apply sin_PI. }
      rewrite Hu0. ring.
Qed.

Lemma SetLocation_valid {A : Type} `{IsEntity A} (lat lon : R) (self : A) :
  valid_coordinate lat lon ->
  Entity.SetLocation (PyFloat lat) (PyFloat lon) self =
  Ok (with_location (Some lat, Some lon) self).
Proof.
  intros [Hlat Hlon]. unfold Entity.SetLocation.
  rewrite !decide_False by lra. reflexivity.
Qed.

Lemma truthy_float (x : R) : x <> 0 -> truthy (PyFloat x) = true.
Proof. intros Hx. simpl. apply bool_decide_eq_true_2. exact Hx. Qed.

Lemma truthy_float_0 : truthy (PyFloat 0) = false.
Proof. simpl. apply bool_decide_eq_false_2. intros Hx. apply Hx. reflexivity. Qed.

Lemma Entity_FromString_located {A : Type} `{IsEntity A}
    (self : A) (enc : gmap string pyval) (lat lon : R) :
  enc !! "lat" = Some (PyFloat lat) -> enc !! "lon" = Some (PyFloat lon) ->
  valid_coordinate lat lon -> lat <> 0 -> lon <> 0 ->
  Entity.FromString self enc = Ok (with_location (Some lat, Some lon) self, enc).
Proof.
  intros Hla Hlo Hv Hlat Hlon. unfold Entity.FromString, json_loads, getitem.
  rewrite Hla. cbn [rbind]. rewrite (truthy_float _ Hlat).
  rewrite Hlo. cbn [rbind]. rewrite (truthy_float _ Hlon).
  rewrite SetLocation_valid by exact Hv. reflexivity.
Qed.

Lemma Entity_FromString_lat0 {A : Type} `{IsEntity A}
    (self : A) (enc : gmap string pyval) :
  enc !! "lat" = Some (PyFloat 0) ->
  Entity.FromString self enc = Ok (self, enc).
Proof.
  intros Hla. unfold Entity.FromString, json_loads, getitem.
  rewrite Hla. cbn [rbind]. rewrite truthy_float_0. reflexivity.
Qed.

Lemma Entity_FromString_lon0 {A : Type} `{IsEntity A}
    (self : A) (enc : gmap string pyval) (v : pyval) :
  enc !! "lat" = Some v -> enc !! "lon" = Some (PyFloat 0) ->
  Entity.FromString self enc = Ok (self, enc).
Proof.
  intros Hla Hlo. unfold Entity.FromString, json_loads, getitem.
  rewrite Hla. cbn [rbind]. destruct (truthy v); [|reflexivity].
  rewrite Hlo. cbn [rbind]. rewrite truthy_float_0. reflexivity.
Qed.

Ltac lookups :=
  repeat (rewrite lookup_insert_eq || (rewrite lookup_insert_ne by done)
          || rewrite lookup_empty).

Lemma Player_ToString_text (l : location_t) (e : string) :
  Player.ToString (Player.mk l (Some (PyStr e))) =
  Ok (player_text (of_float (fst l)) (of_float (snd l)) e).
Proof. reflexivity. Qed.

Lemma Player_init_text (lat lon : R) (e : string) :
  valid_coordinate lat lon -> lat <> 0 -> lon <> 0 ->
  Player.init (Some (player_text (PyFloat lat) (PyFloat lon) e)) None =
  Ok (Player.mk (Some lat, Some lon) (Some (PyStr e))).
Proof.
  intros Hv Hlat Hlon. unfold Player.init, Player.FromString.
  rewrite (Entity_FromString_located (A:=Player.t) _ _ lat lon)
    by (assumption || (unfold player_text; lookups; reflexivity)).
  cbn [rbind fst snd]. unfold getitem, player_text. lookups. reflexivity.
Qed.

Lemma Zombie_ToString_text (l : location_t) (s : R) :
  Zombie.ToString (Zombie.mk l (Some s) (ChaseVal PyNone)) =
  Ok (zombie_text (of_float (fst l)) (of_float (snd l)) s).
Proof. reflexivity. Qed.

Lemma Zombie_init_text (lat lon s : R) :
  valid_coordinate lat lon -> lat <> 0 -> lon <> 0 ->
  Zombie.init (Some (zombie_text (PyFloat lat) (PyFloat lon) s)) None (ChaseVal PyNone) =
  Ok (Zombie.mk (Some lat, Some lon) (Some s) (ChaseVal PyNone)).
Proof.
  intros Hv Hlat Hlon. unfold Zombie.init, Zombie.FromString.
  rewrite (Entity_FromString_located (A:=Zombie.t) _ _ lat lon)
    by (assumption || (unfold zombie_text; lookups; reflexivity)).
  cbn [rbind fst snd]. unfold getitem, zombie_text. lookups.
  cbn [rbind float]. lookups. reflexivity.
Qed.




Lemma PI_gt_3 : 3 < PI.
Proof. pose proof PI2_3_2. lra. Qed.

Lemma up_pos (x : R) : 0 < x -> exists n, Z.to_nat (up x) = S n.
Proof.
  intros Hx. destruct (archimed x) as [Hup _].
  assert (0 < up x)%Z by (apply lt_IZR; lra).
  exists (Z.to_nat (up x - 1)). lia.
Qed.

(** C6.  [SetPlayer] and [SetZombie] with an index at or beyond the length
    of the list raise [ModelStateError] and leave the game as it was. *)
Theorem Set_out_of_range (g : Game.t) (ip iz : Z)
    (player : Player.t) (zombie : Zombie.t) :
  (Z.of_nat (length (Game.players g)) <= ip)%Z ->
  (Z.of_nat (length (Game.zombies g)) <= iz)%Z ->
  Game.SetPlayer ip player g = (Raise ModelStateError, g) /\
  Game.SetZombie iz zombie g = (Raise ModelStateError, g).
Proof.
  intros Hp Hz. unfold Game.SetPlayer, Game.SetZombie, mbind, gets, mraise.
  rewrite !decide_True by lia. split; reflexivity.
Qed.

Lemma ComputeChasing_empty (self : Zombie.t) :
  Zombie.ComputeChasing self [] = Raise UnboundLocalError.
Proof. reflexivity. Qed.

(** C3 is violated: advancing a pursuer for a positive time with no
    located player raises [UnboundLocalError], out of [ComputeChasing]
    reading its loop variable. *)
Theorem Advance_no_located_player_raises (seconds s : R) (self : Zombie.t)
    (rng : stream) :
  0 < seconds -> Zombie.speed self = Some s ->
  Zombie.Advance seconds [] self rng = Raise UnboundLocalError.
Proof.
  intros Hsec Hs. unfold Zombie.Advance. cbn [collect rbind].
  destruct (up_pos seconds Hsec) as [n ->]. cbn [Zombie.Advance_loop].
  rewrite decide_True by exact Hsec.
  unfold Zombie.Advance_body, Zombie.Speed. rewrite Hs. cbn [rbind].
  rewrite ComputeChasing_empty. reflexivity.
Qed.

Lemma Advance_no_located_player_raises_witness :
  Zombie.Advance 1 [] (zombie_at 1 1 1) (fun _ => 0) = Raise UnboundLocalError.
Proof.
  apply (Advance_no_located_player_raises 1 1).
  - lra.
  - reflexivity.
Defined.

Lemma ComputeChasing_loop_last (self : Zombie.t) (ps : list Player.t)
    (q : Player.t) (md : option R) (mp pl : option Player.t)
    (r : option R * option Player.t * option Player.t) :
  Zombie.ComputeChasing_loop self (ps ++ [q]) md mp pl = Ok r ->
  snd r = Some q.
Proof.
  revert md mp pl. induction ps as [|p ps IH]; intros md mp pl; cbn.
  - destruct (Entity.DistanceFrom self q); cbn; [|discriminate].
    destruct md as [m|]; [destruct (bool_decide (a < m))|];
      intros [= <-]; reflexivity.
  - destruct (Entity.DistanceFrom self p); cbn; [|discriminate].
    destruct md as [m|]; [destruct (bool_decide (a < m))|]; apply IH.
Qed.

Lemma ComputeChasing_last_or_none (self self' : Zombie.t)
    (ps : list Player.t) (q : Player.t) :
  Zombie.ComputeChasing self (ps ++ [q]) = Ok self' ->
  Zombie.chasing self' = ChasePlayer q \/ Zombie.chasing self' = ChaseVal PyNone.
Proof.
  unfold Zombie.ComputeChasing.
  destruct (Zombie.ComputeChasing_loop self (ps ++ [q]) None None None)
    as [[[md mp] pl]|e] eqn:Hloop; cbn [rbind]; [|discriminate].
  apply ComputeChasing_loop_last in Hloop. cbn in Hloop. subst pl.
  destruct (Zombie.in_vision md); intros [= <-]; cbn; auto.
Qed.

Lemma DistanceFrom_zp (zlat zlon : R) (sp : option R) (c : chasing_t) (plat plon : R) (e : option pyval) :
  Entity.DistanceFrom (Zombie.mk (Some zlat, Some zlon) sp c)
    (Player.mk (Some plat, Some plon) e) = Ok (great_circle zlat zlon plat plon).
Proof. reflexivity. Qed.

Lemma earth_degree_bounds : 106301 < earth_degree < 141736.
Proof.
  unfold earth_degree, RADIUS_OF_EARTH_METERS.
  pose proof PI_gt_3. pose proof PI_4. lra.
Qed.

Lemma great_circle_north (lat1 lat2 lon : R) :
  lat1 <= lat2 -> lat2 - lat1 <= 180 ->
  great_circle lat1 lon lat2 lon = earth_degree * (lat2 - lat1).
Proof.
  intros H1 H2. rewrite great_circle_meridian by (rewrite Rabs_pos_eq; lra).
  rewrite Rabs_pos_eq by lra. reflexivity.
Qed.

(** C2 is violated: with a player at distance 0 followed by one more than
    200 m away, the loop finds the first as nearest, and [ComputeChasing]
    sets [chasing] to the second, the last of the iteration. *)
Theorem ComputeChasing_targets_last :
  let z := zombie_at 1 1 1 in
  let near := player_at 1 1 "near" in
  let far := player_at 2 1 "far" in
  Entity.DistanceFrom z near = Ok 0 /\
  (exists d, Entity.DistanceFrom z far = Ok d /\ ZOMBIE_VISION_DISTANCE_METERS < d) /\
  Zombie.ComputeChasing_loop z [near; far] None None None =
    Ok (Some 0, Some near, Some far) /\
  Zombie.ComputeChasing z [near; far] =
    Ok (Zombie.mk (Some 1, Some 1) (Some 1) (ChasePlayer far)).
Proof.
  intros z near far. pose proof earth_degree_bounds as HK.
  assert (Hnear : Entity.DistanceFrom z near = Ok 0).
  { unfold z, near, zombie_at, player_at. rewrite DistanceFrom_zp.
    rewrite great_circle_same. reflexivity. }
  assert (Hfar : Entity.DistanceFrom z far = Ok earth_degree).
  { unfold z, far, zombie_at, player_at. rewrite DistanceFrom_zp.
    rewrite great_circle_north by lra. f_equal. lra. }
  assert (Hloop : Zombie.ComputeChasing_loop z [near; far] None None None =
                  Ok (Some 0, Some near, Some far)).
  { cbn [Zombie.ComputeChasing_loop]. rewrite Hnear, Hfar. cbn [rbind].
    rewrite bool_decide_eq_false_2 by lra. reflexivity. }
  split; [exact Hnear|]. split.
  - exists earth_degree. split; [exact Hfar|].
    unfold ZOMBIE_VISION_DISTANCE_METERS. lra.
  - split; [exact Hloop|]. unfold Zombie.ComputeChasing. rewrite Hloop.
    cbn [rbind]. unfold Zombie.in_vision, ZOMBIE_VISION_DISTANCE_METERS.
    rewrite bool_decide_eq_true_2 by lra. reflexivity.
Qed.

Lemma up_2 : up 2 = 3%Z.
Proof. symmetry. apply tech_up; simpl; lra. Qed.

Lemma DistanceFrom_player_at (zlat zlon : R) (sp : option R) (c : chasing_t)
    (plat plon : R) (e : string) :
  Entity.DistanceFrom (Zombie.mk (Some zlat, Some zlon) sp c)
    (player_at plat plon e) = Ok (great_circle zlat zlon plat plon).
Proof. reflexivity. Qed.

Lemma Advance_body_north (seconds sp lat plat lon : R) (c : chasing_t)
    (e : string) (rng : stream) :
  valid_coordinate lat lon -> valid_coordinate plat lon -> lat < plat ->
  earth_degree * (plat - lat) < ZOMBIE_VISION_DISTANCE_METERS ->
  0 <= seconds * sp <= earth_degree * (plat - lat) ->
  Zombie.Advance_body seconds [player_at plat lon e]
    (Zombie.mk (Some lat, Some lon) (Some sp) c) rng =
  Ok (Zombie.mk (Some (lat + seconds * sp / earth_degree), Some lon) (Some sp)
        (ChasePlayer (player_at plat lon e)), rng).
Proof.
  intros [Hlat Hlon] [Hplat _] Hlt Hvis Hb.
  pose proof earth_degree_bounds as HK.
  set (D := earth_degree * (plat - lat)) in *.
  assert (HD : 0 < D) by (unfold D; nra).
  assert (Hgc : great_circle lat lon plat lon = D).
  { apply great_circle_north; lra. }
  unfold Zombie.Advance_body, Zombie.Speed. cbn [Zombie.speed rbind].
  unfold Zombie.ComputeChasing. cbn [Zombie.ComputeChasing_loop].
  rewrite DistanceFrom_player_at, Hgc. cbn [rbind].
  unfold Zombie.in_vision. rewrite bool_decide_eq_true_2 by exact Hvis.
  cbn [rbind Zombie.loc Zombie.speed Zombie.chasing chasing_truthy].
  rewrite DistanceFrom_player_at, Hgc. cbn [rbind].
  unfold Zombie.MoveTowardsLatLon, Entity.DistanceFromLatLon.
  cbn [Entity.Lat Entity.Lon location Zombie.entity Player.entity player_at
       Zombie.loc Player.loc fst snd].
  rewrite Hgc. cbn [rbind]. rewrite decide_True by exact HD.
  rewrite Rmin_right by lra.
  assert (Hnew : lat + (plat - lat) * (seconds * sp / D)
                 = lat + seconds * sp / earth_degree).
  { unfold D. field. lra. }
  assert (Hnew_le : seconds * sp / earth_degree <= plat - lat).
  { apply (Rmult_le_reg_l earth_degree); [lra|].
    replace (earth_degree * (seconds * sp / earth_degree)) with (seconds * sp)
      by (field; lra).
    fold D. lra. }
  assert (Hnew_ge : 0 <= seconds * sp / earth_degree).
  { apply Rmult_le_pos; [lra|]. left. apply Rinv_0_lt_compat. lra. }
  rewrite Hnew. replace (lon + (lon - lon) * (seconds * sp / D)) with lon by lra.
  rewrite (SetLocation_valid (A:=Zombie.t)) by (unfold valid_coordinate; lra).
  reflexivity.
Qed.

(** C4 is violated: a pursuer of speed 1 m/s, 111 m south of its target and
    advanced by 2 seconds, moves 2 m in the first pass of the loop (the
    time left times the speed, not one second of movement) and 3 m in
    all. *)
Theorem Advance_step_budget (rng : stream) :
  let z := zombie_at 1 1 1 in
  let p := player_at 1.001 1 "p" in
  exists (d0 : R) (z1 z2 : Zombie.t),
    Entity.DistanceFrom z p = Ok d0 /\
    Zombie.Advance_body 2 [p] z rng = Ok (z1, rng) /\
    Entity.DistanceFrom z1 p = Ok (d0 - 2) /\
    Zombie.Advance 2 [Ok p] z rng = Ok (z2, rng) /\
    Entity.DistanceFrom z2 p = Ok (d0 - 3).
Proof.
  intros z p. pose proof earth_degree_bounds as HK.
  set (z1 := Zombie.mk (Some (1 + 2 * 1 / earth_degree), Some 1) (Some 1)
               (ChasePlayer p)).
  set (z2 := Zombie.mk (Some (1 + 2 * 1 / earth_degree + 1 * 1 / earth_degree),
                        Some 1) (Some 1) (ChasePlayer p)).
  assert (Hinv : 0 < / earth_degree < 1 / 106301).
  { split; [apply Rinv_0_lt_compat; lra|].
    unfold Rdiv. rewrite Rmult_1_l. apply Rinv_lt_contravar; nra. }
  assert (HKi : earth_degree * (2 * 1 / earth_degree) = 2) by (field; lra).
  assert (HKj : earth_degree * (1 * 1 / earth_degree) = 1) by (field; lra).
  assert (H1 : Zombie.Advance_body 2 [p] z rng = Ok (z1, rng)).
  { apply Advance_body_north; unfold valid_coordinate,
      ZOMBIE_VISION_DISTANCE_METERS; lra. }
  assert (H2 : Zombie.Advance_body (2 - 1) [p] z1 rng = Ok (z2, rng)).
  { replace (2 - 1) with 1 by lra.
    assert (Hd : earth_degree * (1.001 - (1 + 2 * 1 / earth_degree))
                 = earth_degree * 0.001 - 2) by lra.
    apply Advance_body_north; rewrite ?Hd;
      unfold valid_coordinate, ZOMBIE_VISION_DISTANCE_METERS, Rdiv; nra. }
  exists (earth_degree * 0.001), z1, z2.
  split.
  { unfold z, p, zombie_at, player_at. rewrite DistanceFrom_zp.
    rewrite great_circle_north by lra. f_equal. lra. }
  split; [exact H1|]. split.
  { unfold z1, p, player_at. rewrite DistanceFrom_zp.
    rewrite great_circle_north by (unfold Rdiv; nra). f_equal. lra. }
  split.
  { unfold Zombie.Advance. cbn [collect rbind]. rewrite up_2.
    change (Z.to_nat 3) with 3%nat. cbn [Zombie.Advance_loop].
    rewrite decide_True by lra. rewrite H1. cbn [rbind fst snd].
    rewrite decide_True by lra. rewrite H2. cbn [rbind fst snd].
    rewrite decide_False by lra. reflexivity. }
  unfold z2, p, player_at. rewrite DistanceFrom_zp.
  rewrite great_circle_north by (unfold Rdiv; nra). f_equal. lra.
Qed.

Lemma Destination_init_text (lat lon : R) :
  valid_coordinate lat lon -> lat <> 0 -> lon <> 0 ->
  Destination.init (Some (destination_text (PyFloat lat) (PyFloat lon))) =
  Ok (Destination.mk (Some lat, Some lon)).
Proof.
  intros Hv Hlat Hlon. unfold Destination.init.
  rewrite (Entity_FromString_located (A:=Destination.t) _ _ lat lon)
    by (assumption || (unfold destination_text; lookups; reflexivity)).
  reflexivity.
Qed.

Lemma located_player_at (lat lon : R) (e : string) :
  lat <> 0 -> lon <> 0 -> Game.located (player_at lat lon e) = true.
Proof.
  intros Hlat Hlon. unfold Game.located, player_at. cbn.
  rewrite !bool_decide_eq_true_2 by assumption. reflexivity.
Qed.

Lemma valid_1_1 : valid_coordinate 1 1.
Proof. unfold valid_coordinate; lra. Qed.

Lemma valid_2_1 : valid_coordinate 2 1.
Proof. unfold valid_coordinate; lra. Qed.

Lemma one_ne_0 : 1 <> 0.
Proof. lra. Qed.

Lemma two_ne_0 : 2 <> 0.
Proof. lra. Qed.

(** C1 is violated: in a started game whose only player stands on the
    destination, [Advance] raises [AttributeError] where it should fire the
    destination trigger, and the game is left not done. *)
Theorem Advance_at_destination_raises (seconds : R) (rng : stream) :
  Game.started game_at_destination = true /\
  Game.LocatedPlayers game_at_destination = [Ok (player_at 1 1 "p")] /\
  Game.Destination game_at_destination = Ok (Destination.mk (Some 1, Some 1)) /\
  Entity.DistanceFrom (player_at 1 1 "p") (Destination.mk (Some 1, Some 1)) = Ok 0 /\
  Game.Advance seconds (game_at_destination, rng) =
    (Raise AttributeError, (game_at_destination, rng)).
Proof.
  assert (Hps : Game.LocatedPlayers game_at_destination = [Ok (player_at 1 1 "p")]).
  { unfold Game.LocatedPlayers, Game.Players, game_at_destination.
    cbn [Game.players map].
    rewrite Player_init_text by (apply valid_1_1 || apply one_ne_0).
    cbn [List.filter]. fold (player_at 1 1 "p").
    rewrite located_player_at by apply one_ne_0. reflexivity. }
  assert (Hd : Game.Destination game_at_destination =
               Ok (Destination.mk (Some 1, Some 1))).
  { unfold Game.Destination, game_at_destination. cbn [Game.destination].
    apply Destination_init_text; apply valid_1_1 || apply one_ne_0. }
  assert (Hdist : Entity.DistanceFrom (player_at 1 1 "p")
                    (Destination.mk (Some 1, Some 1)) = Ok 0).
  { unfold Entity.DistanceFrom, Entity.DistanceFromLatLon. cbn.
    rewrite great_circle_same. reflexivity. }
  split; [reflexivity|]. split; [exact Hps|]. split; [exact Hd|].
  split; [exact Hdist|].
  unfold Game.Advance, mbind, gets, on_fst. cbn [fst snd].
  change (Game.Zombies game_at_destination) with (@nil (result Zombie.t)).
  cbn [Game.Advance_zombies mret fst snd]. rewrite Hps.
  cbn [Game.Trigger_players]. unfold mbind, lift. rewrite Hd, Hdist.
  unfold TRIGGER_DISTANCE_METERS. rewrite decide_True by lra.
  reflexivity.
Qed.

Lemma same_status_refl (g : Game.t) : same_status g g.
Proof. repeat split. Qed.

Lemma same_status_trans (g1 g2 g3 : Game.t) :
  same_status g1 g2 -> same_status g2 g3 -> same_status g1 g3.
Proof.
  intros (H1 & H2 & H3 & H4) (H1' & H2' & H3' & H4').
  repeat split; congruence.
Qed.

Lemma SetZombie_status (i : Z) (z : Zombie.t) (g g' : Game.t) (r : result unit) :
  Game.SetZombie i z g = (r, g') -> same_status g g'.
Proof.
  unfold Game.SetZombie, mbind, gets, mraise, lift, modify.
  case_decide; [intros [= _ <-]; apply same_status_refl|].
  destruct (Zombie.ToString z); [|intros [= _ <-]; apply same_status_refl].
  destruct (list_setitem (Game.zombies g) i a);
    intros [= _ <-]; repeat split.
Qed.

Lemma Advance_zombies_status (s : R) (zs : list (result Zombie.t)) :
  forall (i : nat) (g : Game.t) (rng : stream) (r : result unit)
         (g' : Game.t) (rng' : stream),
    Game.Advance_zombies s i zs (g, rng) = (r, (g', rng')) ->
    same_status g g'.
Proof.
  induction zs as [|z zs IH]; intros i g rng r g' rng'.
  - cbn. intros [= _ <- _]. apply same_status_refl.
  - cbn [Game.Advance_zombies]. unfold mbind at 1. unfold lift at 1.
    destruct z as [zombie|e]; [|intros [= _ <- _]; apply same_status_refl].
    unfold mbind at 1. cbn [fst snd].
    destruct (Zombie.Advance s (Game.LocatedPlayers g) zombie rng)
      as [[zombie' rng1]|e]; [|intros [= _ <- _]; apply same_status_refl].
    unfold mbind at 1. unfold on_fst at 1. cbn [fst snd].
    destruct (Game.SetZombie (Z.of_nat i) zombie' g) as [r1 g1] eqn:Hset.
    apply SetZombie_status in Hset.
    destruct r1; [|intros [= _ <- _]; exact Hset].
    intros Hrest. apply IH in Hrest.
    eapply same_status_trans; eassumption.
Qed.

Lemma Trigger_zombies_ok (player : Player.t) (zs : list (result Zombie.t)) :
  forall (g g' : Game.t) (u : unit),
    Game.Trigger_zombies player zs g = (Ok u, g') ->
    g' = if existsb (fires player) zs then Game.set_over false g else g.
Proof.
  induction zs as [|z zs IH]; intros g g' u.
  - cbn. intros [= _ <-]. reflexivity.
  - cbn [Game.Trigger_zombies existsb]. unfold mbind at 1. unfold lift at 1.
    destruct z as [zombie|e]; [|discriminate].
    unfold mbind at 1. unfold lift at 1. cbn [fires].
    destruct (Entity.DistanceFrom player zombie) as [d|e]; [|discriminate].
    unfold mbind at 1. case_decide as Hd.
    + rewrite (bool_decide_eq_true_2 _ Hd). cbn [orb].
      unfold Game.Zombie_Trigger, Game.GameOver, modify.
      intros Hrest. apply IH in Hrest. rewrite Hrest.
      destruct (existsb (fires player) zs); reflexivity.
    + rewrite (bool_decide_eq_false_2 _ Hd). cbn [orb]. unfold mret.
      apply IH.
Qed.

Lemma Trigger_players_ok (ps : list (result Player.t)) :
  forall (g g' : Game.t) (u : unit),
    Game.Trigger_players ps g = (Ok u, g') ->
    g' = if existsb (player_fires g) ps then Game.set_over false g else g.
Proof.
  induction ps as [|p ps IH]; intros g g' u.
  - cbn. intros [= _ <-]. reflexivity.
  - cbn [Game.Trigger_players existsb]. unfold mbind at 1. unfold lift at 1.
    destruct p as [player|e]; [|discriminate].
    unfold mbind at 1.
    destruct (Game.Destination g) as [dest|e]; [|discriminate].
    unfold mbind at 1. unfold lift at 1.
    destruct (Entity.DistanceFrom player dest) as [d|e]; [|discriminate].
    unfold mbind at 1. case_decide as Hd;
      [unfold Game.destination_attr_Trigger, mraise; discriminate|].
    unfold mret at 1. unfold mbind at 1. unfold gets at 1.
    unfold mbind at 1.
    destruct (Game.Trigger_zombies player (Game.Zombies g) g) as [r1 g1] eqn:Htz.
    destruct r1 as [u1|e]; [|discriminate].
    apply Trigger_zombies_ok in Htz. cbn [player_fires].
    intros Hrest. apply IH in Hrest. rewrite Hrest, Htz.
    destruct (existsb (fires player) (Game.Zombies g)); cbn [orb].
    + change (player_fires (Game.set_over false g)) with (player_fires g).
      destruct (existsb (player_fires g) ps); reflexivity.
    + reflexivity.
Qed.

(** C8, as amended.  When [Advance] returns on a game that is done, the
    game is still done, and the recorded winner is unchanged unless, after
    the pursuers have moved, a located player is within trigger distance
    of a pursuer, in which case the pursuers are recorded as winners. *)
Theorem Advance_done_keeps_winner_unless_caught
    (seconds : R) (g g' : Game.t) (rng rng' : stream) (u : unit) :
  Game.done g = true ->
  Game.Advance seconds (g, rng) = (Ok u, (g', rng')) ->
  Game.done g' = true /\
  Game.humans_won g' =
    if pursuer_trigger_fires g' then Some false else Game.humans_won g.
Proof.
  intros Hdone. unfold Game.Advance. unfold mbind at 1. unfold gets at 1.
  cbn [fst]. unfold mbind at 1.
  destruct (Game.Advance_zombies (Rmin seconds MAX_TIME_INTERVAL_SECS) 0
              (Game.Zombies g) (g, rng)) as [r1 [g1 rng1]] eqn:Hz.
  apply Advance_zombies_status in Hz. destruct Hz as (Hd1 & Hw1 & _ & _).
  destruct r1 as [u1|e]; [|discriminate].
  unfold on_fst. cbn [fst snd]. unfold mbind at 1. unfold gets at 1.
  destruct (Game.Trigger_players (Game.LocatedPlayers g1) g1) as [r2 g2] eqn:Ht.
  intros [= -> <- <-]. apply Trigger_players_ok in Ht.
  assert (Hfires : pursuer_trigger_fires g1 =
                   existsb (player_fires g1) (Game.LocatedPlayers g1))
    by reflexivity.
  destruct (existsb (player_fires g1) (Game.LocatedPlayers g1)); subst g2.
  - change (pursuer_trigger_fires (Game.set_over false g1))
      with (pursuer_trigger_fires g1).
    rewrite Hfires. split; reflexivity.
  - rewrite Hfires. split; congruence.
Qed.

Lemma up_1 : up 1 = 2%Z.
Proof. symmetry. apply tech_up; simpl; lra. Qed.

Lemma Zombie_init_chasing_text (lat lon s : R) (e : string) :
  valid_coordinate lat lon -> lat <> 0 -> lon <> 0 ->
  Zombie.init (Some (zombie_chasing_text (PyFloat lat) (PyFloat lon) s e))
    None (ChaseVal PyNone) = Ok (zombie_at lat lon s).
Proof.
  intros Hv Hlat Hlon. unfold Zombie.init, Zombie.FromString.
  rewrite (Entity_FromString_located (A:=Zombie.t) _ _ lat lon)
    by (assumption ||
        (unfold zombie_chasing_text, zombie_text; lookups; reflexivity)).
  cbn [rbind fst snd]. unfold getitem, zombie_chasing_text, zombie_text.
  lookups. cbn [rbind float]. lookups. reflexivity.
Qed.

Lemma Advance_body_at_target (seconds sp lat lon : R) (c : chasing_t)
    (e : string) (rng : stream) :
  valid_coordinate lat lon ->
  Zombie.Advance_body seconds [player_at lat lon e]
    (Zombie.mk (Some lat, Some lon) (Some sp) c) rng =
  Ok (Zombie.mk (Some lat, Some lon) (Some sp)
        (ChasePlayer (player_at lat lon e)), rng).
Proof.
  intros Hv.
  unfold Zombie.Advance_body, Zombie.Speed. cbn [Zombie.speed rbind].
  unfold Zombie.ComputeChasing. cbn [Zombie.ComputeChasing_loop].
  rewrite DistanceFrom_player_at, great_circle_same. cbn [rbind].
  unfold Zombie.in_vision, ZOMBIE_VISION_DISTANCE_METERS.
  rewrite bool_decide_eq_true_2 by lra.
  cbn [rbind Zombie.loc Zombie.speed Zombie.chasing chasing_truthy].
  rewrite DistanceFrom_player_at, great_circle_same. cbn [rbind].
  unfold Zombie.MoveTowardsLatLon, Entity.DistanceFromLatLon.
  cbn [Entity.Lat Entity.Lon location Zombie.entity Player.entity player_at
       Zombie.loc Player.loc fst snd].
  rewrite great_circle_same. cbn [rbind]. rewrite decide_False by lra.
  replace (lat + (lat - lat) * 0) with lat by lra.
  replace (lon + (lon - lon) * 0) with lon by lra.
  rewrite (SetLocation_valid (A:=Zombie.t)) by exact Hv. reflexivity.
Qed.

Lemma list_setitem_head {A : Type} (x y : A) (l : list A) :
  list_setitem (x :: l) (Z.of_nat 0) y = Ok (y :: l).
Proof.
  unfold list_setitem. rewrite decide_True by (cbn [length]; lia). reflexivity.
Qed.

Lemma Advance_game_won (rng : stream) :
  Game.Advance 1 (game_won, rng) = (Ok tt, (game_caught, rng)).
Proof.
  pose proof earth_degree_bounds as HK.
  assert (Hps : forall g, Game.players g = Game.players game_won ->
                Game.LocatedPlayers g = [Ok (player_at 1 1 "p")]).
  { intros g Hg. unfold Game.LocatedPlayers, Game.Players. rewrite Hg.
    cbn [Game.players game_won map].
    rewrite Player_init_text by (apply valid_1_1 || apply one_ne_0).
    cbn [List.filter]. fold (player_at 1 1 "p").
    rewrite located_player_at by apply one_ne_0. reflexivity. }
  unfold Game.Advance. unfold MAX_TIME_INTERVAL_SECS.
  rewrite Rmin_left by lra.
  unfold mbind at 1. unfold gets at 1. cbn [fst].
  unfold Game.Zombies at 1. cbn [Game.zombies game_won map].
  rewrite Zombie_init_text by (apply valid_1_1 || apply one_ne_0).
  fold (zombie_at 1 1 1).
  unfold mbind at 1. cbn [Game.Advance_zombies].
  unfold mbind at 1. unfold lift at 1.
  unfold mbind at 1. cbn [fst snd].
  rewrite (Hps game_won eq_refl).
  unfold Zombie.Advance. cbn [collect rbind]. rewrite up_1.
  change (Z.to_nat 2) with 2%nat. cbn [Zombie.Advance_loop].
  rewrite decide_True by lra. unfold zombie_at at 1.
  rewrite Advance_body_at_target by apply valid_1_1.
  cbn [rbind fst snd]. rewrite decide_False by lra.
  unfold mbind at 1. unfold on_fst at 1. cbn [fst snd].
  unfold Game.SetZombie at 1. unfold mbind at 1. unfold gets at 1.
  cbn [length Game.zombies game_won].
  rewrite decide_False by lia.
  unfold mbind, lift, gets, modify, mret, on_fst.
  cbn [Zombie.ToString Zombie.DictForJson Zombie.Speed Zombie.speed rbind
       chasing_truthy Zombie.chasing Player.Email Player.email player_at
       Game.zombies game_won list_setitem length fst snd].
  rewrite list_setitem_head.
  cbn [Game.Advance_zombies fst snd].
  rewrite Hps by reflexivity.
  cbn [Game.Trigger_players]. unfold mbind, lift, gets, mret.
  unfold Game.Destination. cbn [Game.destination Game.set_zombies game_won].
  rewrite Destination_init_text by (apply valid_2_1 || apply one_ne_0 || apply two_ne_0).
  assert (Hdd : Entity.DistanceFrom (player_at 1 1 "p")
                  (Destination.mk (Some 2, Some 1)) = Ok earth_degree).
  { unfold Entity.DistanceFrom, Entity.DistanceFromLatLon. cbn.
    rewrite great_circle_north by lra. f_equal. lra. }
  rewrite Hdd. unfold TRIGGER_DISTANCE_METERS. rewrite decide_False by lra.
  unfold Game.Zombies. cbn [Game.zombies Game.set_zombies map].
  change (json_dumps (<["chasing":=PyStr "p"]>
            (<["speed":=PyFloat 1]>
               (Entity.DictForJson
                  (Zombie.mk (Some 1, Some 1) (Some 1)
                     (ChasePlayer (player_at 1 1 "p")))))))
    with (zombie_chasing_text (PyFloat 1) (PyFloat 1) 1 "p").
  rewrite Zombie_init_chasing_text by (apply valid_1_1 || apply one_ne_0).
  cbn [Game.Trigger_zombies]. unfold mbind, lift, mret.
  assert (Hdz : Entity.DistanceFrom (player_at 1 1 "p") (zombie_at 1 1 1) = Ok 0).
  { unfold Entity.DistanceFrom, Entity.DistanceFromLatLon. cbn.
    rewrite great_circle_same. reflexivity. }
  rewrite Hdz. unfold TRIGGER_DISTANCE_METERS. rewrite decide_True by lra.
  reflexivity.
Qed.

(** C8 fails: on a game that is done and won by the players, with a pursuer
    on the player, [Advance] returns and the pursuers are the winners. *)
Lemma Advance_done_changes_winner :
  Game.done game_won = true /\
  Game.humans_won game_won = Some true /\
  exists g',
    Game.Advance 1 (game_won, fun _ => 0) = (Ok tt, (g', fun _ => 0)) /\
    Game.humans_won g' = Some false.
Proof.
  split; [reflexivity|]. split; [reflexivity|].
  exists game_caught. split; [apply Advance_game_won|reflexivity].
Qed.

Lemma Advance_done_keeps_winner_unless_caught_witness :
  Game.done game_caught = true /\
  Game.humans_won game_caught =
    if pursuer_trigger_fires game_caught then Some false
    else Game.humans_won game_won.
Proof.
  apply (Advance_done_keeps_winner_unless_caught 1 game_won game_caught
           (fun _ => 0) (fun _ => 0) tt).
  - reflexivity.
  - apply Advance_game_won.
Defined.

Lemma adds_nil (g : Game.t) : adds g g [].
Proof.
  repeat split; [symmetry; apply app_nil_r|constructor].
Qed.

Lemma adds_app (g1 g2 g3 : Game.t) (a1 a2 : list encoded) :
  adds g1 g2 a1 -> adds g2 g3 a2 -> adds g1 g3 (a1 ++ a2).
Proof.
  intros (Hs1 & Hz1 & Hf1) (Hs2 & Hz2 & Hf2). repeat split.
  - congruence.
  - rewrite Hz2, Hz1. symmetry. apply app_assoc.
  - apply Forall_app. split; [exact Hf1|]. rewrite <- Hs1. exact Hf2.
Qed.

Lemma in_unit_tail (rng : stream) : in_unit rng -> in_unit (fun n => rng (S n)).
Proof. intros H n. apply H. Qed.

Lemma RandomPointNear_frame (lat lon d : R) (g g' : Game.t) (rng rng' : stream)
    (r : result (R * R)) :
  StartHandler.RandomPointNear lat lon d (g, rng) = (r, (g', rng')) ->
  g' = g /\ (in_unit rng -> in_unit rng').
Proof.
  unfold StartHandler.RandomPointNear, mbind, StartHandler.draw, lift, mraise,
    mret, random. cbn [fst snd].
  repeat match goal with
         | |- context [match ?x with Ok _ => _ | Raise _ => _ end] => destruct x
         | |- context [decide ?P] => destruct (decide P)
         end;
    intros [= _ <- <-]; (split; [reflexivity|apply in_unit_tail]).
Qed.

Lemma jitter_bounds (s u : R) :
  0 < s -> 0 <= u < 1 ->
  0.9 * s <= s * (1 + (u - 0.5) * ZOMBIE_SPEED_VARIANCE) <= 1.1 * s.
Proof. unfold ZOMBIE_SPEED_VARIANCE. intros Hs Hu. split; nra. Qed.

Lemma AddZombie_spec (clat clon : R) (g g' : Game.t) (rng rng' : stream)
    (r : result unit) :
  0 < Game.average_zombie_speed g -> in_unit rng ->
  StartHandler.AddZombie clat clon (g, rng) = (r, (g', rng')) ->
  in_unit rng' /\
  exists added, adds g g' added /\
                (forall u, r = Ok u -> length added = 1%nat).
Proof.
  intros Hs Hrng. unfold StartHandler.AddZombie.
  unfold mbind at 1. unfold gets at 1. cbn [fst].
  unfold mbind at 1. unfold StartHandler.draw at 1.
  unfold random at 1. cbn [fst snd].
  unfold mbind at 1. unfold StartHandler.draw at 1.
  unfold random at 1. cbn [fst snd].
  set (u := rng 0%nat).
  set (speed := Game.average_zombie_speed g * ((u - 0.5) * ZOMBIE_SPEED_VARIANCE + 1)).
  assert (Hu : 0 <= u < 1) by apply Hrng.
  assert (Hsp : 0.9 * Game.average_zombie_speed g <= speed
                <= 1.1 * Game.average_zombie_speed g).
  { unfold speed.
    replace ((u - 0.5) * ZOMBIE_SPEED_VARIANCE + 1)
      with (1 + (u - 0.5) * ZOMBIE_SPEED_VARIANCE) by lra.
    apply jitter_bounds; assumption. }
  unfold mbind at 1.
  destruct (StartHandler.RandomPointNear clat clon _ _) as [rp [g1 rng1]] eqn:Hrp.
  apply RandomPointNear_frame in Hrp. destruct Hrp as [-> Hrng1].
  assert (Hin1 : in_unit rng1).
  { apply Hrng1. intros n. apply Hrng. }
  destruct rp as [p|e].
  2:{ intros [= <- <- <-]. split; [exact Hin1|].
      exists []. split; [apply adds_nil|discriminate]. }
  unfold mbind at 1. unfold lift at 1.
  unfold Zombie.init. cbn [rbind of_float].
  rewrite truthy_float by lra.
  cbn [Zombie.loc Zombie.speed Zombie.chasing].
  unfold mbind at 1. unfold lift at 1.
  destruct (Entity.SetLocation (PyFloat p.1) (PyFloat p.2) _) as [zombie|e] eqn:Hset.
  2:{ intros [= <- <- <-]. split; [exact Hin1|].
      exists []. split; [apply adds_nil|discriminate]. }
  assert (Hzs : Zombie.speed zombie = Some speed /\
                Zombie.chasing zombie = ChaseVal PyNone).
  { unfold Entity.SetLocation in Hset.
    repeat match type of Hset with
           | context [decide ?P] => destruct (decide P)
           end; try discriminate.
    injection Hset as <-. split; reflexivity. }
  destruct Hzs as [Hzsp Hzch].
  unfold on_fst, Game.AddZombie, mbind, lift, modify. cbn [fst snd].
  unfold Zombie.ToString, Zombie.DictForJson, Zombie.Speed.
  rewrite Hzsp, Hzch. cbn [rbind chasing_truthy truthy].
  intros [= <- <- <-]. split; [exact Hin1|].
  eexists [_]. split; [|reflexivity].
  repeat split. constructor; [|constructor].
  exists u, speed. split; [exact Hu|]. split; [unfold speed; lra|].
  split; [|exact Hsp]. unfold json_dumps. apply lookup_insert_eq.
Qed.

Lemma adds_speed (g g' : Game.t) (added : list encoded) :
  adds g g' added -> Game.average_zombie_speed g' = Game.average_zombie_speed g.
Proof. intros (H & _). exact H. Qed.

Lemma AddZombie_times_spec (n : nat) (clat clon : R) :
  forall (g g' : Game.t) (rng rng' : stream) (r : result unit),
    0 < Game.average_zombie_speed g -> in_unit rng ->
    StartHandler.AddZombie_times n clat clon (g, rng) = (r, (g', rng')) ->
    in_unit rng' /\
    exists added, adds g g' added /\
                  (forall u, r = Ok u -> length added = n).
Proof.
  induction n as [|n IH]; intros g g' rng rng' r Hs Hrng.
  - cbn. intros [= <- <- <-]. split; [exact Hrng|].
    exists []. split; [apply adds_nil|reflexivity].
  - cbn [StartHandler.AddZombie_times]. unfold mbind at 1.
    destruct (StartHandler.AddZombie clat clon (g, rng)) as [r1 [g1 rng1]] eqn:H1.
    apply AddZombie_spec in H1; [|assumption..].
    destruct H1 as (Hrng1 & a1 & Ha1 & Hlen1).
    destruct r1 as [u1|e].
    + intros H2. apply IH in H2; [|rewrite (adds_speed _ _ _ Ha1); assumption
                                  |assumption].
      destruct H2 as (Hrng2 & a2 & Ha2 & Hlen2). split; [exact Hrng2|].
      exists (a1 ++ a2). split; [eapply adds_app; eassumption|].
      intros u Hu. rewrite length_app, (Hlen1 u1 eq_refl), (Hlen2 u Hu).
      reflexivity.
    + intros [= <- <- <-]. split; [exact Hrng1|].
      exists a1. split; [exact Ha1|discriminate].
Qed.

Lemma AddZombieCluster_spec (elat elon radius : R) (num : Z)
    (g g' : Game.t) (rng rng' : stream) (r : result unit) :
  0 < Game.average_zombie_speed g -> in_unit rng ->
  StartHandler.AddZombieCluster elat elon radius num (g, rng) = (r, (g', rng')) ->
  in_unit rng' /\
  exists added, adds g g' added /\
                (forall u, r = Ok u -> length added = Z.to_nat num).
Proof.
  intros Hs Hrng. unfold StartHandler.AddZombieCluster.
  unfold mbind at 1. unfold StartHandler.draw at 1. unfold random at 1.
  cbn [fst snd]. unfold mbind at 1.
  destruct (StartHandler.RandomPointNear elat elon _ _) as [rp [g1 rng1]] eqn:Hrp.
  apply RandomPointNear_frame in Hrp. destruct Hrp as [-> Hrng1].
  assert (Hin1 : in_unit rng1) by (apply Hrng1; intros n; apply Hrng).
  destruct rp as [c|e].
  - intros H. eapply AddZombie_times_spec; eassumption.
  - intros [= <- <- <-]. split; [exact Hin1|].
    exists []. split; [apply adds_nil|discriminate].
Qed.

Lemma int_nonneg (x : R) : 0 <= x -> (0 <= int x)%Z.
Proof.
  intros Hx. unfold int. rewrite decide_True by exact Hx.
  unfold Int_part. destruct (archimed x) as [Hup _].
  assert (0 < up x)%Z by (apply lt_IZR; lra). lia.
Qed.

Lemma randint_spec (b : Z) (g g' : Game.t) (rng rng' : stream) (r : result Z) :
  in_unit rng ->
  StartHandler.randint 1 b (g, rng) = (r, (g', rng')) ->
  g' = g /\ in_unit rng' /\ forall k, r = Ok k -> (1 <= k)%Z.
Proof.
  intros Hrng. unfold StartHandler.randint.
  case_decide as Hb.
  - intros [= <- <- <-].
    split; [reflexivity|]. split; [exact Hrng|discriminate].
  - unfold mbind, StartHandler.draw, random, mret. cbn [fst snd].
    intros [= <- <- <-].
    split; [reflexivity|]. split; [apply in_unit_tail, Hrng|].
    intros k [= <-].
    assert (0 <= int (rng 0%nat * IZR (b + 1 - 1)))%Z; [|lia].
    apply int_nonneg. apply Rmult_le_pos; [apply Hrng|].
    apply IZR_le. lia.
Qed.

Lemma PopulateZombies_loop_spec (fuel : nat) (num : Z) (elat elon radius : R) :
  forall (g g' : Game.t) (rng rng' : stream) (r : result unit),
    0 < Game.average_zombie_speed g -> in_unit rng ->
    StartHandler.PopulateZombies_loop fuel num elat elon radius (g, rng)
      = (r, (g', rng')) ->
    in_unit rng' /\ exists added, adds g g' added.
Proof.
  induction fuel as [|fuel IH]; intros g g' rng rng' r Hs Hrng;
    cbn [StartHandler.PopulateZombies_loop]; unfold mbind at 1;
    unfold gets at 1; cbn [fst]; case_decide as Hn;
    try (unfold mret; intros [= <- <- <-]; split; [exact Hrng|];
         exists []; apply adds_nil).
  unfold mbind at 1.
  destruct (StartHandler.randint 1 _ (g, rng)) as [rk [g1 rng1]] eqn:Hk.
  apply randint_spec in Hk; [|exact Hrng]. destruct Hk as (-> & Hrng1 & _).
  destruct rk as [k|e].
  2:{ intros [= <- <- <-]. split; [exact Hrng1|]. exists []. apply adds_nil. }
  unfold mbind at 1.
  destruct (StartHandler.AddZombieCluster elat elon radius k (g, rng1))
    as [rc [g2 rng2]] eqn:Hc.
  apply AddZombieCluster_spec in Hc; [|assumption..].
  destruct Hc as (Hrng2 & a1 & Ha1 & _).
  destruct rc as [u|e].
  - intros H. apply IH in H; [|rewrite (adds_speed _ _ _ Ha1); assumption
                              |assumption].
    destruct H as (Hrng' & a2 & Ha2). split; [exact Hrng'|].
    exists (a1 ++ a2). eapply adds_app; eassumption.
  - intros [= <- <- <-]. split; [exact Hrng2|]. exists a1. exact Ha1.
Qed.

Lemma PopulateZombies_adds (g g' : Game.t) (rng rng' : stream)
    (r : result unit) :
  0 < Game.average_zombie_speed g -> in_unit rng ->
  StartHandler.PopulateZombies (g, rng) = (r, (g', rng')) ->
  exists added,
    Game.zombies g' = Game.zombies g ++ added /\
    Forall (jittered_speed (Game.average_zombie_speed g)) added.
Proof.
  intros Hs Hrng. unfold StartHandler.PopulateZombies.
  unfold mbind at 1. unfold gets at 1. cbn [fst].
  assert (Hnil : exists added, Game.zombies g = Game.zombies g ++ added /\
            Forall (jittered_speed (Game.average_zombie_speed g)) added).
  { exists []. split; [symmetry; apply app_nil_r|constructor]. }
  unfold mbind at 1. unfold lift at 1.
  destruct (StartHandler.find_owner _ _ _) as [[owner|]|e];
    try (unfold mraise; intros [= <- <- <-]; exact Hnil).
  destruct (_ || _); [unfold mraise; intros [= <- <- <-]; exact Hnil|].
  unfold mbind at 1. unfold lift at 1.
  destruct (StartHandler.GetZombieEpicenter g owner) as [epicenter|e];
    [|intros [= <- <- <-]; exact Hnil].
  unfold mbind at 1. unfold lift at 1.
  destruct (Game.Destination g) as [destination|e];
    [|intros [= <- <- <-]; exact Hnil].
  unfold mbind at 1. unfold lift at 1.
  destruct (Entity.DistanceFrom owner destination) as [radius_m|e];
    [|intros [= <- <- <-]; exact Hnil].
  intros H. apply PopulateZombies_loop_spec in H; [|assumption..].
  destruct H as (_ & added & _ & Hz & Hf). exists added. split; assumption.
Qed.

Lemma in_unit_half : in_unit (fun _ => 0.5).
Proof. intros n. lra. Qed.

(** The fuel of [Zombie.Advance] is never the reason the loop stops. *)
Lemma Advance_loop_fuel (players : list Player.t) (f1 : nat) :
  forall (f2 : nat) (seconds : R) (self : Zombie.t) (rng : stream),
    seconds <= INR f1 -> seconds <= INR f2 ->
    Zombie.Advance_loop f1 seconds players self rng =
    Zombie.Advance_loop f2 seconds players self rng.
Proof.
  induction f1 as [|f1 IH]; intros f2 seconds self rng H1 H2.
  - cbn in H1. destruct f2; cbn [Zombie.Advance_loop];
      rewrite ?decide_False by lra; reflexivity.
  - destruct f2 as [|f2].
    + cbn in H2. cbn [Zombie.Advance_loop]. rewrite !decide_False by lra.
      reflexivity.
    + cbn [Zombie.Advance_loop]. case_decide; [|reflexivity].
      destruct (Zombie.Advance_body seconds players self rng) as [[z r]|e];
        [|reflexivity].
      cbn [rbind fst snd]. rewrite S_INR in H1, H2. apply IH; lra.
Qed.

Lemma Advance_fuel_enough (seconds : R) (extra : nat)
    (players : list Player.t) (self : Zombie.t) (rng : stream) :
  Zombie.Advance_loop (Z.to_nat (up seconds) + extra) seconds players self rng =
  Zombie.Advance_loop (Z.to_nat (up seconds)) seconds players self rng.
Proof.
  destruct (archimed seconds) as [Hup _].
  destruct (Rle_dec seconds 0) as [Hle|Hgt].
  - destruct (Z.to_nat (up seconds) + extra)%nat, (Z.to_nat (up seconds));
      cbn [Zombie.Advance_loop]; rewrite ?decide_False by lra; reflexivity.
  - assert (Hpos : (0 < up seconds)%Z) by (apply lt_IZR; lra).
    assert (Hfuel : seconds <= INR (Z.to_nat (up seconds))).
    { rewrite INR_IZR_INZ, Z2Nat.id by lia. lra. }
    apply Advance_loop_fuel; [|exact Hfuel].
    rewrite plus_INR. pose proof (pos_INR extra). lra.
Qed.

Lemma adds_length (g g' : Game.t) (added : list encoded) :
  adds g g' added ->
  length (Game.zombies g') = (length (Game.zombies g) + length added)%nat.
Proof. intros (_ & Hz & _). rewrite Hz. apply length_app. Qed.

Lemma PopulateZombies_loop_full (fuel : nat) (num : Z) (elat elon radius : R)
    (g : Game.t) (rng : stream) :
  (num <= Z.of_nat (length (Game.zombies g)))%Z ->
  StartHandler.PopulateZombies_loop fuel num elat elon radius (g, rng) =
  (Ok tt, (g, rng)).
Proof.
  intros Hn. destruct fuel; cbn [StartHandler.PopulateZombies_loop];
    unfold mbind, gets; cbn [fst]; rewrite decide_False by lia; reflexivity.
Qed.

(** Under draws in [[0, 1)] every pass of the loop of [PopulateZombies]
    that returns adds a pursuer, so the fuel is never the reason it stops. *)
Lemma PopulateZombies_loop_fuel (num : Z) (elat elon radius : R) (f1 : nat) :
  forall (f2 : nat) (g : Game.t) (rng : stream),
    0 < Game.average_zombie_speed g -> in_unit rng ->
    (num - Z.of_nat (length (Game.zombies g)) <= Z.of_nat f1)%Z ->
    (num - Z.of_nat (length (Game.zombies g)) <= Z.of_nat f2)%Z ->
    StartHandler.PopulateZombies_loop f1 num elat elon radius (g, rng) =
    StartHandler.PopulateZombies_loop f2 num elat elon radius (g, rng).
Proof.
  induction f1 as [|f1 IH]; intros f2 g rng Hs Hrng H1 H2.
  - rewrite !PopulateZombies_loop_full by lia. reflexivity.
  - destruct f2 as [|f2].
    + rewrite !PopulateZombies_loop_full by lia. reflexivity.
    + cbn [StartHandler.PopulateZombies_loop]. unfold mbind at 1.
      unfold gets at 1. cbn [fst]. symmetry. unfold mbind at 1.
      unfold gets at 1. cbn [fst]. symmetry.
      case_decide as Hn; [|reflexivity].
      unfold mbind at 1. symmetry. unfold mbind at 1. symmetry.
      destruct (StartHandler.randint 1 _ (g, rng)) as [rk [g1 rng1]] eqn:Hk.
      apply randint_spec in Hk; [|exact Hrng].
      destruct Hk as (-> & Hrng1 & Hk1).
      destruct rk as [k|e]; [|reflexivity].
      specialize (Hk1 k eq_refl).
      unfold mbind at 1. symmetry. unfold mbind at 1. symmetry.
      destruct (StartHandler.AddZombieCluster elat elon radius k (g, rng1))
        as [rc [g2 rng2]] eqn:Hc.
      apply AddZombieCluster_spec in Hc; [|assumption..].
      destruct Hc as (Hrng2 & added & Hadd & Hlen).
      destruct rc as [u|e]; [|reflexivity].
      specialize (Hlen u eq_refl). apply adds_length in Hadd as Hl.
      apply IH; [rewrite (adds_speed _ _ _ Hadd); assumption|assumption|lia..].
Qed.

Lemma RandomPointNear_runs (g : Game.t) (rng : stream) :
  rng 0%nat = 0 ->
  StartHandler.RandomPointNear 1 1 0 (g, rng) =
  (Ok (1, 1), (g, fun n => rng (S n))).
Proof.
  intros H0. unfold StartHandler.RandomPointNear.
  unfold mbind at 1. unfold StartHandler.draw, random. cbn [fst snd].
  rewrite H0. replace (PI * 2 * 0) with 0 by lra. rewrite sin_0, cos_0.
  unfold mbind at 1. unfold lift at 1.
  rewrite (SetLocation_valid (A:=Entity.t)) by apply valid_1_1.
  unfold mbind at 1. unfold lift at 1.
  rewrite (SetLocation_valid (A:=Entity.t)) by (unfold valid_coordinate; lra).
  unfold mbind at 1. unfold lift at 1.
  unfold Entity.DistanceFrom, Entity.DistanceFromLatLon.
  cbn [Entity.Lat Entity.Lon location with_location Entity.entity Entity.loc
       fst snd].
  assert (Hne : great_circle 1 1 (1 + 0) (1 + 1) <> 0).
  { intros Hz. apply great_circle_eq0 in Hz.
    apply haversine_a_eq0 in Hz; [|unfold valid_coordinate; lra..].
    destruct Hz as [_ [Hz|[Hz|Hz]]].
    - lra.
    - rewrite Rabs_pos_eq in Hz; lra.
    - rewrite Rabs_pos_eq in Hz; lra. }
  rewrite decide_False by exact Hne. unfold mret.
  f_equal. f_equal. f_equal; unfold Rdiv; lra.
Qed.

Lemma PopulateZombies_fuel_enough (num : Z) (extra : nat)
    (elat elon radius : R) (g : Game.t) (rng : stream) :
  0 < Game.average_zombie_speed g -> in_unit rng ->
  StartHandler.PopulateZombies_loop (Z.to_nat num + extra) num elat elon radius
    (g, rng) =
  StartHandler.PopulateZombies_loop (Z.to_nat num) num elat elon radius (g, rng).
Proof.
  intros Hs Hrng. apply PopulateZombies_loop_fuel; try assumption; lia.
Qed.

(** The generator does add pursuers: one call of [AddZombie] on draws that
    are all 0. *)
Lemma AddZombie_runs (g : Game.t) (rng : stream) :
  Game.average_zombie_speed g <> 0 ->
  rng 0%nat = 0 -> rng 1%nat = 0 -> rng 2%nat = 0 ->
  StartHandler.AddZombie 1 1 (g, rng) =
  (Ok tt,
   (Game.set_zombies
      (Game.zombies g ++
       [zombie_text (PyFloat 1) (PyFloat 1)
          (Game.average_zombie_speed g * ((0 - 0.5) * ZOMBIE_SPEED_VARIANCE + 1))])
      g,
    fun n => rng (S (S (S n))))).
Proof.
  intros Hs H0 H1 H2. unfold StartHandler.AddZombie.
  unfold mbind at 1. unfold gets at 1. cbn [fst].
  unfold mbind at 1. unfold StartHandler.draw at 1.
  unfold random at 1. cbn [fst snd].
  unfold mbind at 1. unfold StartHandler.draw at 1.
  unfold random at 1. cbn [fst snd]. rewrite H0, H1.
  replace (0 * MAX_ZOMBIE_CLUSTER_RADIUS) with 0 by lra.
  unfold mbind at 1. rewrite RandomPointNear_runs by exact H2.
  unfold mbind at 1. unfold lift at 1.
  unfold Zombie.init. cbn [rbind of_float].
  rewrite truthy_float by (unfold ZOMBIE_SPEED_VARIANCE; nra).
  cbn [Zombie.loc Zombie.speed Zombie.chasing fst snd].
  unfold mbind at 1. unfold lift at 1.
  rewrite (SetLocation_valid (A:=Zombie.t)) by apply valid_1_1.
  reflexivity.
Qed.

Section Respects.
Context {S : Type} (rel : S -> S -> Prop).

Lemma respects_ret {A : Type} (a : A) : respects rel (mret a).
Proof. intros s1 s2 H. split; [reflexivity|exact H]. Qed.

Lemma respects_raise {A : Type} (e : exn) : respects rel (mraise (A:=A) e).
Proof. intros s1 s2 H. split; [reflexivity|exact H]. Qed.

Lemma respects_lift {A : Type} (r : result A) : respects rel (lift r).
Proof. intros s1 s2 H. split; [reflexivity|exact H]. Qed.

Lemma respects_gets {A : Type} (f : S -> A) :
  (forall s1 s2, rel s1 s2 -> f s1 = f s2) -> respects rel (gets f).
Proof.
  intros Hf s1 s2 H. split; [cbn; f_equal; apply Hf, H|exact H].
Qed.

Lemma respects_modify (f : S -> S) :
  (forall s1 s2, rel s1 s2 -> rel (f s1) (f s2)) -> respects rel (modify f).
Proof. intros Hf s1 s2 H. split; [reflexivity|apply Hf, H]. Qed.

Lemma respects_bind {A B : Type} (m : M S A) (k : A -> M S B) :
  respects rel m -> (forall a, respects rel (k a)) -> respects rel (mbind m k).
Proof.
  intros Hm Hk s1 s2 H. unfold mbind. destruct (Hm s1 s2 H) as [Hr Hs].
  destruct (m s1) as [r1 t1], (m s2) as [r2 t2]. cbn in Hr, Hs. subst r2.
  destruct r1 as [a|e]; [apply Hk, Hs|split; [reflexivity|exact Hs]].
Qed.
End Respects.

Lemma same_located_zombies (g1 g2 : Game.t) :
  same_located g1 g2 -> Game.zombies g1 = Game.zombies g2.
Proof. intros [H _]. apply (f_equal Game.zombies) in H. exact H. Qed.

Lemma same_located_destination (g1 g2 : Game.t) :
  same_located g1 g2 -> Game.destination g1 = Game.destination g2.
Proof. intros [H _]. apply (f_equal Game.destination) in H. exact H. Qed.

Lemma same_located_set_zombies (l : list encoded) (g1 g2 : Game.t) :
  same_located g1 g2 ->
  same_located (Game.set_zombies l g1) (Game.set_zombies l g2).
Proof.
  intros [H HL]. split; [|exact HL].
  apply (f_equal (Game.set_zombies l)) in H. exact H.
Qed.

Lemma same_located_set_over (hw : bool) (g1 g2 : Game.t) :
  same_located g1 g2 ->
  same_located (Game.set_over hw g1) (Game.set_over hw g2).
Proof.
  intros [H HL]. split; [|exact HL].
  apply (f_equal (Game.set_over hw)) in H. exact H.
Qed.

Lemma respects_SetZombie (i : Z) (z : Zombie.t) :
  respects same_located (Game.SetZombie i z).
Proof.
  unfold Game.SetZombie. apply respects_bind.
  { apply respects_gets. intros g1 g2 H.
    rewrite (same_located_zombies _ _ H). reflexivity. }
  intros n. case_decide; [apply respects_raise|].
  apply respects_bind; [apply respects_lift|]. intros s.
  apply respects_bind; [apply respects_gets, same_located_zombies|]. intros zs.
  apply respects_bind; [apply respects_lift|]. intros zs'.
  apply respects_modify. intros g1 g2. apply same_located_set_zombies.
Qed.

Lemma respects_on_fst {A : Type} (m : M Game.t A) :
  respects same_located m ->
  respects same_located_w (on_fst (T:=stream) m).
Proof.
  intros Hm [g1 r1] [g2 r2] [Hg Hr]. cbn [fst snd] in Hg, Hr. subst r2.
  unfold on_fst. cbn [fst snd]. destruct (Hm g1 g2 Hg) as [H1 H2].
  destruct (m g1) as [a1 t1], (m g2) as [a2 t2]. cbn [fst snd] in *.
  split; [exact H1|]. split; [exact H2|reflexivity].
Qed.

Lemma respects_Advance_zombies (s : R) (zs : list (result Zombie.t)) :
  forall i, respects same_located_w (Game.Advance_zombies s i zs).
Proof.
  induction zs as [|z zs IH]; intros i; cbn [Game.Advance_zombies].
  - apply respects_ret.
  - apply respects_bind; [apply respects_lift|]. intros zombie.
    apply respects_bind.
    { intros [g1 r1] [g2 r2] [Hg Hr]. cbn [fst snd] in Hg, Hr. subst r2.
      cbn [fst snd]. destruct Hg as [Hg HL]. rewrite HL.
      destruct (Zombie.Advance s (Game.LocatedPlayers g2) zombie r1)
        as [[z' r']|e]; (split; [reflexivity|]); split; cbn [fst snd];
        try reflexivity; split; assumption. }
    intros zombie'.
    apply respects_bind; [apply respects_on_fst, respects_SetZombie|].
    intros _. apply IH.
Qed.

Lemma respects_Trigger_zombies (player : Player.t) (zs : list (result Zombie.t)) :
  respects same_located (Game.Trigger_zombies player zs).
Proof.
  induction zs as [|z zs IH]; cbn [Game.Trigger_zombies].
  - apply respects_ret.
  - apply respects_bind; [apply respects_lift|]. intros zombie.
    apply respects_bind; [apply respects_lift|]. intros d.
    apply respects_bind; [|intros _; apply IH].
    case_decide; [|apply respects_ret].
    apply respects_modify. intros g1 g2. apply same_located_set_over.
Qed.

Lemma respects_Trigger_players (ps : list (result Player.t)) :
  respects same_located (Game.Trigger_players ps).
Proof.
  induction ps as [|p ps IH]; cbn [Game.Trigger_players].
  - apply respects_ret.
  - apply respects_bind; [apply respects_lift|]. intros player.
    apply respects_bind.
    { intros g1 g2 H. cbn [fst snd]. unfold Game.Destination.
      rewrite (same_located_destination _ _ H). split; [reflexivity|exact H]. }
    intros dest.
    apply respects_bind; [apply respects_lift|]. intros d.
    apply respects_bind.
    { case_decide; [apply respects_raise|apply respects_ret]. }
    intros _. apply respects_bind.
    { apply respects_gets. intros g1 g2 H. unfold Game.Zombies.
      rewrite (same_located_zombies _ _ H). reflexivity. }
    intros zs. apply respects_bind; [apply respects_Trigger_zombies|].
    intros _. apply IH.
Qed.

Lemma respects_Advance (seconds : R) :
  respects same_located_w (Game.Advance seconds).
Proof.
  unfold Game.Advance. apply respects_bind.
  { apply respects_gets. intros [g1 r1] [g2 r2] [Hg _]. cbn [fst] in *.
    unfold Game.Zombies. rewrite (same_located_zombies _ _ Hg). reflexivity. }
  intros zs. apply respects_bind; [apply respects_Advance_zombies|].
  intros _. apply respects_on_fst. apply respects_bind.
  { apply respects_gets. intros g1 g2 [_ HL]. exact HL. }
  intros ps. apply respects_Trigger_players.
Qed.

Lemma located_iff (p : Player.t) :
  Game.located p = true <->
  exists la lo, Player.loc p = (Some la, Some lo) /\ la <> 0 /\ lo <> 0.
Proof.
  unfold Game.located, Entity.Lat, Entity.Lon. cbn [location Player.entity].
  destruct (Player.loc p) as [[la|] [lo|]]; cbn [fst snd of_float truthy].
  - rewrite andb_true_iff, !bool_decide_eq_true. split.
    + intros [H1 H2]. exists la, lo. auto.
    + intros (la' & lo' & [= <- <-] & H1 & H2). auto.
  - rewrite andb_false_r. split; [discriminate|].
    intros (la' & lo' & [=] & _).
  - split; [discriminate|]. intros (la' & lo' & [=] & _).
  - split; [discriminate|]. intros (la' & lo' & [=] & _).
Qed.

Lemma collect_filter_located (it : list (result Player.t)) :
  forall ps, collect it = Ok ps ->
    collect (List.filter (fun r => match r with
                                   | Ok player => Game.located player
                                   | Raise _ => true
                                   end) it) = Ok (List.filter Game.located ps).
Proof.
  induction it as [|r it IH]; intros ps; cbn [collect List.filter].
  - intros [= <-]. reflexivity.
  - destruct r as [p|e]; cbn [rbind]; [|discriminate].
    destruct (collect it) as [l|e]; cbn [rbind]; [|discriminate].
    intros [= <-]. cbn [List.filter]. specialize (IH l eq_refl).
    destruct (Game.located p); cbn [collect rbind]; rewrite IH; reflexivity.
Qed.

Lemma Player_init_unlocated (lat lon : R) (e : string) :
  lat = 0 \/ lon = 0 ->
  Player.init (Some (player_text (PyFloat lat) (PyFloat lon) e)) None =
  Ok (Player.mk (None, None) (Some (PyStr e))).
Proof.
  intros H0. unfold Player.init, Player.FromString.
  assert (Hfs : Entity.FromString (Player.mk (None, None) None)
                  (player_text (PyFloat lat) (PyFloat lon) e)
                = Ok (Player.mk (None, None) None,
                      player_text (PyFloat lat) (PyFloat lon) e)).
  { destruct H0 as [-> | ->].
    - apply (Entity_FromString_lat0 (A:=Player.t)).
      unfold player_text. lookups. reflexivity.
    - apply (Entity_FromString_lon0 (A:=Player.t) _ _ (PyFloat lat));
        unfold player_text; lookups; reflexivity. }
  rewrite Hfs. cbn [rbind fst snd]. unfold getitem, player_text. lookups.
  reflexivity.
Qed.

Lemma LocatedPlayers_insert (g : Game.t) (pre post : list encoded)
    (lat lon : R) (e : string) :
  lat = 0 \/ lon = 0 ->
  Game.LocatedPlayers
    (Game.set_players (pre ++ player_text (PyFloat lat) (PyFloat lon) e :: post) g) =
  Game.LocatedPlayers (Game.set_players (pre ++ post) g).
Proof.
  intros H0. unfold Game.LocatedPlayers, Game.Players.
  cbn [Game.players Game.set_players].
  rewrite !map_app, !List.filter_app. f_equal. cbn [map List.filter].
  rewrite Player_init_unlocated by exact H0. reflexivity.
Qed.

(** C10.  A player is located exactly when its latitude and longitude are
    both set and both different from 0; [LocatedPlayers] yields the
    located ones among [Players], in order; and a player with a valid
    coordinate on the equator or on the prime meridian, once stored, is not
    among them: adding its text to the players changes neither the result
    of [Advance] nor the game it leaves, the stored players apart. *)
Theorem LocatedPlayers_nonzero (g : Game.t) (ps : list Player.t) (p : Player.t)
    (pre post : list encoded) (lat lon : R) (e : string) (seconds : R)
    (rng : stream) :
  valid_coordinate lat lon -> lat = 0 \/ lon = 0 ->
  (Game.located p = true <->
   exists la lo, Player.loc p = (Some la, Some lo) /\ la <> 0 /\ lo <> 0) /\
  (collect (Game.Players g) = Ok ps ->
   collect (Game.LocatedPlayers g) = Ok (List.filter Game.located ps)) /\
  (exists q text,
     construct_player lat lon e = Ok q /\ Player.ToString q = Ok text /\
     let g1 := Game.set_players (pre ++ post) g in
     let g2 := Game.set_players (pre ++ text :: post) g in
     Game.LocatedPlayers g2 = Game.LocatedPlayers g1 /\
     fst (Game.Advance seconds (g2, rng)) = fst (Game.Advance seconds (g1, rng)) /\
     Game.set_players [] (fst (snd (Game.Advance seconds (g2, rng)))) =
       Game.set_players [] (fst (snd (Game.Advance seconds (g1, rng)))) /\
     snd (snd (Game.Advance seconds (g2, rng))) =
       snd (snd (Game.Advance seconds (g1, rng)))).
Proof.
  intros Hv H0. split; [apply located_iff|]. split.
  { unfold Game.LocatedPlayers. apply collect_filter_located. }
  exists (Player.mk (Some lat, Some lon) (Some (PyStr e))),
         (player_text (PyFloat lat) (PyFloat lon) e).
  split.
  { unfold construct_player. cbn [Player.init rbind].
    rewrite (SetLocation_valid (A:=Player.t)) by exact Hv. reflexivity. }
  split; [apply Player_ToString_text|].
  intros g1 g2.
  assert (HL : Game.LocatedPlayers g2 = Game.LocatedPlayers g1)
    by (apply LocatedPlayers_insert; exact H0).
  split; [exact HL|].
  assert (Hrel : same_located_w (g2, rng) (g1, rng)).
  { split; [|reflexivity]. split; [reflexivity|exact HL]. }
  destruct (respects_Advance seconds _ _ Hrel) as [Hr [[Hg _] Hrng]].
  split; [exact Hr|]. split; [exact Hg|exact Hrng].
Qed.

Lemma LocatedPlayers_nonzero_witness :
  exists q text,
    construct_player 0 10 "a" = Ok q /\ Player.ToString q = Ok text /\
    Game.LocatedPlayers (Game.set_players ([] ++ text :: Game.players game_won) game_won) =
    Game.LocatedPlayers (Game.set_players ([] ++ Game.players game_won) game_won).
Proof.
  destruct (LocatedPlayers_nonzero game_won [] (player_at 1 1 "p") []
              (Game.players game_won) 0 10 "a" 1 (fun _ => 0))
    as (_ & _ & q & text & Hq & Htext & HL & _).
  - unfold valid_coordinate; lra.
  - left; reflexivity.
  - exists q, text. split; [exact Hq|]. split; [exact Htext|exact HL].
Defined.

Lemma DistanceFrom_entities (la1 lo1 la2 lo2 : R) :
  Entity.DistanceFrom (Entity.mk (Some la1, Some lo1))
    (Entity.mk (Some la2, Some lo2)) = Ok (great_circle la1 lo1 la2 lo2).
Proof. reflexivity. Qed.

(** C7, as amended. The distance from a valid coordinate to itself is 0: two
    entities with the same latitude and the same longitude are at distance 0.
    The converse is no part of the amended claim. *)
Theorem distance_zero_same (lat lon : R) :
  valid_coordinate lat lon ->
  Entity.DistanceFrom (Entity.mk (Some lat, Some lon))
    (Entity.mk (Some lat, Some lon)) = Ok 0.
Proof.
  intros _. rewrite DistanceFrom_entities. f_equal. apply great_circle_same.
Qed.

Lemma distance_zero_same_witness :
  Entity.DistanceFrom (Entity.mk (Some 90, Some 10))
    (Entity.mk (Some 90, Some 10)) = Ok 0.
Proof.
  apply distance_zero_same. unfold valid_coordinate; lra.
Defined.

(** C7 fails at the pole: (90, 0) and (90, 1e-200) are valid, differ in
    longitude, and are at distance 0. *)
Lemma distance_zero_at_pole :
  valid_coordinate 90 0 /\ valid_coordinate 90 1e-200 /\
  Entity.DistanceFrom (Entity.mk (Some 90, Some 0))
    (Entity.mk (Some 90, Some 1e-200)) = Ok 0 /\
  0 <> 1e-200.
Proof.
  split; [unfold valid_coordinate; lra|].
  split; [unfold valid_coordinate; lra|].
  split; [|lra].
  rewrite DistanceFrom_entities. f_equal. apply great_circle_a0.
  unfold haversine_a.
  replace ((90 - 90) / 2) with 0 by lra. rewrite radians_0, sin_0.
  replace (radians 90) with (PI / 2) by (unfold radians; lra).
  rewrite cos_PI2. ring.
Qed.

Lemma Set_out_of_range_witness :
  Game.SetPlayer 1 (player_at 1 1 "p") game_won = (Raise ModelStateError, game_won) /\
  Game.SetZombie 5 (zombie_at 1 1 1) game_won = (Raise ModelStateError, game_won).
Proof.
  apply Set_out_of_range.
  - cbn. lia.
  - cbn. lia.
Defined.

(** * Further properties of the code *)

Lemma SetLocation_invalid {A : Type} `{IsEntity A} (lat lon : R) (self : A) :
  ~ valid_coordinate lat lon ->
  Entity.SetLocation (PyFloat lat) (PyFloat lon) self = Raise InvalidLocationError.
Proof.
  intros Hv. unfold Entity.SetLocation.
  repeat case_decide; try reflexivity.
  exfalso. apply Hv. unfold valid_coordinate. lra.
Qed.

Lemma sin_sq_neg (x : R) : sin (- x) ^ 2 = sin x ^ 2.
Proof. rewrite sin_neg. ring. Qed.

Lemma haversine_a_sym (la1 lo1 la2 lo2 : R) :
  haversine_a la1 lo1 la2 lo2 = haversine_a la2 lo2 la1 lo1.
Proof.
  unfold haversine_a.
  replace (radians ((la1 - la2) / 2)) with (- radians ((la2 - la1) / 2))
    by (unfold radians; lra).
  replace (radians ((lo1 - lo2) / 2)) with (- radians ((lo2 - lo1) / 2))
    by (unfold radians; lra).
  rewrite !sin_sq_neg. ring.
Qed.

(** X1. The distance from an entity a to an entity b is the distance from b to
    a, and where one call raises (a coordinate is unset) the other raises the
    same error. *)
Theorem DistanceFrom_symmetric (a b : Entity.t) :
  Entity.DistanceFrom a b = Entity.DistanceFrom b a.
Proof.
  unfold Entity.DistanceFrom, Entity.DistanceFromLatLon, Entity.Lat, Entity.Lon.
  cbn [location Entity.entity].
  destruct (Entity.loc a) as [[la1|] [lo1|]], (Entity.loc b) as [[la2|] [lo2|]];
    cbn [fst snd]; try reflexivity.
  unfold great_circle. rewrite (haversine_a_sym la1 lo1 la2 lo2). reflexivity.
Qed.




Lemma great_circle_equator (lon1 lon2 : R) :
  Rabs (lon2 - lon1) <= 180 ->
  great_circle 0 lon1 0 lon2 =
  RADIUS_OF_EARTH_METERS * (PI / 180) * Rabs (lon2 - lon1).
Proof.
  intros Hd. rewrite <- (great_circle_meridian lon1 lon2 0 Hd).
  unfold great_circle, haversine_a.
  replace ((0 - 0) / 2) with 0 by lra.
  rewrite !radians_0, sin_0, cos_0.
  replace (0 ^ 2 + 1 * 1 * sin (radians ((lon2 - lon1) / 2)) ^ 2)
    with (sin (radians ((lon2 - lon1) / 2)) ^ 2 +
          cos (radians lon1) * cos (radians lon2) * 0 ^ 2) by ring.
  reflexivity.
Qed.

(** X3. Between two points of one meridian, and between two points of the
    equator, that are at most 180 degrees apart, the distance is
    RADIUS_OF_EARTH_METERS * pi / 180 meters per degree of difference. *)
Theorem DistanceFrom_along_axes (x y c : R) :
  Rabs (y - x) <= 180 ->
  Entity.DistanceFrom (Entity.mk (Some x, Some c)) (Entity.mk (Some y, Some c)) =
    Ok (earth_degree * Rabs (y - x)) /\
  Entity.DistanceFrom (Entity.mk (Some 0, Some x)) (Entity.mk (Some 0, Some y)) =
    Ok (earth_degree * Rabs (y - x)).
Proof.
  intros Hd. rewrite !DistanceFrom_entities. unfold earth_degree.
  rewrite great_circle_meridian, great_circle_equator by exact Hd.
  split; reflexivity.
Qed.

Lemma DistanceFrom_along_axes_witness :
  Entity.DistanceFrom (Entity.mk (Some 0, Some 0)) (Entity.mk (Some 1, Some 0)) =
    Ok (earth_degree * Rabs (1 - 0)) /\
  Entity.DistanceFrom (Entity.mk (Some 0, Some 0)) (Entity.mk (Some 0, Some 1)) =
    Ok (earth_degree * Rabs (1 - 0)).
Proof.
  apply (DistanceFrom_along_axes 0 1 0).
  rewrite Rabs_pos_eq; lra.
Defined.


Lemma vision_min (m d : R) :
  bool_decide ((if bool_decide (d < m) then d else m) < ZOMBIE_VISION_DISTANCE_METERS) =
  bool_decide (m < ZOMBIE_VISION_DISTANCE_METERS) ||
  bool_decide (d < ZOMBIE_VISION_DISTANCE_METERS).
Proof.
  destruct (bool_decide (d < m)) eqn:Hdm.
  - apply bool_decide_eq_true in Hdm.
    destruct (bool_decide (d < ZOMBIE_VISION_DISTANCE_METERS)) eqn:Hd.
    + rewrite orb_true_r. reflexivity.
    + rewrite orb_false_r. apply bool_decide_eq_false in Hd.
      symmetry. apply bool_decide_eq_false. lra.
  - apply bool_decide_eq_false in Hdm.
    destruct (bool_decide (m < ZOMBIE_VISION_DISTANCE_METERS)) eqn:Hm.
    + reflexivity.
    + apply bool_decide_eq_false in Hm. cbn [orb].
      symmetry. apply bool_decide_eq_false. lra.
Qed.

Lemma last_cons_default {A : Type} (l : list A) :
  forall (x d d' : A), List.last (x :: l) d = List.last (x :: l) d'.
Proof.
  induction l as [|y l IH]; intros x d d'; [reflexivity|].
  change (List.last (y :: l) d = List.last (y :: l) d'). apply IH.
Qed.

(** What the loop of [ComputeChasing] leaves: the loop variable holds the
    last player, and the smallest distance is within vision exactly when
    some distance is. *)
Lemma ComputeChasing_loop_vision (self : Zombie.t) (ps : list Player.t) :
  forall (ds : list R) (md : option R) (mp pl : option Player.t),
    Forall2 (fun p d => Entity.DistanceFrom self p = Ok d) ps ds ->
    exists md' mp',
      Zombie.ComputeChasing_loop self ps md mp pl =
        Ok (md', mp', List.last (map Some ps) pl) /\
      match md' with
      | Some m' =>
          bool_decide (m' < ZOMBIE_VISION_DISTANCE_METERS) =
          match md with
          | Some m => bool_decide (m < ZOMBIE_VISION_DISTANCE_METERS)
          | None => false
          end ||
          existsb (fun d => bool_decide (d < ZOMBIE_VISION_DISTANCE_METERS)) ds
      | None => md = None /\ ds = []
      end.
Proof.
  induction ps as [|p ps IH]; intros ds md mp pl Hd.
  - inversion Hd; subst. exists md, mp. split; [reflexivity|].
    destruct md as [m|]; [cbn; rewrite orb_false_r; reflexivity|auto].
  - inversion Hd as [|? d ? ds' Hp Hrest]; subst.
    cbn [Zombie.ComputeChasing_loop]. rewrite Hp. cbn [rbind].
    assert (Hlast : List.last (map Some (p :: ps)) pl =
                    List.last (map Some ps) (Some p)).
    { cbn [map]. destruct ps as [|t ps]; [reflexivity|].
      change (List.last (map Some (t :: ps)) pl =
              List.last (map Some (t :: ps)) (Some p)).
      cbn [map]. apply last_cons_default. }
    rewrite Hlast.
    destruct md as [m|].
    + destruct (bool_decide (d < m)) eqn:Hdm.
      * destruct (IH ds' (Some d) (Some p) (Some p) Hrest) as (md' & mp' & Hl & Hv).
        exists md', mp'. split; [exact Hl|].
        destruct md' as [m'|]; [|destruct Hv; discriminate].
        rewrite Hv. cbn [existsb]. rewrite orb_assoc. f_equal.
        pose proof (vision_min m d) as Hmin. rewrite Hdm in Hmin. exact Hmin.
      * destruct (IH ds' (Some m) mp (Some p) Hrest) as (md' & mp' & Hl & Hv).
        exists md', mp'. split; [exact Hl|].
        destruct md' as [m'|]; [|destruct Hv; discriminate].
        rewrite Hv. cbn [existsb]. rewrite orb_assoc. f_equal.
        pose proof (vision_min m d) as Hmin. rewrite Hdm in Hmin. exact Hmin.
    + destruct (IH ds' (Some d) (Some p) (Some p) Hrest) as (md' & mp' & Hl & Hv).
      exists md', mp'. split; [exact Hl|].
      destruct md' as [m'|]; [|destruct Hv; discriminate].
      rewrite Hv. reflexivity.
Qed.

(** X6. On a non-empty list of players whose distances from the pursuer are all
    defined, ComputeChasing returns; chasing becomes the last player of the list
    if some player is closer than ZOMBIE_VISION_DISTANCE_METERS and None
    otherwise, and location and speed are not changed. *)
Theorem ComputeChasing_spec (self : Zombie.t) (ps : list Player.t)
    (q : Player.t) (ds : list R) :
  Forall2 (fun p d => Entity.DistanceFrom self p = Ok d) (ps ++ [q]) ds ->
  Zombie.ComputeChasing self (ps ++ [q]) =
  Ok (Zombie.mk (Zombie.loc self) (Zombie.speed self)
        (if existsb (fun d => bool_decide (d < ZOMBIE_VISION_DISTANCE_METERS)) ds
         then ChasePlayer q else ChaseVal PyNone)).
Proof.
  intros Hd. unfold Zombie.ComputeChasing.
  destruct (ComputeChasing_loop_vision self (ps ++ [q]) ds None None None Hd)
    as (md' & mp' & Hl & Hv).
  rewrite Hl. cbn [rbind]. rewrite map_app. cbn [map]. rewrite last_last.
  destruct md' as [m'|].
  - unfold Zombie.in_vision. rewrite Hv. cbn [orb].
    destruct (existsb _ ds); reflexivity.
  - destruct Hv as [_ ->]. apply Forall2_length in Hd.
    rewrite length_app in Hd. cbn in Hd. lia.
Qed.

Lemma ComputeChasing_spec_witness :
  Zombie.ComputeChasing (zombie_at 1 1 1) ([] ++ [player_at 1 1 "p"]) =
  Ok (Zombie.mk (Zombie.loc (zombie_at 1 1 1)) (Zombie.speed (zombie_at 1 1 1))
        (if existsb (fun d => bool_decide (d < ZOMBIE_VISION_DISTANCE_METERS)) [0]
         then ChasePlayer (player_at 1 1 "p") else ChaseVal PyNone)).
Proof.
  apply ComputeChasing_spec.
  constructor; [|constructor].
  unfold zombie_at. rewrite DistanceFrom_player_at, great_circle_same.
  reflexivity.
Defined.


Lemma SetLocation_Ok_inv {A : Type} `{IsEntity A} (lat lon : pyval)
    (self self' : A) :
  Entity.SetLocation lat lon self = Ok self' ->
  exists la lo, lat = PyFloat la /\ lon = PyFloat lo /\
                valid_coordinate la lo /\
                self' = with_location (Some la, Some lo) self.
Proof.
  unfold Entity.SetLocation.
  destruct lat as [|la|], lon as [|lo|]; try discriminate.
  repeat case_decide; try discriminate.
  intros [= <-]. exists la, lo. unfold valid_coordinate.
  repeat split; lra.
Qed.

Lemma truthy_float_inv (x : R) : truthy (PyFloat x) = true -> x <> 0.
Proof. cbn. apply bool_decide_eq_true_1. Qed.

(** What a successful [Entity.FromString] has read and set. *)
Lemma Entity_FromString_inv {A : Type} `{IsEntity A} (self self' : A)
    (enc obj : gmap string pyval) :
  Entity.FromString self enc = Ok (self', obj) ->
  obj = enc /\
  ((self' = self /\
    exists v, enc !! "lat" = Some v /\
              (truthy v = false \/
               exists w, enc !! "lon" = Some w /\ truthy w = false)) \/
   exists la lo,
     enc !! "lat" = Some (PyFloat la) /\ enc !! "lon" = Some (PyFloat lo) /\
     valid_coordinate la lo /\ la <> 0 /\ lo <> 0 /\
     self' = with_location (Some la, Some lo) self).
Proof.
  unfold Entity.FromString, json_loads, getitem.
  destruct (enc !! "lat") as [v|] eqn:Hlat; cbn [rbind]; [|discriminate].
  destruct (truthy v) eqn:Hv.
  - destruct (enc !! "lon") as [w|] eqn:Hlon; cbn [rbind]; [|discriminate].
    destruct (truthy w) eqn:Hw.
    + destruct (Entity.SetLocation v w self) as [s|e] eqn:Hset; cbn [rbind];
        [|discriminate].
      intros [= <- <-]. split; [reflexivity|]. right.
      apply SetLocation_Ok_inv in Hset.
      destruct Hset as (la & lo & -> & -> & Hval & ->).
      exists la, lo. repeat split; try assumption; try apply Hval;
        apply truthy_float_inv; assumption.
    + intros [= <- <-]. split; [reflexivity|]. left. split; [reflexivity|].
      exists v. split; [reflexivity|]. right. exists w. auto.
  - intros [= <- <-]. split; [reflexivity|]. left. split; [reflexivity|].
    exists v. auto.
Qed.

Lemma Player_init_shape (enc : encoded) (p : Player.t) :
  Player.init (Some enc) None = Ok p ->
  (exists v, enc !! "lat" = Some v) /\
  (exists e, enc !! "email" = Some e /\ Player.email p = Some e) /\
  decoded_location (Player.loc p).
Proof.
  unfold Player.init, Player.FromString.
  destruct (Entity.FromString (Player.mk (None, None) None) enc)
    as [[self' obj]|e] eqn:Hfs; cbn [rbind]; [|discriminate].
  apply (Entity_FromString_inv (A:=Player.t)) in Hfs.
  destruct Hfs as [-> Hcase]. cbn [fst snd]. unfold getitem.
  destruct (enc !! "email") as [e|] eqn:He; cbn [rbind]; [|discriminate].
  intros [= <-]. cbn [Player.loc Player.email].
  destruct Hcase as [[-> (v & Hv & _)]|(la & lo & Hla & Hlo & Hval & H1 & H2 & ->)].
  - split; [eauto|]. split; [eauto|]. left. reflexivity.
  - split; [eauto|]. split; [eauto|]. right. exists la, lo. auto.
Qed.



Lemma Zombie_init_shape (enc : encoded) (sp : option R) (c : chasing_t)
    (z : Zombie.t) :
  Zombie.init (Some enc) sp c = Ok z ->
  Zombie.chasing z = c /\
  (exists v, enc !! "lat" = Some v) /\
  (exists v s, enc !! "speed" = Some v /\ float v = Ok s /\
               Zombie.speed z = if truthy (of_float sp) then sp else Some s) /\
  decoded_location (Zombie.loc z).
Proof.
  unfold Zombie.init, Zombie.FromString.
  destruct (Entity.FromString (Zombie.mk (None, None) None (ChaseVal PyNone)) enc)
    as [[self' obj]|e] eqn:Hfs; cbn [rbind]; [|discriminate].
  apply (Entity_FromString_inv (A:=Zombie.t)) in Hfs.
  destruct Hfs as [-> Hcase]. cbn [fst snd]. unfold getitem.
  destruct (enc !! "speed") as [v|] eqn:Hs; cbn [rbind]; [|discriminate].
  destruct v as [|s|]; cbn [float rbind]; try discriminate.
  assert (Hloc : decoded_location (Zombie.loc self') /\
                 exists v, enc !! "lat" = Some v).
  { destruct Hcase as [[-> (v & Hv & _)]|(la & lo & Hla & Hlo & Hval & H1 & H2 & ->)].
    - split; [left; reflexivity|eauto].
    - split; [right; exists la, lo; auto|eauto]. }
  destruct Hloc as [Hloc Hlat].
  destruct (enc !! "chasing"); cbn [rbind Zombie.loc Zombie.speed];
    intros [= <-]; cbn [Zombie.chasing Zombie.loc Zombie.speed];
    (split; [reflexivity|]); (split; [exact Hlat|]);
    (split; [|destruct (truthy (of_float sp)); exact Hloc]);
    exists (PyFloat s), s; (split; [reflexivity|]); (split; [reflexivity|]);
    destruct (truthy (of_float sp)); reflexivity.
Qed.



(** X9. A text without a lat key decodes to no player, pursuer or destination:
    each constructor raises KeyError. *)
Theorem init_missing_lat (enc : encoded) :
  enc !! "lat" = None ->
  Player.init (Some enc) None = Raise KeyError /\
  Zombie.init (Some enc) None (ChaseVal PyNone) = Raise KeyError /\
  Destination.init (Some enc) = Raise KeyError.
Proof.
  intros Hlat.
  unfold Player.init, Player.FromString, Zombie.init, Zombie.FromString,
    Destination.init, Entity.FromString, json_loads, getitem.
  rewrite Hlat. repeat split.
Qed.

Lemma init_missing_lat_witness :
  Player.init (Some ∅) None = Raise KeyError /\
  Zombie.init (Some ∅) None (ChaseVal PyNone) = Raise KeyError /\
  Destination.init (Some ∅) = Raise KeyError.
Proof.
  apply init_missing_lat. apply lookup_empty.
Defined.


Lemma advances_refl (g : Game.t) : advances g g.
Proof. unfold advances. repeat split; auto. Qed.

Lemma advances_trans (g1 g2 g3 : Game.t) :
  advances g1 g2 -> advances g2 g3 -> advances g1 g3.
Proof.
  unfold advances.
  intros (A1 & A2 & A3 & A4 & A5 & A6 & A7 & A8 & A9)
         (B1 & B2 & B3 & B4 & B5 & B6 & B7 & B8 & B9).
  repeat (split; [congruence|]).
  destruct B9 as [[Bd Bw]|[Bd Bw]]; [|right; auto].
  destruct A9 as [[Ad Aw]|[Ad Aw]]; [left|right]; split; congruence.
Qed.

Lemma advances_set_over (g : Game.t) : advances g (Game.set_over false g).
Proof. unfold advances. cbn. repeat (split; [reflexivity|]). right. auto. Qed.

Lemma list_setitem_length {A : Type} (l l' : list A) (i : Z) (x : A) :
  list_setitem l i x = Ok l' -> length l' = length l.
Proof.
  unfold list_setitem. repeat case_decide; try discriminate;
    intros [= <-]; apply length_insert.
Qed.

Lemma SetZombie_advances (i : Z) (z : Zombie.t) (g g' : Game.t) (r : result unit) :
  Game.SetZombie i z g = (r, g') -> advances g g'.
Proof.
  unfold Game.SetZombie, mbind, gets, mraise, lift, modify.
  case_decide; [intros [= _ <-]; apply advances_refl|].
  destruct (Zombie.ToString z); [|intros [= _ <-]; apply advances_refl].
  destruct (list_setitem (Game.zombies g) i a) as [l|e] eqn:Hset;
    intros [= _ <-]; [|apply advances_refl].
  apply list_setitem_length in Hset. unfold advances. cbn.
  repeat (split; [auto|]). left. auto.
Qed.

Lemma Advance_zombies_advances (s : R) (zs : list (result Zombie.t)) :
  forall (i : nat) (g : Game.t) (rng : stream) (r : result unit)
         (g' : Game.t) (rng' : stream),
    Game.Advance_zombies s i zs (g, rng) = (r, (g', rng')) ->
    advances g g'.
Proof.
  induction zs as [|z zs IH]; intros i g rng r g' rng'.
  - cbn. intros [= _ <- _]. apply advances_refl.
  - cbn [Game.Advance_zombies]. unfold mbind at 1. unfold lift at 1.
    destruct z as [zombie|e]; [|intros [= _ <- _]; apply advances_refl].
    unfold mbind at 1. cbn [fst snd].
    destruct (Zombie.Advance s (Game.LocatedPlayers g) zombie rng)
      as [[zombie' rng1]|e]; [|intros [= _ <- _]; apply advances_refl].
    unfold mbind at 1. unfold on_fst at 1. cbn [fst snd].
    destruct (Game.SetZombie (Z.of_nat i) zombie' g) as [r1 g1] eqn:Hset.
    apply SetZombie_advances in Hset.
    destruct r1; [|intros [= _ <- _]; exact Hset].
    intros Hrest. apply IH in Hrest.
    eapply advances_trans; eassumption.
Qed.

Lemma Trigger_zombies_advances (player : Player.t) (zs : list (result Zombie.t)) :
  forall (g g' : Game.t) (r : result unit),
    Game.Trigger_zombies player zs g = (r, g') -> advances g g'.
Proof.
  induction zs as [|z zs IH]; intros g g' r.
  - cbn. intros [= _ <-]. apply advances_refl.
  - cbn [Game.Trigger_zombies]. unfold mbind at 1. unfold lift at 1.
    destruct z as [zombie|e]; [|intros [= _ <-]; apply advances_refl].
    unfold mbind at 1. unfold lift at 1.
    destruct (Entity.DistanceFrom player zombie) as [d|e];
      [|intros [= _ <-]; apply advances_refl].
    unfold mbind at 1. case_decide.
    + unfold Game.Zombie_Trigger, Game.GameOver, modify. intros H1.
      apply IH in H1. eapply advances_trans; [apply advances_set_over|exact H1].
    + unfold mret. apply IH.
Qed.

Lemma Trigger_players_advances (ps : list (result Player.t)) :
  forall (g g' : Game.t) (r : result unit),
    Game.Trigger_players ps g = (r, g') -> advances g g'.
Proof.
  induction ps as [|p ps IH]; intros g g' r.
  - cbn. intros [= _ <-]. apply advances_refl.
  - cbn [Game.Trigger_players]. unfold mbind at 1. unfold lift at 1.
    destruct p as [player|e]; [|intros [= _ <-]; apply advances_refl].
    unfold mbind at 1.
    destruct (Game.Destination g) as [dest|e];
      [|intros [= _ <-]; apply advances_refl].
    unfold mbind at 1. unfold lift at 1.
    destruct (Entity.DistanceFrom player dest) as [d|e];
      [|intros [= _ <-]; apply advances_refl].
    unfold mbind at 1. case_decide;
      [unfold Game.destination_attr_Trigger, mraise;
       intros [= _ <-]; apply advances_refl|].
    unfold mret at 1. unfold mbind at 1. unfold gets at 1.
    unfold mbind at 1.
    destruct (Game.Trigger_zombies player (Game.Zombies g) g) as [r1 g1] eqn:Htz.
    apply Trigger_zombies_advances in Htz.
    destruct r1; [|intros [= _ <-]; exact Htz].
    intros H1. apply IH in H1. eapply advances_trans; eassumption.
Qed.

Lemma Advance_changes (seconds : R) (g : Game.t) (rng : stream) :
  advances g (fst (snd (Game.Advance seconds (g, rng)))).
Proof.
  unfold Game.Advance. unfold mbind at 1. unfold gets at 1. cbn [fst].
  unfold mbind at 1.
  destruct (Game.Advance_zombies _ 0 (Game.Zombies g) (g, rng))
    as [r1 [g1 rng1]] eqn:Hz.
  apply Advance_zombies_advances in Hz.
  destruct r1; [|exact Hz].
  unfold on_fst. cbn [fst snd]. unfold mbind at 1. unfold gets at 1.
  destruct (Game.Trigger_players (Game.LocatedPlayers g1) g1) as [r2 g2] eqn:Ht.
  apply Trigger_players_advances in Ht. cbn [fst snd].
  eapply advances_trans; eassumption.
Qed.

(** X11. Game.Advance, whether it returns or raises, leaves the owner, the
    player emails, the players, the destination, the average speed, the density
    and started as they were, and keeps the number of pursuers; done and the
    winner stay as they were or become done with the pursuers as winners. *)
Theorem Advance_advances (seconds : R) (g : Game.t) (rng : stream) :
  advances g (fst (snd (Game.Advance seconds (g, rng)))).
Proof. apply Advance_changes. Qed.

(** X12. Game.Advance never turns a finished game into an unfinished one, never
    records a win of the humans that was not recorded before, and keeps the
    invariant that a finished game has a recorded winner. *)
Theorem Advance_outcome (seconds : R) (g : Game.t) (rng : stream) :
  let g' := fst (snd (Game.Advance seconds (g, rng))) in
  (Game.done g = true -> Game.done g' = true) /\
  (Game.humans_won g' = Some true -> Game.humans_won g = Some true) /\
  (outcome_recorded g -> outcome_recorded g').
Proof.
  intros g'. pose proof (Advance_changes seconds g rng) as H. fold g' in H.
  destruct H as (_ & _ & _ & _ & _ & _ & _ & _ & [[Hd Hw]|[Hd Hw]]).
  - unfold outcome_recorded. rewrite Hd, Hw. auto.
  - unfold outcome_recorded. rewrite Hd, Hw. repeat split; auto; discriminate.
Qed.


Lemma Zombie_init_text_unlocated (s : R) :
  Zombie.init (Some (zombie_text PyNone PyNone s)) None (ChaseVal PyNone) =
  Ok (Zombie.mk (None, None) (Some s) (ChaseVal PyNone)).
Proof. reflexivity. Qed.

Lemma Player_init_text_unlocated (e : string) :
  Player.init (Some (player_text PyNone PyNone e)) None =
  Ok (Player.mk (None, None) (Some (PyStr e))).
Proof. reflexivity. Qed.

(** A decoded pursuer is its own decoding: writing it back and reading it
    again changes nothing. *)
Lemma Zombie_redecode (enc : encoded) (z : Zombie.t) :
  Zombie.init (Some enc) None (ChaseVal PyNone) = Ok z ->
  exists enc', Zombie.ToString z = Ok enc' /\
               Zombie.init (Some enc') None (ChaseVal PyNone) = Ok z.
Proof.
  intros Hdec. apply Zombie_init_shape in Hdec.
  destruct Hdec as (Hch & _ & (v & s & _ & _ & Hsp) & Hloc).
  destruct z as [l sp c]. cbn in Hch, Hsp, Hloc. subst c sp.
  rewrite Zombie_ToString_text. eexists. split; [reflexivity|].
  destruct Hloc as [->|(la & lo & -> & Hv & H1 & H2)].
  - apply Zombie_init_text_unlocated.
  - cbn [fst snd of_float]. apply Zombie_init_text; assumption.
Qed.

(** X10. A pursuer decoded from a stored text can be written back, and decoding
    the written text gives the same pursuer again: after the first decoding
    nothing more is lost, also for a pursuer whose location was dropped. *)
Theorem Zombie_reencode (enc : encoded) (z : Zombie.t) :
  Zombie.init (Some enc) None (ChaseVal PyNone) = Ok z ->
  exists enc', Zombie.ToString z = Ok enc' /\
               Zombie.init (Some enc') None (ChaseVal PyNone) = Ok z.
Proof. apply Zombie_redecode. Qed.

Lemma Zombie_reencode_witness :
  exists enc', Zombie.ToString (zombie_at 1 1 1) = Ok enc' /\
               Zombie.init (Some enc') None (ChaseVal PyNone) =
               Ok (zombie_at 1 1 1).
Proof.
  apply (Zombie_reencode (zombie_chasing_text (PyFloat 1) (PyFloat 1) 1 "p")).
  apply Zombie_init_chasing_text; [apply valid_1_1|apply one_ne_0..].
Defined.

Lemma list_setitem_nat {A : Type} (l : list A) (i : nat) (x : A) :
  (i < length l)%nat -> list_setitem l (Z.of_nat i) x = Ok (<[i := x]> l).
Proof.
  intros Hi. unfold list_setitem. rewrite decide_True by lia.
  rewrite Nat2Z.id. reflexivity.
Qed.

Lemma Advance_nonpositive (seconds : R) (it : list (result Player.t))
    (self : Zombie.t) (rng : stream) :
  seconds <= 0 ->
  Zombie.Advance seconds it self rng =
  match collect it with
  | Ok _ => Ok (self, rng)
  | Raise e => Raise e
  end.
Proof.
  intros Hs. unfold Zombie.Advance. destruct (collect it); cbn [rbind];
    [|reflexivity].
  destruct (Z.to_nat (up seconds)); cbn [Zombie.Advance_loop];
    rewrite decide_False by lra; reflexivity.
Qed.

Lemma Advance_zombies_nonpositive (s : R) (rest : list encoded) :
  s <= 0 ->
  forall (pre : list encoded) (g g' : Game.t) (rng rng' : stream)
         (r : result unit),
    Game.zombies g = pre ++ rest ->
    Game.Advance_zombies s (length pre)
      (map (fun enc => Zombie.init (Some enc) None (ChaseVal PyNone)) rest)
      (g, rng) = (r, (g', rng')) ->
    Game.Zombies g' = Game.Zombies g /\ rng' = rng.
Proof.
  intros Hs. induction rest as [|enc rest IH]; intros pre g g' rng rng' r Hz.
  - cbn. intros [= _ <- <-]. auto.
  - cbn [map Game.Advance_zombies]. unfold mbind at 1. unfold lift at 1.
    destruct (Zombie.init (Some enc) None (ChaseVal PyNone)) as [z|e] eqn:Hdec;
      [|intros [= _ <- <-]; auto].
    unfold mbind at 1. cbn [fst snd].
    rewrite Advance_nonpositive by exact Hs.
    destruct (collect (Game.LocatedPlayers g)); [|intros [= _ <- <-]; auto].
    unfold mbind at 1. unfold on_fst at 1. cbn [fst snd].
    destruct (Zombie_redecode enc z Hdec) as (enc' & Henc' & Hdec').
    unfold Game.SetZombie. unfold mbind at 1. unfold gets at 1.
    rewrite Hz. rewrite decide_False
      by (rewrite length_app; cbn [length]; lia).
    unfold mbind at 1. unfold lift at 1. rewrite Henc'.
    unfold mbind at 1. unfold gets at 1. rewrite Hz.
    unfold mbind at 1. unfold lift at 1.
    rewrite list_setitem_nat by (rewrite length_app; cbn [length]; lia).
    unfold modify at 1.
    rewrite insert_app_r_alt by lia. rewrite Nat.sub_diag. cbn [insert list_insert].
    intros Hrest.
    assert (Hz1 : Game.zombies (Game.set_zombies (pre ++ enc' :: rest) g)
                  = (pre ++ [enc']) ++ rest).
    { cbn. rewrite <- app_assoc. reflexivity. }
    replace (S (length pre)) with (length (pre ++ [enc'])) in Hrest
      by (rewrite length_app; cbn; lia).
    apply (IH _ _ _ _ _ _ Hz1) in Hrest. destruct Hrest as [HZ ->].
    split; [|reflexivity]. rewrite HZ. unfold Game.Zombies.
    cbn [Game.zombies Game.set_zombies]. rewrite Hz, !map_app. cbn [map].
    rewrite Hdec, Hdec'. reflexivity.
Qed.

Lemma Trigger_players_zombies (ps : list (result Player.t)) (g g' : Game.t)
    (r : result unit) :
  Game.Trigger_players ps g = (r, g') -> Game.Zombies g' = Game.Zombies g.
Proof.
  revert g g' r. induction ps as [|p ps IH]; intros g g' r.
  - cbn. intros [= _ <-]. reflexivity.
  - cbn [Game.Trigger_players]. unfold mbind at 1. unfold lift at 1.
    destruct p as [player|e]; [|intros [= _ <-]; reflexivity].
    unfold mbind at 1.
    destruct (Game.Destination g) as [dest|e];
      [|intros [= _ <-]; reflexivity].
    unfold mbind at 1. unfold lift at 1.
    destruct (Entity.DistanceFrom player dest) as [d|e];
      [|intros [= _ <-]; reflexivity].
    unfold mbind at 1. case_decide;
      [unfold Game.destination_attr_Trigger, mraise;
       intros [= _ <-]; reflexivity|].
    unfold mret at 1. unfold mbind at 1. unfold gets at 1.
    unfold mbind at 1.
    destruct (Game.Trigger_zombies player (Game.Zombies g) g) as [r1 g1] eqn:Htz.
    assert (Hz1 : Game.Zombies g1 = Game.Zombies g).
    { clear IH. revert Htz. generalize (Game.Zombies g) at 1. intros zs.
      revert g g1 r1. induction zs as [|z zs IHz]; intros g g1 r1.
      - cbn. intros [= _ <-]. reflexivity.
      - cbn [Game.Trigger_zombies]. unfold mbind at 1. unfold lift at 1.
        destruct z as [zombie|e]; [|intros [= _ <-]; reflexivity].
        unfold mbind at 1. unfold lift at 1.
        destruct (Entity.DistanceFrom player zombie) as [d'|e];
          [|intros [= _ <-]; reflexivity].
        unfold mbind at 1. case_decide.
        + unfold Game.Zombie_Trigger, Game.GameOver, modify. intros H1.
          apply IHz in H1. exact H1.
        + unfold mret. apply IHz. }
    destruct r1; [|intros [= _ <-]; exact Hz1].
    intros H1. apply IH in H1. congruence.
Qed.

Lemma Advance_nonpositive_run (seconds : R) (g g' : Game.t)
    (rng rng' : stream) (r : result unit) :
  seconds <= 0 ->
  Game.Advance seconds (g, rng) = (r, (g', rng')) ->
  Game.Zombies g' = Game.Zombies g /\ rng' = rng.
Proof.
  intros Hs. unfold Game.Advance. unfold mbind at 1. unfold gets at 1.
  cbn [fst]. unfold mbind at 1.
  assert (Hs' : Rmin seconds MAX_TIME_INTERVAL_SECS <= 0).
  { eapply Rle_trans; [apply Rmin_l|exact Hs]. }
  destruct (Game.Advance_zombies _ 0 (Game.Zombies g) (g, rng))
    as [r1 [g1 rng1]] eqn:Hz.
  apply (Advance_zombies_nonpositive _ _ Hs' [] _ _ _ _ _ eq_refl) in Hz.
  destruct Hz as [HZ ->].
  destruct r1; [|intros [= _ <- <-]; auto].
  unfold on_fst. cbn [fst snd]. unfold mbind at 1. unfold gets at 1.
  destruct (Game.Trigger_players (Game.LocatedPlayers g1) g1) as [r2 g2] eqn:Ht.
  apply Trigger_players_zombies in Ht.
  intros [= _ <- <-]. split; [congruence|reflexivity].
Qed.

(** X13. With no elapsed time (seconds <= 0) Game.Advance moves no pursuer and
    draws no random number: the stored pursuers decode to the same list before
    and after the call, whether it returns or raises. *)
Theorem Advance_no_time_keeps_pursuers (seconds : R) (g : Game.t) (rng : stream) :
  seconds <= 0 ->
  Game.Zombies (fst (snd (Game.Advance seconds (g, rng)))) = Game.Zombies g /\
  snd (snd (Game.Advance seconds (g, rng))) = rng.
Proof.
  intros Hs.
  destruct (Game.Advance seconds (g, rng)) as [r [g' rng']] eqn:Hrun.
  cbn [fst snd]. eapply Advance_nonpositive_run; eassumption.
Qed.

Lemma Advance_no_time_keeps_pursuers_witness :
  Game.Zombies (fst (snd (Game.Advance 0 (game_won, fun _ => 0)))) =
    Game.Zombies game_won /\
  snd (snd (Game.Advance 0 (game_won, fun _ => 0))) = (fun _ => 0).
Proof.
  apply Advance_no_time_keeps_pursuers. lra.
Defined.


Lemma list_setitem_position {A : Type} (l : list A) (index : Z) (x : A) :
  list_setitem l index x =
  match position (length l) index with
  | Some i => Ok (<[i := x]> l)
  | None => Raise IndexError
  end.
Proof.
  unfold list_setitem, position. repeat case_decide; reflexivity.
Qed.

Lemma position_lt (n : nat) (index : Z) (i : nat) :
  position n index = Some i -> (i < n)%nat.
Proof.
  unfold position. repeat case_decide; intros [= <-]; lia.
Qed.

Lemma Player_ToString_email (player : Player.t) (text : encoded) :
  Player.ToString player = Ok text ->
  exists e, Player.Email player = Ok e /\ text !! "email" = Some e.
Proof.
  unfold Player.ToString, Player.DictForJson.
  destruct (Player.Email player) as [e|]; cbn [rbind]; [|discriminate].
  destruct e; cbn [rbind]; try discriminate;
    intros [= <-]; eexists; (split; [reflexivity|]);
    unfold json_dumps; apply lookup_insert_eq.
Qed.

(** X14. If player_emails lists the email keys of the texts in players, in
    order, it still does after AddPlayer; when AddPlayer returns it has appended
    the text and the email of the player, and when it raises the game is
    unchanged. *)
Theorem AddPlayer_in_step (player : Player.t) (g g' : Game.t) (r : result unit) :
  emails_in_step g ->
  Game.AddPlayer player g = (r, g') ->
  emails_in_step g' /\
  match r with
  | Ok _ => exists text e,
      Player.ToString player = Ok text /\ Player.Email player = Ok e /\
      Game.players g' = Game.players g ++ [text] /\
      Game.player_emails g' = Game.player_emails g ++ [e]
  | Raise _ => g' = g
  end.
Proof.
  intros Hinv. unfold Game.AddPlayer, mbind, lift, modify.
  destruct (Player.ToString player) as [text|err] eqn:Hts;
    [|intros [= <- <-]; auto].
  destruct (Player_ToString_email _ _ Hts) as (e & He & Hlook).
  rewrite He. intros [= <- <-]. split.
  - unfold emails_in_step. cbn. apply Forall2_app; [exact Hinv|].
    constructor; [exact Hlook|constructor].
  - exists text, e. repeat split.
Qed.

Lemma AddPlayer_in_step_witness :
  emails_in_step
    (Game.set_player_emails (Game.player_emails game_won ++ [PyStr "q"])
       (Game.set_players
          (Game.players game_won ++ [player_text (PyFloat 2) (PyFloat 1) "q"])
          game_won)) /\
  exists text e,
    Player.ToString (player_at 2 1 "q") = Ok text /\
    Player.Email (player_at 2 1 "q") = Ok e /\
    Game.players
      (Game.set_player_emails (Game.player_emails game_won ++ [PyStr "q"])
         (Game.set_players
            (Game.players game_won ++ [player_text (PyFloat 2) (PyFloat 1) "q"])
            game_won)) = Game.players game_won ++ [text] /\
    Game.player_emails
      (Game.set_player_emails (Game.player_emails game_won ++ [PyStr "q"])
         (Game.set_players
            (Game.players game_won ++ [player_text (PyFloat 2) (PyFloat 1) "q"])
            game_won)) = Game.player_emails game_won ++ [e].
Proof.
  apply (AddPlayer_in_step (player_at 2 1 "q") game_won _ (Ok tt)).
  - unfold emails_in_step, game_won. cbn.
    constructor; [reflexivity|constructor].
  - reflexivity.
Defined.

(** X15. If player_emails lists the email keys of the texts in players, in
    order, it still does after SetPlayer; when SetPlayer returns it has replaced
    the text and the email at the position of the index (a negative index counts
    from the end) and nothing else of the game, and when it raises the game is
    unchanged. *)
Theorem SetPlayer_all_or_nothing (index : Z) (player : Player.t)
    (g g' : Game.t) (r : result unit) :
  emails_in_step g ->
  Game.SetPlayer index player g = (r, g') ->
  emails_in_step g' /\
  match r with
  | Ok _ => exists i text e,
      position (length (Game.players g)) index = Some i /\
      Player.ToString player = Ok text /\ Player.Email player = Ok e /\
      Game.players g' = <[i := text]> (Game.players g) /\
      Game.player_emails g' = <[i := e]> (Game.player_emails g) /\
      Game.set_players [] (Game.set_player_emails [] g') =
        Game.set_players [] (Game.set_player_emails [] g)
  | Raise _ => g' = g
  end.
Proof.
  intros Hinv. pose proof (Forall2_length _ _ _ Hinv) as Hlen.
  unfold Game.SetPlayer. unfold mbind at 1. unfold gets at 1.
  case_decide; [unfold mraise; intros [= <- <-]; auto|].
  unfold mbind at 1. unfold lift at 1.
  destruct (Player.ToString player) as [text|err] eqn:Hts;
    [|intros [= <- <-]; auto].
  destruct (Player_ToString_email _ _ Hts) as (e & He & Hlook).
  unfold mbind at 1. unfold gets at 1. unfold mbind at 1. unfold lift at 1.
  rewrite list_setitem_position.
  destruct (position (length (Game.players g)) index) as [i|] eqn:Hpos;
    [|intros [= <- <-]; auto].
  unfold mbind, modify, lift, gets. rewrite He.
  cbn [Game.player_emails Game.set_players].
  rewrite list_setitem_position, <- Hlen, Hpos.
  intros [= <- <-]. split.
  - unfold emails_in_step. cbn.
    apply Forall2_insert; [exact Hinv|exact Hlook].
  - exists i, text, e. repeat split.
Qed.

Lemma SetPlayer_all_or_nothing_witness :
  emails_in_step game_won /\ game_won = game_won.
Proof.
  apply (SetPlayer_all_or_nothing 7 (player_at 1 1 "p") game_won game_won
           (Raise ModelStateError)).
  - unfold emails_in_step, game_won. cbn.
    constructor; [reflexivity|constructor].
  - unfold Game.SetPlayer, mbind, gets, mraise. rewrite decide_True by (cbn; lia).
    reflexivity.
Defined.

(** X16. SetPlayer does not reject a negative index: with -k, k between 1 and
    the number of players (and as many emails as players), it overwrites the
    player and the email at position length - k. *)
Theorem SetPlayer_negative_index (player : Player.t) (text : encoded) (e : pyval)
    (g : Game.t) (k : nat) :
  (0 < k <= length (Game.players g))%nat ->
  length (Game.player_emails g) = length (Game.players g) ->
  Player.ToString player = Ok text -> Player.Email player = Ok e ->
  Game.SetPlayer (- Z.of_nat k) player g =
  (Ok tt,
   Game.set_player_emails
     (<[(length (Game.players g) - k)%nat := e]> (Game.player_emails g))
     (Game.set_players
        (<[(length (Game.players g) - k)%nat := text]> (Game.players g)) g)).
Proof.
  intros Hk Hlen Hts He.
  unfold Game.SetPlayer, mbind, gets, lift, modify.
  rewrite decide_False by lia. rewrite Hts.
  rewrite list_setitem_position.
  assert (Hpos : forall n, n = length (Game.players g) ->
            position n (- Z.of_nat k) = Some (n - k)%nat).
  { intros n ->. unfold position. rewrite decide_False by lia.
    rewrite decide_True by lia. f_equal. lia. }
  rewrite (Hpos _ eq_refl). rewrite He. cbn [Game.player_emails Game.set_players].
  rewrite list_setitem_position, (Hpos _ Hlen), Hlen. reflexivity.
Qed.

Lemma SetPlayer_negative_index_witness :
  Game.SetPlayer (- Z.of_nat 1) (player_at 2 1 "p") game_won =
  (Ok tt,
   Game.set_player_emails
     (<[(length (Game.players game_won) - 1)%nat := PyStr "p"]>
        (Game.player_emails game_won))
     (Game.set_players
        (<[(length (Game.players game_won) - 1)%nat :=
             player_text (PyFloat 2) (PyFloat 1) "p"]> (Game.players game_won))
        game_won)).
Proof.
  apply SetPlayer_negative_index.
  - cbn. lia.
  - reflexivity.
  - reflexivity.
  - reflexivity.
Defined.

(** X17. When SetZombie(i, zombie) returns, i was a position of the list, the
    i-th element of Zombies() is the decoding of the text written for the
    pursuer, and every other element of Zombies() is as before. *)
Theorem SetZombie_then_Zombies (i : nat) (zombie : Zombie.t) (g g' : Game.t) :
  Game.SetZombie (Z.of_nat i) zombie g = (Ok tt, g') ->
  (i < length (Game.zombies g))%nat /\
  exists text,
    Zombie.ToString zombie = Ok text /\
    Game.zombies g' = <[i := text]> (Game.zombies g) /\
    Game.Zombies g' !! i =
      Some (Zombie.init (Some text) None (ChaseVal PyNone)) /\
    forall j, j <> i -> Game.Zombies g' !! j = Game.Zombies g !! j.
Proof.
  unfold Game.SetZombie. unfold mbind at 1. unfold gets at 1.
  case_decide as Hn; [discriminate|].
  unfold mbind at 1. unfold lift at 1.
  destruct (Zombie.ToString zombie) as [text|e]; [|discriminate].
  unfold mbind at 1. unfold gets at 1. unfold mbind at 1. unfold lift at 1.
  assert (Hi : (i < length (Game.zombies g))%nat) by lia.
  rewrite list_setitem_nat by exact Hi. unfold modify.
  intros [= <-]. split; [exact Hi|]. exists text.
  split; [reflexivity|]. split; [reflexivity|].
  unfold Game.Zombies. cbn [Game.zombies Game.set_zombies].
  rewrite list_fmap_insert. split.
  - apply list_lookup_insert_eq. rewrite length_fmap. exact Hi.
  - intros j Hj. apply list_lookup_insert_ne. auto.
Qed.

Lemma SetZombie_then_Zombies_witness :
  (0 < length (Game.zombies game_won))%nat /\
  exists text,
    Zombie.ToString (zombie_at 2 1 1) = Ok text /\
    Game.zombies (Game.set_zombies [zombie_text (PyFloat 2) (PyFloat 1) 1] game_won)
      = <[0%nat := text]> (Game.zombies game_won) /\
    Game.Zombies (Game.set_zombies [zombie_text (PyFloat 2) (PyFloat 1) 1] game_won)
      !! 0%nat = Some (Zombie.init (Some text) None (ChaseVal PyNone)) /\
    forall j, j <> 0%nat ->
      Game.Zombies (Game.set_zombies [zombie_text (PyFloat 2) (PyFloat 1) 1] game_won)
        !! j = Game.Zombies game_won !! j.
Proof.
  apply (SetZombie_then_Zombies 0 (zombie_at 2 1 1) game_won).
  unfold Game.SetZombie, mbind, gets, lift, modify.
  rewrite decide_False by (cbn; lia). unfold zombie_at.
  rewrite Zombie_ToString_text. cbn [game_won Game.zombies].
  rewrite (list_setitem_head (zombie_text (PyFloat 1) (PyFloat 1) 1)).
  reflexivity.
Defined.


Lemma int_range (x : R) (w : Z) : 0 <= x -> x < IZR w -> (0 <= int x < w)%Z.
Proof.
  intros H0 Hw. split; [apply int_nonneg; exact H0|].
  unfold int. rewrite decide_True by exact H0.
  destruct (base_Int_part x) as [Hle _].
  apply lt_IZR. lra.
Qed.

Lemma randint_in_range (a b : Z) (g : Game.t) (rng : stream) :
  in_unit rng -> (a <= b)%Z ->
  exists k, (a <= k <= b)%Z /\
    StartHandler.randint a b (g, rng) = (Ok k, (g, fun n => rng (S n))).
Proof.
  intros Hrng Hab. unfold StartHandler.randint.
  rewrite decide_False by lia.
  unfold mbind, StartHandler.draw, random, mret. cbn [fst snd].
  eexists. split; [|reflexivity].
  destruct (Hrng 0%nat) as [H0 H1].
  assert (Hw : 0 < IZR (b + 1 - a)) by (apply IZR_lt; lia).
  assert (0 <= int (rng 0%nat * IZR (b + 1 - a)) < b + 1 - a)%Z; [|lia].
  apply int_range; nra.
Qed.

Lemma RandomPointNear_value (lat lon distance : R) (g : Game.t)
    (rng : stream) :
  -89 <= lat <= 89 -> -179 <= lon <= 179 ->
  exists base_to_distance,
    0 < base_to_distance /\
    base_to_distance =
      great_circle lat lon (lat + sin (PI * 2 * rng 0%nat))
        (lon + cos (PI * 2 * rng 0%nat)) /\
    StartHandler.RandomPointNear lat lon distance (g, rng) =
    (Ok (lat + sin (PI * 2 * rng 0%nat) * (distance / base_to_distance),
         lon + cos (PI * 2 * rng 0%nat) * (distance / base_to_distance)),
     (g, fun n => rng (S n))).
Proof.
  intros Hlat Hlon. set (r := PI * 2 * rng 0%nat).
  pose proof (SIN_bound r) as Hsin. pose proof (COS_bound r) as Hcos.
  assert (Hv1 : valid_coordinate lat lon) by (unfold valid_coordinate; lra).
  assert (Hv2 : valid_coordinate (lat + sin r) (lon + cos r))
    by (unfold valid_coordinate; lra).
  assert (Hne : great_circle lat lon (lat + sin r) (lon + cos r) <> 0).
  { intros Hz. apply great_circle_eq0 in Hz.
    apply haversine_a_eq0 in Hz; [|assumption..].
    destruct Hz as [Hs [Hc|[Hp|Ha]]].
    - pose proof (sin2_cos2 r) as H1. unfold Rsqr in H1.
      assert (sin r = 0) by lra. assert (cos r = 0) by lra. nra.
    - unfold Rabs in Hp. destruct (Rcase_abs lat); lra.
    - unfold Rabs in Ha. destruct (Rcase_abs (lon + cos r - lon)); lra. }
  exists (great_circle lat lon (lat + sin r) (lon + cos r)).
  split.
  { pose proof (great_circle_nonneg lat lon (lat + sin r) (lon + cos r)). lra. }
  split; [reflexivity|].
  unfold StartHandler.RandomPointNear.
  unfold mbind at 1. unfold StartHandler.draw, random. cbn [fst snd]. fold r.
  unfold mbind at 1. unfold lift at 1.
  rewrite (SetLocation_valid (A:=Entity.t)) by exact Hv1.
  unfold mbind at 1. unfold lift at 1.
  rewrite (SetLocation_valid (A:=Entity.t)) by exact Hv2.
  unfold mbind at 1. unfold lift at 1.
  unfold Entity.DistanceFrom, Entity.DistanceFromLatLon.
  cbn [Entity.Lat Entity.Lon location with_location Entity.entity Entity.loc
       fst snd].
  rewrite decide_False by exact Hne. unfold mret.
  f_equal. f_equal. f_equal; ring.
Qed.

(** X18. For a centre with latitude within [-89, 89] and longitude within [-179,
    179] RandomPointNear does not raise: the step of one degree from the centre
    has a positive distance, the result is the centre plus (sin r, cos r) times
    the wanted distance over that distance, r being 2 pi times one random draw,
    and the game is not changed. *)
Theorem RandomPointNear_returns (lat lon distance : R) (g : Game.t)
    (rng : stream) :
  -89 <= lat <= 89 -> -179 <= lon <= 179 ->
  exists base_to_distance,
    0 < base_to_distance /\
    base_to_distance =
      great_circle lat lon (lat + sin (PI * 2 * rng 0%nat))
        (lon + cos (PI * 2 * rng 0%nat)) /\
    StartHandler.RandomPointNear lat lon distance (g, rng) =
    (Ok (lat + sin (PI * 2 * rng 0%nat) * (distance / base_to_distance),
         lon + cos (PI * 2 * rng 0%nat) * (distance / base_to_distance)),
     (g, fun n => rng (S n))).
Proof. apply RandomPointNear_value. Qed.

Lemma RandomPointNear_returns_witness :
  exists base_to_distance,
    0 < base_to_distance /\
    base_to_distance =
      great_circle 1 1 (1 + sin (PI * 2 * (fun _ : nat => 0.5) 0%nat))
        (1 + cos (PI * 2 * (fun _ : nat => 0.5) 0%nat)) /\
    StartHandler.RandomPointNear 1 1 30 (game_ready, fun _ => 0.5) =
    (Ok (1 + sin (PI * 2 * (fun _ : nat => 0.5) 0%nat) * (30 / base_to_distance),
         1 + cos (PI * 2 * (fun _ : nat => 0.5) 0%nat) * (30 / base_to_distance)),
     (game_ready, fun n => (fun _ => 0.5) (S n))).
Proof.
  apply RandomPointNear_returns; lra.
Defined.

Lemma int_ge (x : R) (n : Z) : (0 <= n)%Z -> IZR n <= x -> (n <= int x)%Z.
Proof.
  intros Hn Hx. unfold int.
  assert (0 <= x) by (apply IZR_le in Hn; lra).
  rewrite decide_True by assumption.
  destruct (base_Int_part x) as [_ Hgt].
  assert (IZR n - 1 < IZR (Int_part x)) by lra.
  rewrite <- minus_IZR in H0. apply lt_IZR in H0. lia.
Qed.

(** A run of the loop of [PopulateZombies] that returns has filled the
    game up to [num] pursuers, and not beyond. *)
Lemma PopulateZombies_loop_count (num : Z) (elat elon radius : R) (fuel : nat) :
  forall (g g' : Game.t) (rng rng' : stream) (u : unit),
    0 < Game.average_zombie_speed g -> in_unit rng ->
    (num - Z.of_nat (length (Game.zombies g)) <= Z.of_nat fuel)%Z ->
    StartHandler.PopulateZombies_loop fuel num elat elon radius (g, rng) =
      (Ok u, (g', rng')) ->
    Z.of_nat (length (Game.zombies g')) =
    Z.max (Z.of_nat (length (Game.zombies g))) num.
Proof.
  induction fuel as [|fuel IH]; intros g g' rng rng' u Hs Hrng Hfuel.
  - rewrite PopulateZombies_loop_full by lia. intros [= _ <- _]. lia.
  - cbn [StartHandler.PopulateZombies_loop]. unfold mbind at 1.
    unfold gets at 1. cbn [fst].
    case_decide as Hn; [|unfold mret; intros [= _ <- _]; lia].
    unfold mbind at 1.
    set (m := Z.min MAX_ZOMBIE_CLUSTER_SIZE
                (num - Z.of_nat (length (Game.zombies g)))).
    assert (Hm : (1 <= m)%Z) by (unfold m, MAX_ZOMBIE_CLUSTER_SIZE; lia).
    destruct (randint_in_range 1 m g rng Hrng Hm) as (k & Hk & Hrun).
    rewrite Hrun. unfold mbind at 1.
    destruct (StartHandler.AddZombieCluster elat elon radius k
                (g, fun n => rng (S n))) as [rc [g2 rng2]] eqn:Hc.
    apply AddZombieCluster_spec in Hc; [|exact Hs|apply in_unit_tail, Hrng].
    destruct Hc as (Hrng2 & added & Hadd & Hlen).
    destruct rc as [u2|e]; [|discriminate].
    specialize (Hlen u2 eq_refl). apply adds_length in Hadd as Hl.
    intros Hrest. apply IH in Hrest;
      [|rewrite (adds_speed _ _ _ Hadd); exact Hs|exact Hrng2|lia].
    rewrite Hrest. unfold m in Hk. lia.
Qed.

Lemma PopulateZombies_length (g g' : Game.t) (rng rng' : stream) (u : unit) :
  0 < Game.average_zombie_speed g -> in_unit rng ->
  StartHandler.PopulateZombies (g, rng) = (Ok u, (g', rng')) ->
  exists num,
    (20 <= num)%Z /\
    Z.of_nat (length (Game.zombies g')) =
      Z.max (Z.of_nat (length (Game.zombies g))) num.
Proof.
  intros Hs Hrng. unfold StartHandler.PopulateZombies.
  unfold mbind at 1. unfold gets at 1. cbn [fst].
  unfold mbind at 1. unfold lift at 1.
  destruct (StartHandler.find_owner _ _ _) as [[owner|]|e];
    try (unfold mraise; discriminate).
  destruct (_ || _); [unfold mraise; discriminate|].
  unfold mbind at 1. unfold lift at 1.
  destruct (StartHandler.GetZombieEpicenter g owner) as [epicenter|e];
    [|discriminate].
  unfold mbind at 1. unfold lift at 1.
  destruct (Game.Destination g) as [destination|e]; [|discriminate].
  unfold mbind at 1. unfold lift at 1.
  destruct (Entity.DistanceFrom owner destination) as [radius_m|e];
    [|discriminate].
  set (num := int (Rmax _ MIN_NUM_ZOMBIES)).
  assert (Hnum : (20 <= num)%Z).
  { unfold num. apply int_ge; [lia|]. unfold MIN_NUM_ZOMBIES. apply Rmax_r. }
  intros Hrun. exists num. split; [exact Hnum|].
  eapply PopulateZombies_loop_count; [exact Hs|exact Hrng| |exact Hrun]. lia.
Qed.



Lemma in_unit_zeros : in_unit zeros.
Proof. intros n. unfold zeros. lra. Qed.

Lemma int_IZR (n : Z) : (0 <= n)%Z -> int (IZR n) = n.
Proof.
  intros Hn. unfold int. rewrite decide_True by (apply IZR_le in Hn; lra).
  unfold Int_part. rewrite <- (tech_up (IZR n) (n + 1)); [lia| |];
    rewrite plus_IZR; lra.
Qed.

Lemma RandomPointNear_zeros (lat lon x : R) (g : Game.t) :
  -89 <= lat <= 89 -> -179 <= lon <= 179 ->
  StartHandler.RandomPointNear lat lon (0 * x) (g, zeros) =
  (Ok (lat, lon), (g, zeros)).
Proof.
  intros Hlat Hlon.
  destruct (RandomPointNear_value lat lon (0 * x) g zeros Hlat Hlon)
    as (d & Hd & _ & Hrun).
  rewrite Hrun. f_equal. f_equal. f_equal; unfold Rdiv; ring.
Qed.

Lemma AddZombie_zeros (lat lon : R) (g : Game.t) :
  -89 <= lat <= 89 -> -179 <= lon <= 179 ->
  Game.average_zombie_speed g <> 0 ->
  StartHandler.AddZombie lat lon (g, zeros) =
  (Ok tt,
   (Game.set_zombies
      (Game.zombies g ++ [zombie_text (PyFloat lat) (PyFloat lon) (slowest g)]) g,
    zeros)).
Proof.
  intros Hlat Hlon Hs. unfold StartHandler.AddZombie.
  unfold mbind at 1. unfold gets at 1. cbn [fst].
  unfold mbind at 1. unfold StartHandler.draw at 1.
  unfold random at 1. cbn [fst snd].
  unfold mbind at 1. unfold StartHandler.draw at 1.
  unfold random at 1. cbn [fst snd].
  change (zeros 0%nat) with 0. change (zeros 1%nat) with 0.
  change (fun n : nat => zeros (S (S n))) with zeros.
  unfold mbind at 1. rewrite RandomPointNear_zeros by assumption.
  unfold mbind at 1. unfold lift at 1.
  unfold Zombie.init. cbn [rbind of_float].
  rewrite truthy_float by (unfold ZOMBIE_SPEED_VARIANCE; nra).
  cbn [Zombie.loc Zombie.speed Zombie.chasing fst snd].
  unfold mbind at 1. unfold lift at 1.
  rewrite (SetLocation_valid (A:=Zombie.t)) by (unfold valid_coordinate; lra).
  reflexivity.
Qed.

Lemma AddZombieCluster_zeros (lat lon radius : R) (g : Game.t) :
  -89 <= lat <= 89 -> -179 <= lon <= 179 ->
  Game.average_zombie_speed g <> 0 ->
  StartHandler.AddZombieCluster lat lon radius 1 (g, zeros) =
  (Ok tt,
   (Game.set_zombies
      (Game.zombies g ++ [zombie_text (PyFloat lat) (PyFloat lon) (slowest g)]) g,
    zeros)).
Proof.
  intros Hlat Hlon Hs. unfold StartHandler.AddZombieCluster.
  unfold mbind at 1. unfold StartHandler.draw at 1. unfold random at 1.
  cbn [fst snd]. change (zeros 0%nat) with 0.
  change (fun n : nat => zeros (S n)) with zeros.
  unfold mbind at 1. rewrite RandomPointNear_zeros by assumption.
  cbn [fst snd]. change (Z.to_nat 1) with 1%nat.
  cbn [StartHandler.AddZombie_times]. unfold mbind at 1.
  rewrite AddZombie_zeros by assumption. reflexivity.
Qed.

Lemma randint_zeros (m : Z) (g : Game.t) :
  (1 <= m)%Z -> StartHandler.randint 1 m (g, zeros) = (Ok 1%Z, (g, zeros)).
Proof.
  intros Hm. unfold StartHandler.randint. rewrite decide_False by lia.
  unfold mbind, StartHandler.draw, random, mret. cbn [fst snd].
  change (zeros 0%nat) with 0. rewrite Rmult_0_l.
  change 0 with (IZR 0). rewrite int_IZR by lia. reflexivity.
Qed.

Lemma PopulateZombies_loop_zeros (num : Z) (lat lon radius : R) (fuel : nat) :
  -89 <= lat <= 89 -> -179 <= lon <= 179 ->
  forall g : Game.t,
    Game.average_zombie_speed g <> 0 ->
    (Z.of_nat (length (Game.zombies g)) + Z.of_nat fuel = num)%Z ->
    StartHandler.PopulateZombies_loop fuel num lat lon radius (g, zeros) =
    (Ok tt,
     (Game.set_zombies
        (Game.zombies g ++
         repeat (zombie_text (PyFloat lat) (PyFloat lon) (slowest g)) fuel) g,
      zeros)).
Proof.
  intros Hlat Hlon. induction fuel as [|fuel IH]; intros g Hs Hn.
  - rewrite PopulateZombies_loop_full by lia. cbn [repeat].
    rewrite app_nil_r. destruct g; reflexivity.
  - cbn [StartHandler.PopulateZombies_loop]. unfold mbind at 1.
    unfold gets at 1. cbn [fst]. rewrite decide_True by lia.
    unfold mbind at 1.
    rewrite randint_zeros by (unfold MAX_ZOMBIE_CLUSTER_SIZE; lia).
    unfold mbind at 1. rewrite AddZombieCluster_zeros by assumption.
    rewrite IH; [|exact Hs|cbn; rewrite length_app; cbn; lia].
    cbn [Game.zombies Game.set_zombies repeat].
    rewrite <- app_assoc. reflexivity.
Qed.

(** A complete run of the generator: on [game_ready] and draws that are
    all 0 it places 20 pursuers at the midpoint of owner and destination. *)
Lemma PopulateZombies_runs :
  StartHandler.PopulateZombies (game_ready, zeros) =
  (Ok tt,
   (Game.set_zombies
      (repeat (zombie_text (PyFloat (1 + (1.001 - 1) / 2))
                 (PyFloat (1 + (1 - 1) / 2)) (slowest game_ready)) 20)
      game_ready,
    zeros)).
Proof.
  pose proof earth_degree_bounds as HK.
  unfold StartHandler.PopulateZombies.
  unfold mbind at 1. unfold gets at 1. cbn [fst].
  unfold mbind at 1. unfold lift at 1.
  unfold Game.Players. cbn [Game.players game_ready map].
  rewrite Player_init_text by (apply valid_1_1 || apply one_ne_0).
  cbn [StartHandler.find_owner rbind Player.Email Player.email Game.owner].
  rewrite decide_True by reflexivity.
  cbn [Entity.Lat Entity.Lon location Player.entity Player.loc fst snd of_float].
  rewrite !truthy_float by lra. cbn [negb orb].
  assert (Hdest : Game.Destination game_ready =
                  Ok (Destination.mk (Some 1.001, Some 1))).
  { unfold Game.Destination, game_ready. cbn [Game.destination].
    apply Destination_init_text; unfold valid_coordinate; lra. }
  unfold mbind at 1. unfold lift at 1.
  unfold StartHandler.GetZombieEpicenter. rewrite Hdest.
  cbn [rbind Entity.Lat Entity.Lon location Player.entity Destination.entity
       Player.loc Destination.loc fst snd].
  unfold mbind at 1. unfold lift at 1.
  unfold mbind at 1. unfold lift at 1.
  unfold Entity.DistanceFrom, Entity.DistanceFromLatLon.
  cbn [Entity.Lat Entity.Lon location Player.entity Destination.entity
       Player.loc Destination.loc fst snd].
  rewrite great_circle_north by lra.
  set (radius_m := earth_degree * (1.001 - 1)).
  assert (Hnum : int (Rmax (Game.zombie_density game_ready *
                              (PI * (radius_m / 1000) * (radius_m / 1000)))
                        MIN_NUM_ZOMBIES) = 20%Z).
  { rewrite Rmax_right.
    - unfold MIN_NUM_ZOMBIES. apply (int_IZR 20). lia.
    - unfold MIN_NUM_ZOMBIES, radius_m. cbn [Game.zombie_density game_ready].
      pose proof PI_4. pose proof PI_RGT_0.
      assert (0 < earth_degree * (1.001 - 1) / 1000 < 0.2) by lra.
      nra. }
  rewrite Hnum. change (Z.to_nat 20) with 20%nat.
  rewrite PopulateZombies_loop_zeros; [reflexivity|lra|lra| |reflexivity].
  cbn. lra.
Qed.



Lemma Player_init_email (enc : encoded) (p : Player.t) :
  Player.init (Some enc) None = Ok p ->
  exists e, Player.email p = Some e /\ Player.Email p = Ok e.
Proof.
  intros H. apply Player_init_shape in H. destruct H as (_ & (e & _ & He) & _).
  exists e. split; [exact He|]. unfold Player.Email. rewrite He. reflexivity.
Qed.

Lemma Authorize_loop_collect (email : string) (texts : list encoded) :
  forall ps,
    collect (map (fun enc => Player.init (Some enc) None) texts) = Ok ps ->
    GameHandler.Authorize_loop email
      (map (fun enc => Player.init (Some enc) None) texts) =
    Ok (existsb (has_email email) ps).
Proof.
  induction texts as [|enc texts IH]; intros ps; cbn [map collect].
  - intros [= <-]. reflexivity.
  - cbn [GameHandler.Authorize_loop].
    destruct (Player.init (Some enc) None) as [p|e] eqn:Hdec; cbn [rbind];
      [|discriminate].
    destruct (collect _) as [l|e]; cbn [rbind]; [|discriminate].
    intros [= <-]. destruct (Player_init_email _ _ Hdec) as (e & He & HE).
    rewrite HE. cbn [rbind existsb]. unfold has_email at 1. rewrite He.
    destruct (email_is e email); [reflexivity|]. apply IH. reflexivity.
Qed.

(** X21. When every stored player decodes, Authorize accepts a request exactly
    if a user is logged in and some player of the game has the email of the
    user; otherwise it raises AuthorizationError. *)
Theorem Authorize_players_only (user : option string) (g : Game.t)
    (ps : list Player.t) :
  collect (Game.Players g) = Ok ps ->
  GameHandler.Authorize user g =
  match user with
  | Some email =>
      if existsb (has_email email) ps then Returned tt
      else Failed AuthorizationError
  | None => Failed AuthorizationError
  end.
Proof.
  intros Hps. destruct user as [email|]; [|reflexivity].
  unfold GameHandler.Authorize, Game.Players.
  rewrite (Authorize_loop_collect email _ ps Hps).
  destruct (existsb (has_email email) ps); reflexivity.
Qed.

Lemma Authorize_players_only_witness :
  GameHandler.Authorize (Some "q") game_won =
  if existsb (has_email "q") [player_at 1 1 "p"] then Returned tt
  else Failed AuthorizationError.
Proof.
  apply (Authorize_players_only (Some "q") game_won [player_at 1 1 "p"]).
  unfold Game.Players, game_won. cbn [Game.players map collect].
  rewrite Player_init_text by (apply valid_1_1 || apply one_ne_0).
  reflexivity.
Defined.

Lemma Authorize_loop_found (user : string) (pre post : list encoded)
    (enc : encoded) (p : Player.t) :
  others user pre ->
  Player.init (Some enc) None = Ok p -> has_email user p = true ->
  GameHandler.Authorize_loop user
    (map (fun enc => Player.init (Some enc) None) (pre ++ enc :: post)) = Ok true.
Proof.
  intros Hpre Hdec Hmail. induction Hpre as [|x pre (q & Hq & Hne) _ IH];
    cbn [app map GameHandler.Authorize_loop].
  - rewrite Hdec. cbn [rbind]. destruct (Player_init_email _ _ Hdec) as (e & He & HE).
    rewrite HE. cbn [rbind]. unfold has_email in Hmail. rewrite He in Hmail.
    rewrite Hmail. reflexivity.
  - rewrite Hq. cbn [rbind]. destruct (Player_init_email _ _ Hq) as (e & He & HE).
    rewrite HE. cbn [rbind]. unfold has_email in Hne. rewrite He in Hne.
    rewrite Hne. exact IH.
Qed.

Lemma has_email_inv (user : string) (p : Player.t) :
  has_email user p = true -> Player.email p = Some (PyStr user).
Proof.
  unfold has_email. destruct (Player.email p) as [[| |s]|]; cbn; try discriminate.
  intros H. apply bool_decide_eq_true in H. subst. reflexivity.
Qed.

(** What the loop of [Put] does when it reaches the player of [user]. *)
Lemma Put_loop_found (user : string) (lat lon : R) (pre post : list encoded)
    (enc : encoded) (p : Player.t) (m : Player.t -> M Game.t unit) :
  others user pre ->
  Player.init (Some enc) None = Ok p -> has_email user p = true ->
  forall (i : nat) (g : Game.t),
    PutHandler.Put_loop user lat lon i
      (map (fun enc => Player.init (Some enc) None) (pre ++ enc :: post)) g =
    (if ne_float (Entity.Lat p) lat || ne_float (Entity.Lon p) lon
     then player <~ lift (Entity.SetLocation (PyFloat lat) (PyFloat lon) p) ;;
          Game.SetPlayer (Z.of_nat (i + length pre)) player
     else mret tt) g.
Proof.
  intros Hpre Hdec Hmail. induction Hpre as [|x pre (q & Hq & Hne) _ IH];
    intros i g; cbn [app map PutHandler.Put_loop length].
  - unfold mbind at 1. unfold lift at 1. rewrite Hdec.
    destruct (Player_init_email _ _ Hdec) as (e & He & HE).
    unfold mbind at 1. unfold lift at 1. rewrite HE.
    unfold has_email in Hmail. rewrite He in Hmail. rewrite Hmail.
    rewrite Nat.add_0_r. reflexivity.
  - unfold mbind at 1. unfold lift at 1. rewrite Hq.
    destruct (Player_init_email _ _ Hq) as (e & He & HE).
    unfold mbind at 1. unfold lift at 1. rewrite HE.
    unfold has_email in Hne. rewrite He in Hne. rewrite Hne.
    rewrite IH. replace (S i + length pre)%nat with (i + S (length pre))%nat by lia.
    reflexivity.
Qed.

(** X23. Put by a player of a game that has not started, with a valid coordinate
    different from the stored location of that player (and as many emails as
    players stored), returns and replaces the text of that player by one at the
    new coordinate, with the email rewritten at the same position; nothing else
    of the game changes, and the texts after that player need not even decode. *)
Theorem Put_moves_player (user : string) (lat lon seconds : R)
    (pre post : list encoded) (enc : encoded) (p : Player.t)
    (g : Game.t) (rng : stream) :
  Game.players g = pre ++ enc :: post ->
  length (Game.player_emails g) = length (Game.players g) ->
  others user pre ->
  Player.init (Some enc) None = Ok p -> has_email user p = true ->
  Player.loc p <> (Some lat, Some lon) ->
  valid_coordinate lat lon ->
  Game.started g = false ->
  PutHandler.Put user lat lon seconds (g, rng) =
  (Returned tt,
   (Game.set_player_emails
      (<[length pre := PyStr user]> (Game.player_emails g))
      (Game.set_players
         (pre ++ player_text (PyFloat lat) (PyFloat lon) user :: post) g),
    rng)).
Proof.
  intros Hpl Hlen Hpre Hdec Hmail Hloc Hv Hst.
  unfold PutHandler.Put. cbn [fst].
  unfold GameHandler.Authorize, Game.Players. rewrite Hpl.
  rewrite (Authorize_loop_found user pre post enc p Hpre Hdec Hmail).
  unfold run. unfold mbind at 1. unfold on_fst at 1. cbn [fst snd].
  unfold mbind at 1. unfold gets at 1. unfold Game.Players. rewrite Hpl.
  rewrite (Put_loop_found user lat lon pre post enc p (fun _ => mret tt)
             Hpre Hdec Hmail).
  assert (Hne : ne_float (Entity.Lat p) lat || ne_float (Entity.Lon p) lon = true).
  { unfold Entity.Lat, Entity.Lon. cbn [location Player.entity].
    destruct (Player.loc p) as [[la|] [lo|]]; cbn [fst snd ne_float];
      try reflexivity; try apply orb_true_r.
    destruct (decide (la = lat)) as [->|Hla].
    - destruct (decide (lo = lon)) as [->|Hlo]; [congruence|].
      rewrite (bool_decide_eq_false_2 _ Hlo). apply orb_true_r.
    - rewrite (bool_decide_eq_false_2 _ Hla). reflexivity. }
  rewrite Hne. apply has_email_inv in Hmail.
  unfold mbind at 1. unfold lift at 1.
  rewrite (SetLocation_valid (A:=Player.t)) by exact Hv.
  cbn [with_location Player.entity]. rewrite Hmail.
  unfold Game.SetPlayer. unfold mbind at 1. unfold gets at 1.
  rewrite Hpl. rewrite decide_False
    by (rewrite length_app; cbn [length]; lia).
  unfold mbind at 1. unfold lift at 1. rewrite Player_ToString_text.
  cbn [fst snd of_float].
  unfold mbind at 1. unfold gets at 1. unfold mbind at 1. unfold lift at 1.
  rewrite Hpl. cbn [Nat.add].
  rewrite list_setitem_nat by (rewrite length_app; cbn [length]; lia).
  unfold mbind at 1. unfold modify at 1.
  unfold mbind at 1. unfold lift at 1. cbn [Player.Email Player.email].
  unfold mbind at 1. unfold gets at 1. cbn [Game.player_emails Game.set_players].
  unfold mbind at 1. unfold lift at 1.
  rewrite list_setitem_nat
    by (rewrite Hlen, Hpl, length_app; cbn [length]; lia).
  unfold modify. unfold mbind at 1. unfold gets at 1. cbn [fst snd].
  cbn [Game.started Game.set_player_emails Game.set_players]. rewrite Hst.
  unfold mret. rewrite insert_app_r_alt by lia. rewrite Nat.sub_diag.
  reflexivity.
Qed.

Lemma Put_moves_player_witness :
  PutHandler.Put "p" 2 1 0 (game_lobby, zeros) =
  (Returned tt,
   (Game.set_player_emails
      (<[length (@nil encoded) := PyStr "p"]> (Game.player_emails game_lobby))
      (Game.set_players
         ([] ++ player_text (PyFloat 2) (PyFloat 1) "p" :: []) game_lobby),
    zeros)).
Proof.
  apply (Put_moves_player "p" 2 1 0 [] []
           (player_text (PyFloat 1) (PyFloat 1) "p") (player_at 1 1 "p")).
  - reflexivity.
  - reflexivity.
  - constructor.
  - apply Player_init_text; [apply valid_1_1|apply one_ne_0..].
  - reflexivity.
  - cbn. intros [= H]. lra.
  - apply valid_2_1.
  - reflexivity.
Defined.



(** X22. A logged-in user whose email is that of no player of the game gets
    AuthorizationError from Put, from GetAndAdvance and from Start, and the game
    and the random generator are as before. *)
Theorem handlers_reject_strangers (user : string) (lat lon seconds : R) (g : Game.t)
    (rng : stream) (ps : list Player.t) :
  collect (Game.Players g) = Ok ps ->
  existsb (has_email user) ps = false ->
  PutHandler.Put user lat lon seconds (g, rng) =
    (Failed AuthorizationError, (g, rng)) /\
  GetHandler.GetAndAdvance (Some user) seconds (g, rng) =
    (Failed AuthorizationError, (g, rng)) /\
  StartHandler.Start (Some user) lat lon (g, rng) =
    (Failed AuthorizationError, (g, rng)).
Proof.
  intros Hps Hno.
  unfold PutHandler.Put, GetHandler.GetAndAdvance, StartHandler.Start.
  cbn [fst]. unfold GameHandler.Authorize, Game.Players.
  rewrite (Authorize_loop_collect user _ ps Hps), Hno. repeat split.
Qed.

Lemma handlers_reject_strangers_witness :
  PutHandler.Put "q" 2 1 0 (game_won, zeros) =
    (Failed AuthorizationError, (game_won, zeros)) /\
  GetHandler.GetAndAdvance (Some "q") 0 (game_won, zeros) =
    (Failed AuthorizationError, (game_won, zeros)) /\
  StartHandler.Start (Some "q") 2 1 (game_won, zeros) =
    (Failed AuthorizationError, (game_won, zeros)).
Proof.
  apply (handlers_reject_strangers "q" 2 1 0 game_won zeros [player_at 1 1 "p"]).
  - unfold Game.Players, game_won. cbn [Game.players map collect].
    rewrite Player_init_text by (apply valid_1_1 || apply one_ne_0).
    reflexivity.
  - reflexivity.
Defined.


Lemma only_zombies_refl (g : Game.t) : only_zombies g g.
Proof. reflexivity. Qed.

Lemma only_zombies_trans (g1 g2 g3 : Game.t) :
  only_zombies g1 g2 -> only_zombies g2 g3 -> only_zombies g1 g3.
Proof. unfold only_zombies. congruence. Qed.

Lemma only_zombies_set (zs : list encoded) (g : Game.t) :
  only_zombies g (Game.set_zombies zs g).
Proof. destruct g. reflexivity. Qed.

Lemma AddZombie_only_zombies (clat clon : R) (g g' : Game.t)
    (rng rng' : stream) (r : result unit) :
  StartHandler.AddZombie clat clon (g, rng) = (r, (g', rng')) ->
  only_zombies g g'.
Proof.
  unfold StartHandler.AddZombie.
  unfold mbind at 1. unfold gets at 1. cbn [fst].
  unfold mbind at 1. unfold StartHandler.draw at 1.
  unfold random at 1. cbn [fst snd].
  unfold mbind at 1. unfold StartHandler.draw at 1.
  unfold random at 1. cbn [fst snd].
  unfold mbind at 1.
  destruct (StartHandler.RandomPointNear clat clon _ _) as [rp [g1 rng1]] eqn:Hrp.
  apply RandomPointNear_frame in Hrp. destruct Hrp as [-> _].
  destruct rp as [p|e]; [|intros [= _ <- _]; apply only_zombies_refl].
  unfold mbind at 1. unfold lift at 1.
  destruct (Zombie.init _ _ _) as [z|e];
    [|intros [= _ <- _]; apply only_zombies_refl].
  unfold mbind at 1. unfold lift at 1.
  destruct (Entity.SetLocation _ _ _) as [z'|e];
    [|intros [= _ <- _]; apply only_zombies_refl].
  unfold on_fst, Game.AddZombie, mbind, lift, modify. cbn [fst snd].
  destruct (Zombie.ToString z') as [s|e]; intros [= _ <- _];
    [apply only_zombies_set|apply only_zombies_refl].
Qed.

Lemma AddZombie_times_only_zombies (n : nat) (clat clon : R) :
  forall (g g' : Game.t) (rng rng' : stream) (r : result unit),
    StartHandler.AddZombie_times n clat clon (g, rng) = (r, (g', rng')) ->
    only_zombies g g'.
Proof.
  induction n as [|n IH]; intros g g' rng rng' r.
  - cbn. intros [= _ <- _]. apply only_zombies_refl.
  - cbn [StartHandler.AddZombie_times]. unfold mbind at 1.
    destruct (StartHandler.AddZombie clat clon (g, rng)) as [r1 [g1 rng1]] eqn:H1.
    apply AddZombie_only_zombies in H1.
    destruct r1 as [u1|e].
    + intros H2. apply IH in H2. eapply only_zombies_trans; eassumption.
    + intros [= _ <- _]. exact H1.
Qed.

Lemma AddZombieCluster_only_zombies (elat elon radius : R) (num : Z)
    (g g' : Game.t) (rng rng' : stream) (r : result unit) :
  StartHandler.AddZombieCluster elat elon radius num (g, rng) = (r, (g', rng')) ->
  only_zombies g g'.
Proof.
  unfold StartHandler.AddZombieCluster.
  unfold mbind at 1. unfold StartHandler.draw at 1. unfold random at 1.
  cbn [fst snd]. unfold mbind at 1.
  destruct (StartHandler.RandomPointNear elat elon _ _) as [rp [g1 rng1]] eqn:Hrp.
  apply RandomPointNear_frame in Hrp. destruct Hrp as [-> _].
  destruct rp as [c|e].
  - apply AddZombie_times_only_zombies.
  - intros [= _ <- _]. apply only_zombies_refl.
Qed.

Lemma randint_frame (a b : Z) (g g' : Game.t) (rng rng' : stream) (r : result Z) :
  StartHandler.randint a b (g, rng) = (r, (g', rng')) -> g' = g.
Proof.
  unfold StartHandler.randint. case_decide.
  - intros [= _ <- _]. reflexivity.
  - unfold mbind, StartHandler.draw, random, mret. cbn [fst snd].
    intros [= _ <- _]. reflexivity.
Qed.

Lemma PopulateZombies_loop_only_zombies (fuel : nat) (num : Z)
    (elat elon radius : R) :
  forall (g g' : Game.t) (rng rng' : stream) (r : result unit),
    StartHandler.PopulateZombies_loop fuel num elat elon radius (g, rng)
      = (r, (g', rng')) ->
    only_zombies g g'.
Proof.
  induction fuel as [|fuel IH]; intros g g' rng rng' r;
    cbn [StartHandler.PopulateZombies_loop]; unfold mbind at 1;
    unfold gets at 1; cbn [fst]; case_decide as Hn;
    try (unfold mret; intros [= _ <- _]; apply only_zombies_refl).
  unfold mbind at 1.
  destruct (StartHandler.randint 1 _ (g, rng)) as [rk [g1 rng1]] eqn:Hk.
  apply randint_frame in Hk. subst g1.
  destruct rk as [k|e]; [|intros [= _ <- _]; apply only_zombies_refl].
  unfold mbind at 1.
  destruct (StartHandler.AddZombieCluster elat elon radius k (g, rng1))
    as [rc [g2 rng2]] eqn:Hc.
  apply AddZombieCluster_only_zombies in Hc.
  destruct rc as [u|e].
  - intros H. apply IH in H. eapply only_zombies_trans; eassumption.
  - intros [= _ <- _]. exact Hc.
Qed.

Lemma PopulateZombies_frame (g g' : Game.t) (rng rng' : stream)
    (r : result unit) :
  StartHandler.PopulateZombies (g, rng) = (r, (g', rng')) ->
  only_zombies g g'.
Proof.
  unfold StartHandler.PopulateZombies.
  unfold mbind at 1. unfold gets at 1. cbn [fst].
  unfold mbind at 1. unfold lift at 1.
  destruct (StartHandler.find_owner _ _ _) as [[owner|]|e];
    try (unfold mraise; intros [= _ <- _]; apply only_zombies_refl).
  destruct (_ || _);
    [unfold mraise; intros [= _ <- _]; apply only_zombies_refl|].
  unfold mbind at 1. unfold lift at 1.
  destruct (StartHandler.GetZombieEpicenter g owner) as [epicenter|e];
    [|intros [= _ <- _]; apply only_zombies_refl].
  unfold mbind at 1. unfold lift at 1.
  destruct (Game.Destination g) as [destination|e];
    [|intros [= _ <- _]; apply only_zombies_refl].
  unfold mbind at 1. unfold lift at 1.
  destruct (Entity.DistanceFrom owner destination) as [radius_m|e];
    [|intros [= _ <- _]; apply only_zombies_refl].
  apply PopulateZombies_loop_only_zombies.
Qed.

(** X20. PopulateZombies, whether it returns or raises, changes nothing of the
    game but the list of pursuers. *)
Theorem PopulateZombies_only_zombies (g : Game.t) (rng : stream) :
  only_zombies g (fst (snd (StartHandler.PopulateZombies (g, rng)))).
Proof.
  destruct (StartHandler.PopulateZombies (g, rng)) as [r [g' rng']] eqn:H.
  cbn [fst snd]. eapply PopulateZombies_frame. exact H.
Qed.




(** A run of the generator that returns has read a located destination. *)
Lemma PopulateZombies_Ok_destination (g g' : Game.t) (rng rng' : stream)
    (u : unit) :
  StartHandler.PopulateZombies (g, rng) = (Ok u, (g', rng')) ->
  exists d la lo, Game.Destination g = Ok d /\
                  Destination.loc d = (Some la, Some lo).
Proof.
  unfold StartHandler.PopulateZombies.
  unfold mbind at 1. unfold gets at 1. cbn [fst].
  unfold mbind at 1. unfold lift at 1.
  destruct (StartHandler.find_owner _ _ _) as [[owner|]|e];
    try (unfold mraise; discriminate).
  destruct (_ || _); [unfold mraise; discriminate|].
  unfold mbind at 1. unfold lift at 1.
  unfold StartHandler.GetZombieEpicenter.
  destruct (Game.Destination g) as [d|e]; cbn [rbind]; [|discriminate].
  unfold Entity.Lat, Entity.Lon. cbn [location Destination.entity].
  destruct (Destination.loc d) as [[la|] [lo|]] eqn:Hloc; cbn [fst snd].
  - intros _. exists d, la, lo. split; [reflexivity|exact Hloc].
  - destruct (Player.entity.(location) owner).1; discriminate.
  - discriminate.
  - discriminate.
Qed.

Lemma Destination_init_located (lat lon : pyval) (d : Destination.t)
    (la lo : R) :
  Destination.init (Some (destination_text lat lon)) = Ok d ->
  Destination.loc d = (Some la, Some lo) ->
  lat = PyFloat la /\ lon = PyFloat lo /\ la <> 0 /\ lo <> 0.
Proof.
  unfold Destination.init.
  destruct (Entity.FromString _ _) as [[self' obj]|e] eqn:Hfs; cbn [rbind];
    [|discriminate].
  apply (Entity_FromString_inv (A:=Destination.t)) in Hfs.
  destruct Hfs as [-> Hcase]. cbn [fst]. intros [= <-].
  destruct Hcase as [[-> _]|(la' & lo' & Hla & Hlo & Hval & H1 & H2 & ->)].
  - cbn. discriminate.
  - cbn [with_location Destination.entity Destination.loc].
    intros [= <- <-]. unfold destination_text in Hla, Hlo.
    rewrite lookup_insert_ne in Hla by discriminate.
    rewrite lookup_insert_eq in Hla. rewrite lookup_insert_eq in Hlo.
    injection Hla as ->. injection Hlo as ->. auto.
Qed.

(** X26. When Start returns (positive average speed, random draws in [0, 1)),
    the user is the owner, the destination is a valid coordinate whose latitude
    and longitude are both different from 0 (with a destination on the equator
    or the prime meridian Start fails), the game is started with that
    destination stored and nothing else changed but the pursuers, the pursuers
    that were there are kept, the added ones have speeds within 10 percent of
    the average, and there are at least 20 pursuers. *)
Theorem Start_returns (user : option string) (lat lon : R) (g g' : Game.t)
    (rng rng' : stream) (u : unit) :
  0 < Game.average_zombie_speed g -> in_unit rng ->
  StartHandler.Start user lat lon (g, rng) = (Returned u, (g', rng')) ->
  user = Some (Game.owner g) /\
  (valid_coordinate lat lon /\ lat <> 0 /\ lon <> 0) /\
  only_zombies
    (Game.set_destination
       (Some (destination_text (PyFloat lat) (PyFloat lon)))
       (Game.set_started true g)) g' /\
  (exists added,
     Game.zombies g' = Game.zombies g ++ added /\
     Forall (jittered_speed (Game.average_zombie_speed g)) added) /\
  (20 <= length (Game.zombies g'))%nat.
Proof.
  intros Hs Hrng. unfold StartHandler.Start. cbn [fst].
  destruct (GameHandler.Authorize user g) as [[]|e]; [|discriminate].
  destruct (decide (user = Some (Game.owner g))) as [Hu|Hu];
    [|rewrite (bool_decide_eq_false_2 _ Hu); discriminate].
  rewrite (bool_decide_eq_true_2 _ Hu). cbn [negb].
  unfold run. unfold mbind at 1. unfold lift at 1.
  destruct (decide (valid_coordinate lat lon)) as [Hv|Hv];
    [|rewrite (SetLocation_invalid (A:=Destination.t)) by exact Hv;
      discriminate].
  rewrite (SetLocation_valid (A:=Destination.t)) by exact Hv.
  cbn [with_location Destination.entity].
  unfold mbind at 1. unfold on_fst at 1. unfold modify at 1. cbn [fst snd].
  unfold mbind at 1. unfold on_fst at 1. unfold Game.SetDestination at 1.
  unfold modify at 1. cbn [fst snd].
  change (Entity.ToString (Destination.mk (Some lat, Some lon)))
    with (destination_text (PyFloat lat) (PyFloat lon)).
  set (g1 := Game.set_destination _ _).
  destruct (StartHandler.PopulateZombies (g1, rng)) as [[u'|e] [g2 rng2]] eqn:Hp;
    [|discriminate].
  intros [= _ <- <-].
  split; [exact Hu|].
  assert (Hdest : lat <> 0 /\ lon <> 0).
  { destruct (PopulateZombies_Ok_destination _ _ _ _ _ Hp)
      as (d & la & lo & Hd & Hloc).
    unfold Game.Destination in Hd. cbn [g1 Game.destination Game.set_destination] in Hd.
    destruct (Destination_init_located _ _ _ _ _ Hd Hloc)
      as ([= ->] & [= ->] & H1 & H2). auto. }
  split; [split; [exact Hv|exact Hdest]|].
  split; [eapply PopulateZombies_frame; exact Hp|].
  assert (Hs1 : 0 < Game.average_zombie_speed g1) by exact Hs.
  split.
  - destruct (PopulateZombies_adds _ _ _ _ _ Hs1 Hrng Hp) as (added & Hz & Hf).
    exists added. split; [exact Hz|exact Hf].
  - destruct (PopulateZombies_length _ _ _ _ _ Hs1 Hrng Hp) as (num & Hnum & Hlen).
    lia.
Qed.

Lemma Start_returns_witness :
  Some "p" = Some (Game.owner game_lobby) /\
  (valid_coordinate 1.001 1 /\ 1.001 <> 0 /\ 1 <> 0) /\
  only_zombies
    (Game.set_destination
       (Some (destination_text (PyFloat 1.001) (PyFloat 1)))
       (Game.set_started true game_lobby))
    (Game.set_zombies
      (repeat (zombie_text (PyFloat (1 + (1.001 - 1) / 2))
                 (PyFloat (1 + (1 - 1) / 2)) (slowest game_ready)) 20)
      game_ready) /\
  (exists added,
     Game.zombies (Game.set_zombies
      (repeat (zombie_text (PyFloat (1 + (1.001 - 1) / 2))
                 (PyFloat (1 + (1 - 1) / 2)) (slowest game_ready)) 20)
      game_ready) = Game.zombies game_lobby ++ added /\
     Forall (jittered_speed (Game.average_zombie_speed game_lobby)) added) /\
  (20 <= length (Game.zombies (Game.set_zombies
      (repeat (zombie_text (PyFloat (1 + (1.001 - 1) / 2))
                 (PyFloat (1 + (1 - 1) / 2)) (slowest game_ready)) 20)
      game_ready)))%nat.
Proof.
  apply (Start_returns (Some "p") 1.001 1 game_lobby _ zeros zeros tt).
  - cbn. lra.
  - apply in_unit_zeros.
  - unfold StartHandler.Start. cbn [fst].
    unfold GameHandler.Authorize, Game.Players, game_lobby.
    cbn [Game.players map GameHandler.Authorize_loop].
    rewrite Player_init_text by (apply valid_1_1 || apply one_ne_0).
    cbn [rbind Player.Email Player.email player_at email_is].
    rewrite bool_decide_eq_true_2 by reflexivity.
    cbn [Game.owner]. rewrite bool_decide_eq_true_2 by reflexivity.
    cbn [negb]. unfold run. unfold mbind at 1. unfold lift at 1.
    rewrite (SetLocation_valid (A:=Destination.t))
      by (unfold valid_coordinate; lra).
    unfold mbind at 1. unfold on_fst at 1. unfold modify at 1. cbn [fst snd].
    unfold mbind at 1. unfold on_fst at 1. unfold Game.SetDestination at 1.
    unfold modify at 1. cbn [fst snd].
    change (Game.set_destination _ _) with game_ready.
    rewrite PopulateZombies_runs. reflexivity.
Defined.

(** What a call of [MoveTowardsLatLon] that returns has done. *)
Lemma MoveTowardsLatLon_Ok_inv (self z' : Zombie.t) (la lo dst distance : R) :
  Entity.DistanceFromLatLon self (Some la) (Some lo) = Ok dst ->
  Zombie.MoveTowardsLatLon self (Some la) (Some lo) distance = Ok z' ->
  exists slat slon,
    Zombie.loc self = (Some slat, Some slon) /\
    0 <= dst /\
    let m := if decide (0 < dst) then distance / dst else 0 in
    valid_coordinate (slat + (la - slat) * m) (slon + (lo - slon) * m) /\
    z' = Zombie.mk (Some (slat + (la - slat) * m), Some (slon + (lo - slon) * m))
           (Zombie.speed self) (Zombie.chasing self).
Proof.
  intros Hd. unfold Zombie.MoveTowardsLatLon. rewrite Hd. cbn [rbind].
  unfold Entity.DistanceFromLatLon in Hd. revert Hd.
  unfold Entity.Lat, Entity.Lon. cbn [location Zombie.entity].
  destruct (Zombie.loc self) as [[slat|] [slon|]] eqn:Hloc; cbn [fst snd];
    try discriminate.
  intros [= <-] Hset.
  apply (SetLocation_Ok_inv (A:=Zombie.t)) in Hset.
  destruct Hset as (x & y & [= <-] & [= <-] & Hv & ->).
  exists slat, slon. split; [reflexivity|].
  split; [apply great_circle_nonneg|]. cbn zeta.
  split; [exact Hv|]. reflexivity.
Qed.

(** X4. When DistanceFromLatLon returns the distance dst to a target, and
    MoveTowardsLatLon towards that target by min(dst, budget), the budget not
    negative (the step of Advance when chasing), returns, the pursuer is on the
    segment between its old position and the target in coordinate space: at
    position + m * (target - position) with 0 <= m <= 1 and m * dst equal to the
    step; at distance 0 it stays where it is; speed and chasing are kept. *)
Theorem MoveTowardsLatLon_chase_segment (self z' : Zombie.t)
    (la lo dst budget : R) :
  Entity.DistanceFromLatLon self (Some la) (Some lo) = Ok dst ->
  0 <= budget ->
  Zombie.MoveTowardsLatLon self (Some la) (Some lo) (Rmin dst budget) = Ok z' ->
  exists slat slon m,
    Zombie.loc self = (Some slat, Some slon) /\
    0 <= m <= 1 /\
    m * dst = Rmin dst budget /\
    (dst = 0 -> m = 0) /\
    z' = Zombie.mk (Some (slat + (la - slat) * m), Some (slon + (lo - slon) * m))
           (Zombie.speed self) (Zombie.chasing self).
Proof.
  intros Hd Hb Hmove.
  destruct (MoveTowardsLatLon_Ok_inv _ _ _ _ _ _ Hd Hmove)
    as (slat & slon & Hloc & Hdst & _ & Hz).
  exists slat, slon. revert Hz.
  destruct (decide (0 < dst)) as [Hpos|Hzero]; intros Hz.
  - exists (Rmin dst budget / dst).
    assert (Hmin : 0 <= Rmin dst budget <= dst).
    { split; [apply Rmin_glb; lra|apply Rmin_l]. }
    split; [exact Hloc|]. split.
    { split.
      - apply Rmult_le_pos; [lra|]. left. apply Rinv_0_lt_compat. exact Hpos.
      - apply (Rmult_le_reg_r dst); [exact Hpos|].
        replace (Rmin dst budget / dst * dst) with (Rmin dst budget)
          by (field; lra). lra. }
    split; [field; lra|]. split; [lra|exact Hz].
  - exists 0. assert (Hd0 : dst = 0) by lra.
    split; [exact Hloc|]. split; [lra|]. split.
    { rewrite Hd0. rewrite Rmin_left by lra. lra. }
    split; [reflexivity|exact Hz].
Qed.

Lemma great_circle_1_2 : 100000 < great_circle 1 1 2 1.
Proof.
  rewrite great_circle_north by lra. pose proof earth_degree_bounds. lra.
Qed.

Lemma MoveTowardsLatLon_stepped_north :
  Zombie.MoveTowardsLatLon (zombie_at 1 1 1) (Some 2) (Some 1)
    (Rmin (great_circle 1 1 2 1) 5) = Ok stepped_north.
Proof.
  pose proof great_circle_1_2 as Hd.
  unfold Zombie.MoveTowardsLatLon, Entity.DistanceFromLatLon.
  cbn [Entity.Lat Entity.Lon location Zombie.entity Zombie.loc zombie_at
       fst snd rbind].
  rewrite decide_True by lra.
  rewrite Rmin_right by lra.
  assert (Hm : 0 <= 5 / great_circle 1 1 2 1 <= 1).
  { split.
    - apply Rmult_le_pos; [lra|]. left. apply Rinv_0_lt_compat. lra.
    - apply (Rmult_le_reg_r (great_circle 1 1 2 1)); [lra|].
      replace (5 / great_circle 1 1 2 1 * great_circle 1 1 2 1) with 5
        by (field; lra). lra. }
  rewrite (SetLocation_valid (A:=Zombie.t)) by (unfold valid_coordinate; nra).
  unfold stepped_north. rewrite Rmin_right by lra. reflexivity.
Qed.

Lemma MoveTowardsLatLon_chase_segment_witness :
  exists slat slon m,
    Zombie.loc (zombie_at 1 1 1) = (Some slat, Some slon) /\
    0 <= m <= 1 /\
    m * great_circle 1 1 2 1 = Rmin (great_circle 1 1 2 1) 5 /\
    (great_circle 1 1 2 1 = 0 -> m = 0) /\
    stepped_north =
      Zombie.mk (Some (slat + (2 - slat) * m), Some (slon + (1 - slon) * m))
        (Zombie.speed (zombie_at 1 1 1)) (Zombie.chasing (zombie_at 1 1 1)).
Proof.
  apply (MoveTowardsLatLon_chase_segment (zombie_at 1 1 1) stepped_north 2 1
           (great_circle 1 1 2 1) 5).
  - reflexivity.
  - lra.
  - apply MoveTowardsLatLon_stepped_north.
Defined.





(** ** The speeds of the generated pursuers *)






Lemma at_offset_in_unit (rng0 : stream) (lo : nat) (rng : stream) :
  in_unit rng0 -> at_offset rng0 lo rng -> in_unit rng.
Proof. intros H0 Hoff n. rewrite Hoff. apply H0. Qed.












